(** * Neonatal cardiac-arrest risk pipeline: data partitioner and ensemble aggregator

    A shallow embedding of [src/config.py], [src/data/preprocessing.py],
    [src/models/architectures.py] (the roster tables) and
    [src/models/ensemble.py], with the properties of the written
    specification stated over it.

    Conventions.
    - numpy [float64]/[float32] values are idealised as exact rationals
      ([Qc], canonical fractions with Leibniz equality); [astype(np.float32)]
      is the identity.  A result that numpy fills with [nan] is a separate
      constructor, never a rational.
    - A Python exception is the [Raise] outcome of [result].
    - pandas, scikit-learn and Keras are libraries, not code of this
      repository: what the repository calls in them is a section variable,
      and what is relied on is a section hypothesis. *)

From Stdlib Require Import ZArith QArith Qcanon Qround Ascii String List Lia Permutation.
From stdpp Require Import base gmap strings list.

Open Scope Z_scope.
Open Scope string_scope.
Open Scope list_scope.

(** ** Python outcomes *)

Inductive exn : Type :=
| KeyError
| ValueError
| IndexError
| ZeroDivisionError
| NotFittedError
| OSError.

Inductive result (A : Type) : Type :=
| Ok (a : A)
| Raise (e : exn).

Arguments Ok {A} a.
Arguments Raise {A} e.

Definition rbind {A B : Type} (r : result A) (k : A -> result B) : result B :=
  match r with
  | Ok a => k a
  | Raise e => Raise e
  end.

Notation "'let?' x ':=' r 'in' k" := (rbind r (fun x => k))
  (at level 10, x pattern, r at level 100, k at level 200).

(** ** [src/config.py] *)

Module Config.

Definition FEATURE_COLUMNS : list string :=
  [ "BirthWeight"; "FamilyHistory"; "PretermBirth"; "HeartRate";
    "BreathingDifficulty"; "SkinTinge"; "Responsiveness"; "Movement";
    "DeliveryType"; "MothersBPHistory" ].

Definition TARGET_COLUMN : string := "CardiacArrestChance".

Definition NUM_FEATURES : nat := length FEATURE_COLUMNS.

Definition NUM_CLASSES : nat := 3.

(** A Python dict literal [{k1: v1, k2: v2, k3: v3}]. *)
Definition dict3 (k1 : string) (v1 : Z) (k2 : string) (v2 : Z)
    (k3 : string) (v3 : Z) : gmap string Z :=
  <[k3 := v3]> (<[k2 := v2]> (<[k1 := v1]> ∅)).

(** The outer dict is iterated with [.items()], so it keeps its insertion
    order; the inner dicts are only looked up. *)
Definition CATEGORY_MAPS : list (string * gmap string Z) :=
  [ ("BirthWeight",
      dict3 "WeightTooLow" 3 "LowWeight" 2 "NormalWeight" 1);
    ("FamilyHistory",
      dict3 "AboveTwoCases" 3 "ZeroToTwoCases" 2 "NoCases" 1);
    ("PretermBirth",
      dict3 "4orMoreWeeksEarlier" 3 "2To4weeksEarlier" 2 "NotaPreTerm" 1);
    ("HeartRate",
      dict3 "RapidHeartRate" 3 "HighHeartRate" 2 "NormalHeartRate" 1);
    ("BreathingDifficulty",
      dict3 "HighBreathingDifficulty" 3 "BreathingDifficulty" 2
            "NoBreathingDifficulty" 1);
    ("SkinTinge",
      dict3 "Bluish" 3 "LightBluish" 2 "NotBluish" 1);
    ("Responsiveness",
      dict3 "UnResponsive" 3 "SemiResponsive" 2 "Responsive" 1);
    ("Movement",
      dict3 "Diminished" 3 "Decreased" 2 "NormalMovement" 1);
    ("DeliveryType",
      dict3 "C_Section" 3 "DifficultDelivery" 2 "NormalDelivery" 1);
    ("MothersBPHistory",
      dict3 "VeryHighBP" 3 "HighBP" 2 "BPInRange" 1) ].

Definition TARGET_MAP : gmap string Z :=
  dict3 "High" 2 "Medium" 1 "Low" 0.

Definition DEFAULT_SEED : Z := 42.
Definition DEFAULT_TEST_SIZE : Qc := Q2Qc 0.15.
Definition DEFAULT_VAL_SIZE : Qc := Q2Qc 0.15.

End Config.

(** ** Data frames *)

(** A cell of a pandas column: a string read from the file, a number, or
    the missing value [NaN]. *)
Inductive cell : Type :=
| CStr (s : string)
| CNum (z : Z)
| CNaN.

(** A frame is its row labels and its named columns; [df[c]] is a lookup
    and [df[c] = v] an insert. *)
Record DataFrame : Type := mkDataFrame {
  df_index : list Z;
  df_columns : gmap string (list cell)
}.

Definition getitem (df : DataFrame) (c : string) : result (list cell) :=
  match df_columns df !! c with
  | Some v => Ok v
  | None => Raise KeyError
  end.

Definition setitem (df : DataFrame) (c : string) (v : list cell) : DataFrame :=
  mkDataFrame (df_index df) (<[c := v]> (df_columns df)).

(** [Series.map(mapping)] with a dict: a value that is not a key of the
    dict becomes [NaN]. *)
Definition map_cell (mapping : gmap string Z) (v : cell) : cell :=
  match v with
  | CStr s =>
      match mapping !! s with
      | Some z => CNum z
      | None => CNaN
      end
  | CNum _ => CNaN
  | CNaN => CNaN
  end.

Definition series_map (mapping : gmap string Z) (col : list cell) : list cell :=
  map (map_cell mapping) col.

(** ** Arrays *)

Module Numpy.

(** A 2-D array is the list of its rows.  An array with no rows is [[]]:
    its column count is not represented. *)
Abbreviation Matrix := (list (list Qc)).

Definition qsum (l : list Qc) : Qc := foldr Qcplus 0%Qc l.

(** A count as a float. *)
Definition of_nat (n : nat) : Qc := Q2Qc (Z.of_nat n # 1).

(** [a[r, c]] for an index inside the array. *)
Definition entry (a : Matrix) (r c : nat) : Qc := nth c (nth r a []) 0%Qc.

(** The row-length profile stands for the array's shape. *)
Definition profile (a : Matrix) : list nat := map length a.

Definition same_shape (a b : Matrix) : bool :=
  bool_decide (profile a = profile b).

(** [np.array(list_of_arrays)] succeeds when all the arrays have one shape. *)
Definition stackable (ps : list Matrix) : bool :=
  match ps with
  | [] => true
  | p :: rest => forallb (same_shape p) rest
  end.

(** What an aggregation over axis 0 can return: an array of rationals, an
    array of the stacked shape in which every entry is [nan], or the scalar
    [nan] that numpy gives for an empty stack. *)
Inductive ndarray : Type :=
| Arr (a : Matrix)
| NaNArr
| NaNScalar.

(** Reduction along axis 0 of a non-empty stack: entry [(r, c)] of the
    result is [f] of the list of the entries [(r, c)] of the stacked
    arrays. *)
Definition reduce_axis0 (f : list Qc -> Qc) (p : Matrix) (ps : list Matrix)
    : Matrix :=
  imap (fun r row => imap (fun c _ => f (map (fun a => entry a r c) ps)) row) p.

(** [np.mean(all_probs, axis=0)]. *)
Definition np_mean_axis0 (ps : list Matrix) : result ndarray :=
  if negb (stackable ps) then Raise ValueError
  else
    match ps with
    | [] => Ok NaNScalar
    | p :: _ =>
        Ok (Arr (reduce_axis0
                   (fun xs => (qsum xs / of_nat (length xs))%Qc)
                   p ps))
    end.

(** A 1-D weight array: rationals, or (after a division by a zero sum)
    [n] entries that are all [nan] or infinite. *)
Inductive weights : Type :=
| Finite (w : list Qc)
| NonFinite (n : nat).

Definition weights_length (w : weights) : nat :=
  match w with
  | Finite l => length l
  | NonFinite n => n
  end.

(** [weights / weights.sum()]: numpy divides by zero without raising. *)
Definition normalize (w : list Qc) : weights :=
  match w with
  | [] => Finite []
  | _ =>
      if decide (qsum w = 0%Qc) then NonFinite (length w)
      else Finite (map (fun x => (x / qsum w)%Qc) w)
  end.

(** [np.average(all_probs, axis=0, weights=w)] for 1-D weights:
    [np.multiply(a, w).sum(axis=0) / w.sum()], after numpy's checks. *)
Definition np_average_axis0 (ps : list Matrix) (w : weights) : result ndarray :=
  if negb (stackable ps) then Raise ValueError
  else
    match ps with
    | [] =>
        if decide (weights_length w = 0%nat) then Raise ZeroDivisionError
        else Raise ValueError
    | p :: _ =>
        if negb (bool_decide (weights_length w = length ps))
        then Raise ValueError
        else
          match w with
          | NonFinite _ => Ok NaNArr
          | Finite l =>
              if decide (qsum l = 0%Qc) then Raise ZeroDivisionError
              else
                Ok (Arr (reduce_axis0
                           (fun xs =>
                              (qsum (zip_with Qcmult xs l) / qsum l)%Qc)
                           p ps))
          end
    end.

End Numpy.

Export Numpy.

(** ** [src/data/preprocessing.py] *)

Module Preprocessing.

Import Config.

(** *** The scaler ([sklearn.preprocessing.StandardScaler]) *)

(** The statistics a fitted scaler holds, one per column. *)
Record ScalerStats : Type := mkStats {
  mean_ : list Qc;
  var_ : list Qc;
  scale_ : list Qc
}.

(** [None] is the scaler as constructed, before any fit. *)
Definition StandardScaler : Type := option ScalerStats.

Definition is_2d (X : Matrix) : bool :=
  match X with
  | [] => true
  | r :: _ => forallb (fun row => bool_decide (length row = length r)) X
  end.

Definition n_features (X : Matrix) : nat :=
  match X with
  | [] => 0
  | r :: _ => length r
  end.

Definition column (X : Matrix) (j : nat) : list Qc :=
  map (fun row => nth j row 0%Qc) X.

Definition qmean (xs : list Qc) : Qc :=
  (qsum xs / of_nat (length xs))%Qc.

(** Population variance, as [StandardScaler] computes it. *)
Definition qvar (xs : list Qc) : Qc :=
  qmean (map (fun x => ((x - qmean xs) * (x - qmean xs))%Qc) xs).

Section Scaler.

(** [np.sqrt] on the idealised numbers. *)
Variable sqrt : Qc -> Qc.

(** A column of zero variance is left unscaled (its scale is 1). *)
Definition handle_zeros_in_scale (s : Qc) : Qc :=
  if decide (s = 0%Qc) then 1%Qc else s.

(** [fit] validates its input as [check_array] does: an array that is not
    2-D, has no row or has no column is a [ValueError]. *)
Definition fit (X : Matrix) : result ScalerStats :=
  if negb (is_2d X) then Raise ValueError
  else
    match X with
    | [] => Raise ValueError
    | _ =>
        if bool_decide (n_features X = 0%nat) then Raise ValueError
        else
          let cols := map (column X) (seq 0 (n_features X)) in
          Ok (mkStats (map qmean cols) (map qvar cols)
                (map (fun c => handle_zeros_in_scale (sqrt (qvar c))) cols))
    end.

Definition transform_row (st : ScalerStats) (row : list Qc) : list Qc :=
  zip_with (fun x ms => ((x - fst ms) / snd ms)%Qc) row
           (zip (mean_ st) (scale_ st)).

Definition transform (sc : StandardScaler) (X : Matrix) : result Matrix :=
  match sc with
  | None => Raise NotFittedError
  | Some st =>
      if negb (is_2d X) then Raise ValueError
      else
        match X with
        | [] => Raise ValueError
        | _ =>
            if bool_decide (n_features X = 0%nat) then Raise ValueError
            else if negb (bool_decide (n_features X = length (mean_ st)))
            then Raise ValueError
            else Ok (map (transform_row st) X)
        end
  end.

(** [fit_transform] is [fit(X).transform(X)].  [fit] resets the scaler
    before it validates its input, so a fit that raises leaves the scaler
    unfitted, and a fit that returns replaces its statistics. *)
Definition fit_transform (sc : StandardScaler) (X : Matrix)
    : StandardScaler * result Matrix :=
  match fit X with
  | Ok st => (Some st, transform (Some st) X)
  | Raise e => (None, Raise e)
  end.

(** *** The pipeline object *)

Record DataPipeline : Type := mkPipeline {
  csv_path : string;
  scaler : StandardScaler
}.

Definition set_scaler (self : DataPipeline) (sc : StandardScaler)
    : DataPipeline :=
  mkPipeline (csv_path self) sc.

(** [scale_features]: the scaler is a field of [self], so the method
    returns the pipeline it leaves behind together with its outcome. *)
Definition scale_features (self : DataPipeline) (X_train X_val X_test : Matrix)
    : DataPipeline * result (Matrix * Matrix * Matrix) :=
  let '(sc, r_train) := fit_transform (scaler self) X_train in
  let self' := set_scaler self sc in
  (self',
   let? X_train_scaled := r_train in
   let? X_val_scaled := transform sc X_val in
   let? X_test_scaled := transform sc X_test in
   Ok (X_train_scaled, X_val_scaled, X_test_scaled)).

End Scaler.

(** *** Loading and encoding *)

Section Loading.

(** [pd.read_csv]. *)
Variable read_csv : string -> result DataFrame.

(** The loop [for col, mapping in CATEGORY_MAPS.items()]. *)
Fixpoint encode_columns (maps : list (string * gmap string Z))
    (df_encoded : DataFrame) : result DataFrame :=
  match maps with
  | [] => Ok df_encoded
  | (col, mapping) :: rest =>
      let? c := getitem df_encoded col in
      encode_columns rest (setitem df_encoded col (series_map mapping c))
  end.

Definition load_and_encode (self : DataPipeline)
    : result (DataFrame * DataFrame) :=
  let? df_raw := read_csv (csv_path self) in
  let df_encoded := df_raw in
  let? df_encoded := encode_columns CATEGORY_MAPS df_encoded in
  let? t := getitem df_encoded TARGET_COLUMN in
  Ok (df_raw, setitem df_encoded TARGET_COLUMN (series_map TARGET_MAP t)).

End Loading.

(** *** Splitting *)

(** Number of rows of a frame. *)
Definition nrows (df : DataFrame) : nat := length (df_index df).

(** Positional row selection, as [train_test_split] applies it to the
    frame; a position outside the frame is an [IndexError]. *)
Definition iloc (df : DataFrame) (ps : list nat) : result DataFrame :=
  if forallb (fun p => bool_decide (p < nrows df)%nat) ps
  then Ok (mkDataFrame
             (map (fun p => nth p (df_index df) 0) ps)
             ((fun col => map (fun p => nth p col CNaN) ps) <$> df_columns df))
  else Raise IndexError.

(** The record at a position: its row label and its cell in each column. *)
Definition record_at (df : DataFrame) (p : nat) : Z * gmap string cell :=
  (nth p (df_index df) 0, (fun col => nth p col CNaN) <$> df_columns df).

Definition records (df : DataFrame) : list (Z * gmap string cell) :=
  map (record_at df) (seq 0 (nrows df)).

Section Splitting.

(** The state of numpy's global random generator. *)
Variable rng : Type.

(** The index generator behind [train_test_split(..., stratify=y)]
    ([StratifiedShuffleSplit]): from the global generator, the
    [random_state] argument, the number of rows, the test fraction and the
    labels, it gives the train and test positions, or raises. *)
Variable shuffle_split :
  rng -> option Z -> nat -> Qc -> list cell -> rng * result (list nat * list nat).

Definition train_test_split (g : rng) (df : DataFrame) (test_size : Qc)
    (stratify : list cell) (random_state : option Z)
    : rng * result (DataFrame * DataFrame) :=
  let '(g', r) := shuffle_split g random_state (nrows df) test_size stratify in
  (g',
   let? (train, test) := r in
   let? a := iloc df train in
   let? b := iloc df test in
   Ok (a, b)).

(** Python's float division raises on a zero divisor. *)
Definition py_div (a b : Qc) : result Qc :=
  if decide (b = 0%Qc) then Raise ZeroDivisionError else Ok (a / b)%Qc.

Definition stratified_split (g : rng) (df_encoded : DataFrame)
    (test_size val_size : Qc) (seed : Z)
    : rng * result (DataFrame * DataFrame * DataFrame) :=
  match getitem df_encoded TARGET_COLUMN with
  | Raise e => (g, Raise e)
  | Ok y =>
      match train_test_split g df_encoded test_size y (Some seed) with
      | (g1, Raise e) => (g1, Raise e)
      | (g1, Ok (train_val_df, test_df)) =>
          match getitem train_val_df TARGET_COLUMN with
          | Raise e => (g1, Raise e)
          | Ok y_train_val =>
              match py_div val_size (1 - test_size)%Qc with
              | Raise e => (g1, Raise e)
              | Ok relative_val_size =>
                  match train_test_split g1 train_val_df relative_val_size
                          y_train_val (Some seed) with
                  | (g2, Raise e) => (g2, Raise e)
                  | (g2, Ok (train_df, val_df)) =>
                      (g2, Ok (train_df, val_df, test_df))
                  end
              end
          end
      end
  end.

End Splitting.

End Preprocessing.

(** ** Python strings and paths *)

Definition starts_with (p s : string) : bool := String.prefix p s.

(** [s.replace(old, new)] for a non-empty [old]: the occurrences are
    replaced from the left and do not overlap.  [skip] counts the
    characters of an occurrence that are still to be dropped. *)
Fixpoint replace_from (old new : string) (skip : nat) (s : string) : string :=
  match s with
  | EmptyString => EmptyString
  | String c s' =>
      match skip with
      | S k => replace_from old new k s'
      | O =>
          if starts_with old s
          then new +:+ replace_from old new (String.length old - 1) s'
          else String c (replace_from old new 0 s')
      end
  end.

Definition str_replace (s old new : string) : string :=
  replace_from old new 0 s.

Fixpoint ends_with_slash (s : string) : bool :=
  match s with
  | EmptyString => false
  | String c EmptyString => bool_decide (c = "/"%char)
  | String _ s' => ends_with_slash s'
  end.

(** [os.path.join(a, b)] on a POSIX system. *)
Definition path_join (a b : string) : string :=
  if starts_with "/" b then b
  else if bool_decide (a = "") || ends_with_slash a then a +:+ b
  else a +:+ "/" +:+ b.

(** ** [src/models/architectures.py]: the roster tables *)

Module Architectures.

(** [TABULAR_MODEL_BUILDERS], by the [__name__] of each factory. *)
Definition TABULAR_MODEL_BUILDERS : list string :=
  [ "build_shallow_wide"; "build_deep_narrow"; "build_pyramid_bn";
    "build_diamond_selu"; "build_residual_block"; "build_swish_layernorm";
    "build_mixed_activation"; "build_heavy_regularization";
    "build_attention_net"; "build_very_deep" ].

Definition EMBEDDING_MODEL_BUILDER : string := "build_embedding_net".
Definition BERT_FUSION_MODEL_BUILDER : string := "build_bert_fusion".

Definition ALL_MODEL_NAMES : list string :=
  [ "ShallowWide"; "DeepNarrow"; "PyramidBN"; "DiamondSELU";
    "ResidualBlock"; "SwishLayerNorm"; "MixedActivation";
    "HeavyRegularization"; "AttentionNet"; "VeryDeep";
    "EmbeddingNet"; "BERTFusion" ].

End Architectures.

(** ** [src/models/ensemble.py] *)

Module Ensemble.

Import Config Architectures.

(** What a Keras model is given: the scaled matrix, the per-feature integer
    columns, or the two named inputs of the fusion model. *)
Inductive ModelInput : Type :=
| TabularIn (X : Matrix)
| EmbeddingIn (cols : list (list Z))
| FusionIn (tabular_input bert_input : Matrix).

(** A model is what [model.predict(inputs, verbose=0)] computes. *)
Record Model : Type := mkModel {
  predict : ModelInput -> Matrix
}.

(** What a path of the file system holds. *)
Inductive artifact : Type :=
| SavedModel (m : Model)
| NpyFile (a : list Qc).

Inductive level : Type := INFO | WARNING.

Record EnsemblePredictor : Type := mkEnsemble {
  trained_models : list Model;
  model_names : list string;
  individual_aucs : list Qc
}.

(** The predictor object, the file system and the log. *)
Record World : Type := mkWorld {
  self : EnsemblePredictor;
  disk : gmap string artifact;
  log : list (level * string)
}.

(** [EnsemblePredictor(strategy)]. *)
Definition init : EnsemblePredictor := mkEnsemble [] [] [].

(** *** State and exceptions *)

Definition M (A : Type) : Type := World -> World * result A.

Definition ret {A : Type} (a : A) : M A := fun w => (w, Ok a).

Definition raise {A : Type} (e : exn) : M A := fun w => (w, Raise e).

Definition bind {A B : Type} (c : M A) (k : A -> M B) : M B :=
  fun w =>
    match c w with
    | (w', Ok a) => k a w'
    | (w', Raise e) => (w', Raise e)
    end.

Definition lift {A : Type} (r : result A) : M A := fun w => (w, r).

Notation "'do' x '<-' c ';' k" := (bind c (fun x => k))
  (at level 10, x pattern, c at level 100, k at level 200).
Notation "c ';;' k" := (bind c (fun _ => k))
  (at level 100, k at level 200, right associativity).

Definition get_self : M EnsemblePredictor := fun w => (w, Ok (self w)).

Definition put_self (s : EnsemblePredictor) : M unit :=
  fun w => (mkWorld s (disk w) (log w), Ok tt).

Definition logger (l : level) (msg : string) : M unit :=
  fun w => (mkWorld (self w) (disk w) (log w ++ [(l, msg)]), Ok tt).

Definition write_file (path : string) (a : artifact) : M unit :=
  fun w => (mkWorld (self w) (<[path := a]> (disk w)) (log w), Ok tt).

Definition read_file (path : string) : M (option artifact) :=
  fun w => (w, Ok (disk w !! path)).

(** The three appends that end the training of one member. *)
Definition append_member (model : Model) (name : string) (auc : Qc) : M unit :=
  do s <- get_self;
  put_self (mkEnsemble (trained_models s ++ [model])
                       (model_names s ++ [name])
                       (individual_aucs s ++ [auc])).

(** *** Helpers *)

(** [astype(np.int32)] on a finite float: truncation towards zero; a value
    whose integer part does not fit 32 bits gives the least 32-bit integer,
    [-2^31], the result of the conversion on x86-64. *)
Definition to_int32 (q : Qc) : Z :=
  let t := Z.quot (Qnum q) (Zpos (Qden q)) in
  if bool_decide (- 2 ^ 31 <= t < 2 ^ 31) then t else - 2 ^ 31.

(** [X[:, i]]: an [IndexError] when a row has no column [i]. *)
Fixpoint column_at (X : Matrix) (i : nat) : result (list Qc) :=
  match X with
  | [] => Ok []
  | row :: rest =>
      match row !! i with
      | None => Raise IndexError
      | Some x => let? xs := column_at rest i in Ok (x :: xs)
      end
  end.

Fixpoint mapM_result {A B : Type} (f : A -> result B) (l : list A)
    : result (list B) :=
  match l with
  | [] => Ok []
  | a :: rest =>
      let? b := f a in
      let? bs := mapM_result f rest in
      Ok (b :: bs)
  end.

Definition _split_for_embedding (X : Matrix) : result (list (list Z)) :=
  mapM_result (fun i => let? c := column_at X i in Ok (map to_int32 c))
              (seq 0 NUM_FEATURES).

Section Methods.

(** The directory of the project, from which [SAVED_MODELS_DIR] is built. *)
Variable PROJECT_ROOT : string.

(** A factory of [architectures.py], by its [__name__], called inside
    [strategy.scope()].  TensorFlow's random generator is not part of the
    state: [build] and [keras_fit] stand for the outcome of one run, and no
    statement below compares the models or the scores of two runs. *)
Variable build : string -> Model.

(** [model.fit(inputs, y, validation_data=(val_inputs, y_val), epochs=...,
    batch_size=..., callbacks=get_training_callbacks(model_name=name),
    verbose=0)]: the model as training leaves it.  The directory
    [saved_models/checkpoints/<name>] that [get_training_callbacks] creates
    and the checkpoints written there are not represented in [disk]. *)
Variable keras_fit :
  string -> Model -> ModelInput -> list Z -> ModelInput -> list Z ->
  nat -> nat -> Model.

(** [tensorflow.keras.utils.to_categorical]. *)
Variable to_categorical : list Z -> nat -> result Matrix.

(** [sklearn.metrics.roc_auc_score(y_onehot, probs, multi_class="ovr",
    average="macro")]. *)
Variable roc_auc_score : Matrix -> ndarray -> result Qc.

Definition SAVED_MODELS_DIR : string := path_join PROJECT_ROOT "saved_models".

(** [directory or os.path.join(SAVED_MODELS_DIR, "ensemble")]: [None] and
    the empty string both give the default. *)
Definition directory_or_default (directory : option string) : string :=
  match directory with
  | Some d => if bool_decide (d = "") then path_join SAVED_MODELS_DIR "ensemble"
              else d
  | None => path_join SAVED_MODELS_DIR "ensemble"
  end.

(** *** [train_all] *)

(** The loop over [TABULAR_MODEL_BUILDERS]. *)
Fixpoint train_tabular (builders : list string)
    (X_train : Matrix) (y_train : list Z) (X_val : Matrix) (y_val : list Z)
    (y_val_onehot : Matrix) (epochs batch_size : nat) : M unit :=
  match builders with
  | [] => ret tt
  | builder :: rest =>
      let name := str_replace builder "build_" "" in
      logger INFO "Training model %d/12: %s";;
      let model :=
        keras_fit name (build builder) (TabularIn X_train) y_train
                  (TabularIn X_val) y_val epochs batch_size in
      let val_probs := predict model (TabularIn X_val) in
      do auc <- lift (roc_auc_score y_val_onehot (Arr val_probs));
      logger INFO "  %s validation AUC: %.4f";;
      append_member model name auc;;
      train_tabular rest X_train y_train X_val y_val y_val_onehot
                    epochs batch_size
  end.

Definition train_embedding
    (y_train y_val : list Z) (X_train_raw X_val_raw : option Matrix)
    (y_val_onehot : Matrix) (epochs batch_size : nat) : M unit :=
  match X_train_raw, X_val_raw with
  | Some X_train_raw, Some X_val_raw =>
      logger INFO "Training model 11/12: EmbeddingNet";;
      do X_train_emb <- lift (_split_for_embedding X_train_raw);
      do X_val_emb <- lift (_split_for_embedding X_val_raw);
      let emb_model :=
        keras_fit "EmbeddingNet" (build EMBEDDING_MODEL_BUILDER)
                  (EmbeddingIn X_train_emb) y_train
                  (EmbeddingIn X_val_emb) y_val epochs batch_size in
      let val_probs := predict emb_model (EmbeddingIn X_val_emb) in
      do auc <- lift (roc_auc_score y_val_onehot (Arr val_probs));
      logger INFO "  EmbeddingNet validation AUC: %.4f";;
      append_member emb_model "EmbeddingNet" auc
  | _, _ =>
      logger WARNING "Raw features not provided -- skipping EmbeddingNet model"
  end.

Definition train_fusion
    (X_train : Matrix) (y_train : list Z) (X_val : Matrix) (y_val : list Z)
    (bert_train bert_val : option Matrix)
    (y_val_onehot : Matrix) (epochs batch_size : nat) : M unit :=
  match bert_train, bert_val with
  | Some bert_train, Some bert_val =>
      logger INFO "Training model 12/12: BERTFusion";;
      let fusion_model :=
        keras_fit "BERTFusion" (build BERT_FUSION_MODEL_BUILDER)
                  (FusionIn X_train bert_train) y_train
                  (FusionIn X_val bert_val) y_val epochs batch_size in
      let val_probs := predict fusion_model (FusionIn X_val bert_val) in
      do auc <- lift (roc_auc_score y_val_onehot (Arr val_probs));
      logger INFO "  BERTFusion validation AUC: %.4f";;
      append_member fusion_model "BERTFusion" auc
  | _, _ =>
      logger WARNING "BERT embeddings not provided -- skipping BERTFusion model"
  end.

Definition train_all
    (X_train : Matrix) (y_train : list Z) (X_val : Matrix) (y_val : list Z)
    (X_train_raw X_val_raw bert_train bert_val : option Matrix)
    (epochs batch_size : nat) : M unit :=
  do y_val_onehot <- lift (to_categorical y_val NUM_CLASSES);
  train_tabular TABULAR_MODEL_BUILDERS X_train y_train X_val y_val
                y_val_onehot epochs batch_size;;
  train_embedding y_train y_val X_train_raw X_val_raw y_val_onehot
                  epochs batch_size;;
  train_fusion X_train y_train X_val y_val bert_train bert_val y_val_onehot
               epochs batch_size;;
  logger INFO "Ensemble training complete. %d models trained.".

(** *** Prediction *)

(** The loop of [_collect_predictions] over
    [zip(self.trained_models, self.model_names)]; [all_probs] is the list
    built so far. *)
Fixpoint collect_loop (members : list (Model * string))
    (X : Matrix) (X_raw bert_embeddings : option Matrix)
    (all_probs : list Matrix) : M (list Matrix) :=
  match members with
  | [] => ret all_probs
  | (model, name) :: rest =>
      if decide (name = "EmbeddingNet") then
        match X_raw with
        | Some X_raw' =>
            do X_emb <- lift (_split_for_embedding X_raw');
            collect_loop rest X X_raw bert_embeddings
                         (all_probs ++ [predict model (EmbeddingIn X_emb)])
        | None =>
            logger WARNING "Skipping EmbeddingNet -- no raw features";;
            collect_loop rest X X_raw bert_embeddings all_probs
        end
      else if decide (name = "BERTFusion") then
        match bert_embeddings with
        | Some b =>
            collect_loop rest X X_raw bert_embeddings
                         (all_probs ++ [predict model (FusionIn X b)])
        | None =>
            logger WARNING "Skipping BERTFusion -- no BERT embeddings";;
            collect_loop rest X X_raw bert_embeddings all_probs
        end
      else
        collect_loop rest X X_raw bert_embeddings
                     (all_probs ++ [predict model (TabularIn X)])
  end.

Definition _collect_predictions
    (X : Matrix) (X_raw bert_embeddings : option Matrix) : M (list Matrix) :=
  do s <- get_self;
  collect_loop (zip (trained_models s) (model_names s))
               X X_raw bert_embeddings [].

Definition predict_ensemble
    (X : Matrix) (X_raw bert_embeddings : option Matrix) : M ndarray :=
  do all_probs <- _collect_predictions X X_raw bert_embeddings;
  lift (np_mean_axis0 all_probs).

Definition predict_weighted_ensemble
    (X : Matrix) (X_raw bert_embeddings : option Matrix) : M ndarray :=
  do all_probs <- _collect_predictions X X_raw bert_embeddings;
  do s <- get_self;
  let weights := take (length all_probs) (individual_aucs s) in
  let weights := normalize weights in
  lift (np_average_axis0 all_probs weights).

(** The loop of [evaluate_auc] over [zip(self.model_names, all_probs)]. *)
Fixpoint per_model_aucs (named : list (string * Matrix))
    (y_true_onehot : Matrix) (results : gmap string Qc)
    : M (gmap string Qc) :=
  match named with
  | [] => ret results
  | (name, probs) :: rest =>
      do auc <- lift (roc_auc_score y_true_onehot (Arr probs));
      per_model_aucs rest y_true_onehot (<[name +:+ "_auc" := auc]> results)
  end.

Definition evaluate_auc
    (X : Matrix) (y_true : list Z) (X_raw bert_embeddings : option Matrix)
    (weighted : bool) : M (gmap string Qc) :=
  do y_true_onehot <- lift (to_categorical y_true NUM_CLASSES);
  do avg_probs <- predict_ensemble X X_raw bert_embeddings;
  do ensemble_auc <- lift (roc_auc_score y_true_onehot avg_probs);
  let results : gmap string Qc := {[ "ensemble_auc" := ensemble_auc ]} in
  do s <- get_self;
  do results <-
    (if weighted && negb (bool_decide (individual_aucs s = []))
     then
       do w_probs <- predict_weighted_ensemble X X_raw bert_embeddings;
       do w_auc <- lift (roc_auc_score y_true_onehot w_probs);
       ret (<["weighted_ensemble_auc" := w_auc]> results)
     else ret results);
  do all_probs <- _collect_predictions X X_raw bert_embeddings;
  do s <- get_self;
  per_model_aucs (zip (model_names s) all_probs) y_true_onehot results.

(** *** Persistence *)

(** The loop of [save_all]: [model.save(os.path.join(directory, name))]. *)
Fixpoint save_loop (members : list (Model * string)) (directory : string)
    : M unit :=
  match members with
  | [] => ret tt
  | (model, name) :: rest =>
      let path := path_join directory name in
      write_file path (SavedModel model);;
      logger INFO "Saved model: %s";;
      save_loop rest directory
  end.

Definition save_all (directory : option string) : M unit :=
  let directory := directory_or_default directory in
  do s <- get_self;
  save_loop (zip (trained_models s) (model_names s)) directory;;
  do s <- get_self;
  write_file (path_join directory "individual_aucs.npy")
             (NpyFile (individual_aucs s)).

(** [tf.keras.models.load_model(path)] on a path that exists. *)
Definition load_model (a : artifact) : result Model :=
  match a with
  | SavedModel m => Ok m
  | NpyFile _ => Raise OSError
  end.

(** [np.load(path).tolist()] on a path that exists. *)
Definition np_load (a : artifact) : result (list Qc) :=
  match a with
  | NpyFile l => Ok l
  | SavedModel _ => Raise OSError
  end.

(** The loop of [load_all] over [ALL_MODEL_NAMES]. *)
Fixpoint load_loop (names : list string) (directory : string) : M unit :=
  match names with
  | [] => ret tt
  | name :: rest =>
      let path := path_join directory name in
      do found <- read_file path;
      match found with
      | Some a =>
          do model <- lift (load_model a);
          do s <- get_self;
          put_self (mkEnsemble (trained_models s ++ [model])
                               (model_names s ++ [name])
                               (individual_aucs s));;
          logger INFO "Loaded model: %s";;
          load_loop rest directory
      | None => load_loop rest directory
      end
  end.

Definition load_all (directory : option string) : M unit :=
  let directory := directory_or_default directory in
  do s <- get_self;
  put_self (mkEnsemble [] [] (individual_aucs s));;
  load_loop ALL_MODEL_NAMES directory;;
  let auc_path := path_join directory "individual_aucs.npy" in
  do found <- read_file auc_path;
  match found with
  | Some a =>
      do aucs <- lift (np_load a);
      do s <- get_self;
      put_self (mkEnsemble (trained_models s) (model_names s) aucs)
  | None => ret tt
  end.

End Methods.

End Ensemble.

(** ** Reference definitions and sample data *)

Module Spec.

Import Config Preprocessing Ensemble.

(** The cell of a frame at a column and a row position. *)
Definition cell_at (df : DataFrame) (col : string) (i : nat) : option cell :=
  df_columns df !! col ≫= (fun c => c !! i).

(** The encoding table: the ten feature maps and the target map. *)
Definition encoding_table : list (string * gmap string Z) :=
  (TARGET_COLUMN, TARGET_MAP) :: CATEGORY_MAPS.

(** A two-row file with every column, one unknown category in each of
    two columns. *)
Definition sample_frame : DataFrame :=
  mkDataFrame [0; 1]
    (list_to_map
       [ ("BirthWeight", [CStr "WeightTooLow"; CStr "Overweight"]);
         ("FamilyHistory", [CStr "NoCases"; CStr "AboveTwoCases"]);
         ("PretermBirth", [CStr "NotaPreTerm"; CStr "2To4weeksEarlier"]);
         ("HeartRate", [CStr "NormalHeartRate"; CStr "RapidHeartRate"]);
         ("BreathingDifficulty",
            [CStr "NoBreathingDifficulty"; CStr "BreathingDifficulty"]);
         ("SkinTinge", [CStr "NotBluish"; CStr "Bluish"]);
         ("Responsiveness", [CStr "Responsive"; CStr "UnResponsive"]);
         ("Movement", [CStr "NormalMovement"; CStr "Decreased"]);
         ("DeliveryType", [CStr "C_Section"; CStr "NormalDelivery"]);
         ("MothersBPHistory", [CStr "BPInRange"; CStr "HighBP"]);
         ("CardiacArrestChance", [CStr "Low"; CStr "Severe"]) ]).

Definition sample_read_csv (path : string) : result DataFrame :=
  if bool_decide (path = "infantset.csv") then Ok sample_frame
  else Raise OSError.

Definition sample_pipeline : DataPipeline := mkPipeline "infantset.csv" None.

(** A three-row file with every column, in which the first and the last
    row hold the same categories. *)
Definition repeated_frame : DataFrame :=
  mkDataFrame [0; 1; 2]
    (list_to_map
       [ ("BirthWeight",
            [CStr "LowWeight"; CStr "NormalWeight"; CStr "LowWeight"]);
         ("FamilyHistory",
            [CStr "NoCases"; CStr "AboveTwoCases"; CStr "NoCases"]);
         ("PretermBirth",
            [CStr "NotaPreTerm"; CStr "2To4weeksEarlier"; CStr "NotaPreTerm"]);
         ("HeartRate",
            [CStr "HighHeartRate"; CStr "RapidHeartRate"; CStr "HighHeartRate"]);
         ("BreathingDifficulty",
            [CStr "NoBreathingDifficulty"; CStr "BreathingDifficulty";
             CStr "NoBreathingDifficulty"]);
         ("SkinTinge", [CStr "NotBluish"; CStr "Bluish"; CStr "NotBluish"]);
         ("Responsiveness",
            [CStr "Responsive"; CStr "UnResponsive"; CStr "Responsive"]);
         ("Movement",
            [CStr "NormalMovement"; CStr "Decreased"; CStr "NormalMovement"]);
         ("DeliveryType",
            [CStr "C_Section"; CStr "NormalDelivery"; CStr "C_Section"]);
         ("MothersBPHistory", [CStr "BPInRange"; CStr "HighBP"; CStr "BPInRange"]);
         ("CardiacArrestChance", [CStr "Medium"; CStr "High"; CStr "Medium"]) ]).

Definition repeated_read_csv (path : string) : result DataFrame :=
  if bool_decide (path = "infantset.csv") then Ok repeated_frame
  else Raise OSError.

(** A square root on the rationals: exact on the square of a rational,
    rounded down to a multiple of the inverse denominator otherwise. *)
Definition exact_sqrt (q : Qc) : Qc :=
  Q2Qc (Z.sqrt (Qnum q * Zpos (Qden q)) # Qden q).

(** A splitter for the samples, over a generator that is a counter.  The
    test rows are [ceil(test_size * n)] rows: the first ones when seeded;
    unseeded, the first or the last ones by the parity of the counter,
    which is then advanced. *)
Definition sample_shuffle_split (g : nat) (random_state : option Z) (n : nat)
    (test_size : Qc) (y : list cell) : nat * result (list nat * list nat) :=
  let k := Z.to_nat (Qceiling (test_size * of_nat n)%Qc) in
  if bool_decide (0 < k < n)%nat then
    match random_state with
    | Some _ => (g, Ok (seq k (n - k), seq 0 k))
    | None =>
        (S g, Ok (if Nat.odd g then (seq 0 (n - k), seq (n - k) k)
                  else (seq k (n - k), seq 0 k)))
    end
  else (g, Raise ValueError).

(** Four encoded records, two of each of two classes. *)
Definition sample_encoded : DataFrame :=
  mkDataFrame [10; 11; 12; 13]
    (list_to_map
       [ ("BirthWeight", [CNum 3; CNum 1; CNum 2; CNum 1]);
         ("CardiacArrestChance", [CNum 0; CNum 1; CNum 0; CNum 1]) ]).

(** The sample frame split 50/25/25 with seed 42, from a generator state. *)
Definition sample_split (g : nat)
    : nat * result (DataFrame * DataFrame * DataFrame) :=
  stratified_split nat sample_shuffle_split g sample_encoded
                   (Q2Qc 0.25) (Q2Qc 0.25) 42.

(** A training column with mean 2 and variance 1, and a validation row. *)
Definition sample_X_train : Matrix := [[1%Qc]; [Q2Qc 3]].
Definition sample_X_val : Matrix := [[Q2Qc 3]].

(** *** The ensemble *)

(** A member is skipped by [_collect_predictions] when the input its name
    asks for was not given. *)
Definition skipped (name : string) (X_raw bert : option Matrix) : bool :=
  if decide (name = "EmbeddingNet") then
    match X_raw with None => true | Some _ => false end
  else if decide (name = "BERTFusion") then
    match bert with None => true | Some _ => false end
  else false.

Definition kept (X_raw bert : option Matrix) (member : Model * string) : bool :=
  negb (skipped (snd member) X_raw bert).

Definition skip_warning (member : Model * string) : level * string :=
  if decide (snd member = "EmbeddingNet")
  then (WARNING, "Skipping EmbeddingNet -- no raw features")
  else (WARNING, "Skipping BERTFusion -- no BERT embeddings").

(** The per-feature columns of the raw matrix, when it has them. *)
Definition emb_columns (X_raw : option Matrix) : list (list Z) :=
  match X_raw with
  | Some r =>
      match _split_for_embedding r with
      | Ok cols => cols
      | Raise _ => []
      end
  | None => []
  end.

(** The input a member is given, by its name. *)
Definition member_input (name : string) (X : Matrix)
    (X_raw bert : option Matrix) : ModelInput :=
  if decide (name = "EmbeddingNet") then EmbeddingIn (emb_columns X_raw)
  else if decide (name = "BERTFusion") then FusionIn X (default [] bert)
  else TabularIn X.

(** [P_i]: the probabilities member [i] predicts for the request. *)
Definition member_probs (X : Matrix) (X_raw bert : option Matrix)
    (member : Model * string) : Matrix :=
  predict (fst member) (member_input (snd member) X X_raw bert).

(** The members of a predictor, as its methods pair them. *)
Definition members (s : EnsemblePredictor) : list (Model * string) :=
  zip (trained_models s) (model_names s).

(** The raw matrix, when given, has the columns the embedding member is
    fed; asked only of a roster that has this member. *)
Definition raw_columns_ok (names : list string) (X_raw : option Matrix) : Prop :=
  "EmbeddingNet" ∈ names ->
  forall r, X_raw = Some r -> exists cols, _split_for_embedding r = Ok cols.


(** The roster as [train_all] leaves it: one name and one score per model. *)
Definition well_formed (s : EnsemblePredictor) : Prop :=
  length (trained_models s) = length (model_names s)
  /\ length (model_names s) = length (individual_aucs s).


(** The unweighted mean of the specification. *)
Definition unweighted_mean (Ps : list Matrix) (r c : nat) : Qc :=
  (qsum (map (fun P => entry P r c) Ps) / of_nat (length Ps))%Qc.

Definition add_log (w : World) (msgs : list (level * string)) : World :=
  mkWorld (self w) (disk w) (log w ++ msgs).

(** A model that predicts the same row for every record. *)
Definition const_model (row : list Qc) : Model :=
  mkModel (fun inp =>
             match inp with
             | TabularIn X => map (fun _ => row) X
             | EmbeddingIn cols => map (fun _ => row) (hd [] cols)
             | FusionIn X _ => map (fun _ => row) X
             end).

(** The scenario of the specification: two members with validation AUC
    0.9 and 0.7 that predict [0.6, 0.3, 0.1] and [0.2, 0.5, 0.3]. *)
Definition scenario : World :=
  mkWorld
    (mkEnsemble
       [ const_model [Q2Qc 0.6; Q2Qc 0.3; Q2Qc 0.1];
         const_model [Q2Qc 0.2; Q2Qc 0.5; Q2Qc 0.3] ]
       [ "shallow_wide"; "deep_narrow" ]
       [ Q2Qc 0.9; Q2Qc 0.7 ])
    ∅ [].

(** One record of ten features. *)
Definition one_record : Matrix := [replicate 10 1%Qc].

(** A predictor as constructed, an empty file system, an empty log. *)
Definition fresh : World := mkWorld init ∅ [].

(** The two members of the scenario with the same validation AUC. *)
Definition equally_scored : World :=
  mkWorld
    (mkEnsemble (trained_models (self scenario)) (model_names (self scenario))
                [Q2Qc 0.8; Q2Qc 0.8])
    ∅ [].

(** One member whose validation AUC is 0. *)
Definition zero_scored : World :=
  mkWorld
    (mkEnsemble [const_model [Q2Qc 0.6; Q2Qc 0.3; Q2Qc 0.1]]
                ["shallow_wide"] [0%Qc])
    ∅ [].

(** A roster with one tabular member, the embedding member and the fusion
    member. *)
Definition mixed_roster : World :=
  mkWorld
    (mkEnsemble
       [ const_model [Q2Qc 0.6; Q2Qc 0.3; Q2Qc 0.1];
         const_model [Q2Qc 0.2; Q2Qc 0.5; Q2Qc 0.3];
         const_model [Q2Qc 0.1; Q2Qc 0.1; Q2Qc 0.8] ]
       [ "shallow_wide"; "EmbeddingNet"; "BERTFusion" ]
       [ Q2Qc 0.9; Q2Qc 0.7; Q2Qc 0.8 ])
    ∅ [].

(** A roster of the embedding member and the fusion member alone. *)
Definition skipped_roster : World :=
  mkWorld
    (mkEnsemble
       [ const_model [Q2Qc 0.2; Q2Qc 0.5; Q2Qc 0.3];
         const_model [Q2Qc 0.1; Q2Qc 0.1; Q2Qc 0.8] ]
       [ "EmbeddingNet"; "BERTFusion" ]
       [ Q2Qc 0.7; Q2Qc 0.8 ])
    ∅ [].

(** The saved models [load_all] finds under a directory, in the order of
    the names it looks for. *)
Definition found_members (d : gmap string artifact) (directory : string)
    (names : list string) : list (Model * string) :=
  omap (fun name =>
          match d !! path_join directory name with
          | Some (SavedModel m) => Some (m, name)
          | _ => None
          end) names.

(** Every path [load_all] finds under the directory holds a saved model. *)
Definition artifacts_load (d : gmap string artifact) (directory : string)
    (names : list string) : Prop :=
  forall name a, name ∈ names -> d !! path_join directory name = Some a ->
                 exists m, a = SavedModel m.

Definition on_disk (d : gmap string artifact) (directory : string)
    (name : string) : bool :=
  bool_decide (is_Some (d !! path_join directory name)).

(** A predictor that holds two scores, and a directory that holds one
    saved model and no score file. *)
Definition stale_world : World :=
  mkWorld
    (mkEnsemble [] [] [Q2Qc 0.9; Q2Qc 0.7])
    {[ "/models/EmbeddingNet"
         := SavedModel (const_model [Q2Qc 0.2; Q2Qc 0.5; Q2Qc 0.3]) ]}
    [].

(** *** Stand-ins for the libraries, for the sample runs *)

(** One-hot rows; a label outside the classes is an [IndexError]. *)
Definition sample_to_categorical (y : list Z) (num_classes : nat)
    : result Matrix :=
  if forallb (fun l => bool_decide (0 <= l < Z.of_nat num_classes)) y
  then Ok (map (fun l =>
                  map (fun c => if bool_decide (Z.of_nat c = l)
                                then 1%Qc else 0%Qc)
                      (seq 0 num_classes)) y)
  else Raise IndexError.

(** A score in place of the AUC: the mean probability given to the true
    class; an array of [nan] is a [ValueError]. *)
Definition sample_score (y_onehot : Matrix) (probs : ndarray) : result Qc :=
  match probs with
  | Arr a =>
      Ok (qsum (zip_with (fun yr pr => qsum (zip_with Qcmult yr pr))
                         y_onehot a)
          / of_nat (length y_onehot))%Qc
  | NaNArr => Raise ValueError
  | NaNScalar => Raise ValueError
  end.

(** Every factory gives the same constant model, and training leaves a
    model as it is. *)
Definition sample_build (builder : string) : Model :=
  const_model [Q2Qc 0.5; Q2Qc 0.3; Q2Qc 0.2].

Definition sample_fit (name : string) (model : Model)
    (train_in : ModelInput) (y_train : list Z)
    (val_in : ModelInput) (y_val : list Z) (epochs batch_size : nat) : Model :=
  model.

(** A full training run from a fresh predictor, with raw-integer matrices
    and auxiliary embeddings supplied: two training records, one validation
    record. *)
Definition sample_train_all : M unit :=
  train_all sample_build sample_fit sample_to_categorical sample_score
    [replicate 10 1%Qc; replicate 10 (Q2Qc (-1))] [0; 2]
    one_record [0]
    (Some [replicate 10 (Q2Qc 3); replicate 10 1%Qc])
    (Some [replicate 10 (Q2Qc 3)])
    (Some [[1%Qc; 0%Qc]; [0%Qc; 1%Qc]])
    (Some [[1%Qc; 0%Qc]])
    200 64.

Definition after_training : World := fst (sample_train_all fresh).
Definition after_saving : World := fst (save_all "/app" None after_training).
Definition after_loading : World := fst (load_all "/app" None after_saving).

End Spec.

(** ** Further reference definitions *)

Module Roster.

Import Config Architectures Ensemble Spec.

(** Both optional arguments of a pair were given. *)
Definition both {A : Type} (a b : option A) : bool :=
  match a, b with
  | Some _, Some _ => true
  | _, _ => false
  end.

(** The names [train_all] gives the tabular members. *)
Definition tabular_names : list string :=
  map (fun builder => str_replace builder "build_" "") TABULAR_MODEL_BUILDERS.

(** The names one call of [train_all] appends, by the optional inputs it
    is given. *)
Definition trained_names
    (X_train_raw X_val_raw bert_train bert_val : option Matrix) : list string :=
  tabular_names
  ++ (if both X_train_raw X_val_raw then ["EmbeddingNet"] else [])
  ++ (if both bert_train bert_val then ["BERTFusion"] else []).


(** The model a list of members holds under a name, the last one if the
    name occurs more than once. *)
Definition saved_as (mems : list (Model * string)) (name : string)
    : option Model :=
  foldl (fun acc m => if decide (snd m = name) then Some (fst m) else acc)
        None mems.

(** The file system after the models of a list of members were saved under
    a directory. *)
Definition saved_disk (d : gmap string artifact) (directory : string)
    (mems : list (Model * string)) : gmap string artifact :=
  foldl (fun d m => <[path_join directory (snd m) := SavedModel (fst m)]> d)
        d mems.

(** A state that extends another by some members, on the same file
    system. *)
Definition extends (w w' : World) (names : list string) : Prop :=
  exists (ms : list Model) (aucs : list Qc),
    length ms = length names /\ length aucs = length names
    /\ self w' = mkEnsemble (trained_models (self w) ++ ms)
                            (model_names (self w) ++ names)
                            (individual_aucs (self w) ++ aucs)
    /\ disk w' = disk w.

(** A call that only wrote warnings to the log: the predictor and the file
    system are as before. *)
Definition only_warned (w w' : World) : Prop :=
  self w' = self w /\ disk w' = disk w
  /\ exists msgs, log w' = log w ++ msgs
                  /\ Forall (fun m => fst m = WARNING) msgs.

End Roster.

(** Equality of computed rationals, entry by entry. *)
Ltac qc_eq :=
  vm_compute;
  repeat match goal with
         | |- @eq Qc _ _ => apply Qc_is_canon; reflexivity
         | |- _ => progress f_equal
         end.

(** * Properties of the data partitioner *)

Module PreprocessingProofs.

Import Config Preprocessing Spec.

Lemma encode_columns_spec (maps : list (string * gmap string Z)) :
  forall df : DataFrame,
    NoDup (maps.*1) ->
    (forall c, c ∈ maps.*1 -> is_Some (df_columns df !! c)) ->
    exists df',
      encode_columns maps df = Ok df'
      /\ df_index df' = df_index df
      /\ (forall c mapping, (c, mapping) ∈ maps ->
            df_columns df' !! c = series_map mapping <$> df_columns df !! c)
      /\ (forall c, c ∉ maps.*1 -> df_columns df' !! c = df_columns df !! c).
Proof.
  induction maps as [|[col mapping] rest IH]; intros df Hnd Hcols.
  - exists df. repeat split; try done. intros c m Hin. inversion Hin.
  - cbn [fmap list_fmap fst] in Hnd, Hcols. apply NoDup_cons in Hnd as [Hnotin Hnd].
    destruct (Hcols col) as [v Hv]; [by left|].
    cbn [encode_columns]. unfold getitem. rewrite Hv. cbn [rbind].
    destruct (IH (setitem df col (series_map mapping v)) Hnd) as
      (df' & Hrun & Hidx & Hin & Hout).
    { intros c Hc. cbn. destruct (decide (col = c)) as [->|Hne].
      - rewrite lookup_insert_eq. eauto.
      - rewrite lookup_insert_ne by done. apply Hcols. by right. }
    exists df'. split; [exact Hrun|]. split; [by rewrite Hidx|]. split.
    + intros c m Hc. apply elem_of_cons in Hc as [Heq|Hc].
      * inversion Heq; subst c m. rewrite Hout by exact Hnotin.
        cbn. rewrite lookup_insert_eq, Hv. done.
      * rewrite (Hin c m Hc). cbn.
        assert (col <> c) as Hne.
        { intros ->. apply Hnotin. apply list_elem_of_fmap.
          exists (c, m). split; [done|exact Hc]. }
        by rewrite lookup_insert_ne.
    + intros c Hc. apply not_elem_of_cons in Hc as [Hne Hc].
      rewrite (Hout c Hc). cbn. by rewrite lookup_insert_ne.
Qed.

Lemma category_columns_distinct : NoDup (TARGET_COLUMN :: CATEGORY_MAPS.*1).
Proof. refine (bool_decide_unpack _ _). vm_compute. exact I. Qed.

Lemma category_columns_are_features : CATEGORY_MAPS.*1 = FEATURE_COLUMNS.
Proof. reflexivity. Qed.

(** C7.  When the file has the ten feature columns and the target column,
    [load_and_encode] returns the raw frame unchanged and an encoded frame
    in which each of these columns is the raw column mapped through its
    table: a string that is a key becomes its integer (BirthWeight
    "WeightTooLow" becomes 3, CardiacArrestChance "Low" becomes 0), and a
    string that is no key of the column's table becomes [NaN], never an
    integer. *)
Theorem load_and_encode_maps_through_table
    (read_csv : string -> result DataFrame) (self : DataPipeline)
    (df_raw : DataFrame) :
  read_csv (csv_path self) = Ok df_raw ->
  (forall c, c ∈ TARGET_COLUMN :: FEATURE_COLUMNS ->
             is_Some (df_columns df_raw !! c)) ->
  exists df_encoded,
    load_and_encode read_csv self = Ok (df_raw, df_encoded)
    /\ (forall col mapping, (col, mapping) ∈ encoding_table ->
          df_columns df_encoded !! col
          = series_map mapping <$> df_columns df_raw !! col)
    /\ (forall col mapping i s z, (col, mapping) ∈ encoding_table ->
          cell_at df_raw col i = Some (CStr s) -> mapping !! s = Some z ->
          cell_at df_encoded col i = Some (CNum z))
    /\ (forall i, cell_at df_raw "BirthWeight" i = Some (CStr "WeightTooLow") ->
          cell_at df_encoded "BirthWeight" i = Some (CNum 3))
    /\ (forall i, cell_at df_raw "CardiacArrestChance" i = Some (CStr "Low") ->
          cell_at df_encoded "CardiacArrestChance" i = Some (CNum 0))
    /\ (forall col mapping i s, (col, mapping) ∈ encoding_table ->
          cell_at df_raw col i = Some (CStr s) -> mapping !! s = None ->
          cell_at df_encoded col i = Some CNaN).
Proof.
  intros Hread Hcols.
  pose proof category_columns_distinct as Hnd.
  apply NoDup_cons in Hnd as [Htarget Hnd].
  destruct (encode_columns_spec CATEGORY_MAPS df_raw Hnd) as
    (df1 & Hrun & _ & Hin & Hout).
  { intros c Hc. apply Hcols. right. by rewrite <- category_columns_are_features. }
  destruct (Hcols TARGET_COLUMN) as [t Ht]; [by left|].
  assert (df_columns df1 !! TARGET_COLUMN = Some t) as Ht1.
  { by rewrite (Hout _ Htarget). }
  set (df2 := setitem df1 TARGET_COLUMN (series_map TARGET_MAP t)).
  assert (forall col mapping, (col, mapping) ∈ encoding_table ->
            df_columns df2 !! col
            = series_map mapping <$> df_columns df_raw !! col) as Htab.
  { intros col mapping Hc. apply elem_of_cons in Hc as [Heq|Hc].
    - inversion Heq; subst col mapping. subst df2. cbn.
      rewrite lookup_insert_eq, Ht. done.
    - subst df2. cbn. rewrite lookup_insert_ne.
      + by apply Hin.
      + intros <-. apply Htarget. apply list_elem_of_fmap.
        exists (TARGET_COLUMN, mapping). split; [done|exact Hc]. }
  assert (forall col mapping i s, (col, mapping) ∈ encoding_table ->
            cell_at df_raw col i = Some (CStr s) ->
            cell_at df2 col i = Some (map_cell mapping (CStr s))) as Hcell.
  { intros col mapping i s Hc Hraw. unfold cell_at in *.
    rewrite (Htab col mapping Hc).
    destruct (df_columns df_raw !! col) as [rc|]; [|done]. cbn in *.
    unfold series_map. rewrite list_lookup_fmap, Hraw. done. }
  exists df2. split.
  { unfold load_and_encode. rewrite Hread. cbn [rbind]. rewrite Hrun.
    cbn [rbind]. unfold getitem. rewrite Ht1. done. }
  split; [exact Htab|]. split.
  { intros col mapping i s z Hc Hraw Hz.
    rewrite (Hcell col mapping i s Hc Hraw). cbn. by rewrite Hz. }
  split.
  { intros i Hraw.
    rewrite (Hcell "BirthWeight"
               (dict3 "WeightTooLow" 3 "LowWeight" 2 "NormalWeight" 1)
               i _ ltac:(right; left) Hraw).
    reflexivity. }
  split.
  { intros i Hraw.
    rewrite (Hcell "CardiacArrestChance" TARGET_MAP i _ ltac:(left) Hraw).
    reflexivity. }
  intros col mapping i s Hc Hraw Hnone.
  rewrite (Hcell col mapping i s Hc Hraw). cbn. by rewrite Hnone.
Qed.

Lemma sample_frame_has_columns :
  forall c, c ∈ TARGET_COLUMN :: FEATURE_COLUMNS ->
            is_Some (df_columns sample_frame !! c).
Proof.
  intros c Hc. unfold FEATURE_COLUMNS, TARGET_COLUMN in Hc.
  repeat (apply elem_of_cons in Hc as [->|Hc]; [vm_compute; eauto|]).
  inversion Hc.
Qed.

(** The sample file run through [load_and_encode]. *)
Lemma load_and_encode_maps_through_table_witness :
  exists df_encoded,
    load_and_encode sample_read_csv sample_pipeline
    = Ok (sample_frame, df_encoded)
    /\ cell_at df_encoded "BirthWeight" 0 = Some (CNum 3)
    /\ cell_at df_encoded "BirthWeight" 1 = Some CNaN
    /\ cell_at df_encoded "CardiacArrestChance" 0 = Some (CNum 0)
    /\ cell_at df_encoded "CardiacArrestChance" 1 = Some CNaN.
Proof.
  destruct (load_and_encode_maps_through_table sample_read_csv sample_pipeline
              sample_frame eq_refl sample_frame_has_columns)
    as (enc & Hrun & _ & _ & Hbw & Hlow & Hnan).
  exists enc. split; [exact Hrun|]. split; [apply Hbw; reflexivity|].
  split.
  { apply (Hnan "BirthWeight"
                (dict3 "WeightTooLow" 3 "LowWeight" 2 "NormalWeight" 1)
                1%nat "Overweight");
      [right; left | reflexivity | vm_compute; reflexivity]. }
  split; [apply Hlow; reflexivity|].
  apply (Hnan "CardiacArrestChance" TARGET_MAP 1%nat "Severe");
    [left | reflexivity | vm_compute; reflexivity].
Defined.

(** *** Scaling *)

Lemma scale_features_inv (sqrt : Qc -> Qc) (self self' : DataPipeline)
    (X_train X_val X_test a b c : Matrix) :
  scale_features sqrt self X_train X_val X_test = (self', Ok (a, b, c)) ->
  exists st,
    fit sqrt X_train = Ok st
    /\ self' = set_scaler self (Some st)
    /\ transform (Some st) X_train = Ok a
    /\ transform (Some st) X_val = Ok b
    /\ transform (Some st) X_test = Ok c.
Proof.
  unfold scale_features, fit_transform.
  destruct (fit sqrt X_train) as [st|e]; [|intros [= _ ?]; discriminate].
  destruct (transform (Some st) X_train) as [a'|e] eqn:Ha;
    [|intros [= _ ?]; discriminate].
  cbn [rbind].
  destruct (transform (Some st) X_val) as [b'|e] eqn:Hb;
    [|intros [= _ ?]; discriminate].
  cbn [rbind].
  destruct (transform (Some st) X_test) as [c'|e] eqn:Hc;
    [|intros [= _ ?]; discriminate].
  cbn [rbind]. intros [= <- <- <- <-]. exists st. done.
Qed.

(** C4, as amended.  After [scale_features] has returned, the scaler of
    the pipeline holds the statistics fitted on the training matrix alone,
    and applying it again to the same training, validation or test matrix
    gives the matrix [scale_features] returned for it; a second
    [scale_features] on the same matrices returns the same triple and
    leaves the same pipeline. *)
Theorem scale_features_reapplied_to_same_input (sqrt : Qc -> Qc)
    (self self' : DataPipeline) (X_train X_val X_test a b c : Matrix) :
  scale_features sqrt self X_train X_val X_test = (self', Ok (a, b, c)) ->
  (exists st, fit sqrt X_train = Ok st /\ scaler self' = Some st)
  /\ transform (scaler self') X_train = Ok a
  /\ transform (scaler self') X_val = Ok b
  /\ transform (scaler self') X_test = Ok c
  /\ scale_features sqrt self' X_train X_val X_test = (self', Ok (a, b, c)).
Proof.
  intros Hrun.
  destruct (scale_features_inv _ _ _ _ _ _ _ _ _ Hrun)
    as (st & Hfit & -> & Ha & Hb & Hc).
  cbn [set_scaler scaler].
  split; [by exists st|]. split; [exact Ha|]. split; [exact Hb|].
  split; [exact Hc|].
  unfold scale_features, fit_transform. cbn [scaler].
  rewrite Hfit, Ha, Hb, Hc. reflexivity.
Qed.

(** A column with mean 2 and scale 1, and the validation value 3. *)
Lemma scale_features_reapplied_to_same_input_witness :
  transform
    (scaler (fst (scale_features exact_sqrt sample_pipeline
                    sample_X_train sample_X_val sample_X_val)))
    sample_X_val
  = Ok [[1%Qc]].
Proof.
  assert (scale_features exact_sqrt sample_pipeline
            sample_X_train sample_X_val sample_X_val
          = (mkPipeline "infantset.csv"
               (Some (mkStats [Q2Qc 2] [1%Qc] [1%Qc])),
             Ok ([[Q2Qc (-1)]; [1%Qc]], [[1%Qc]], [[1%Qc]]))) as Hrun
    by qc_eq.
  destruct (scale_features_reapplied_to_same_input _ _ _ _ _ _ _ _ _ Hrun)
    as (_ & _ & Hb & _).
  rewrite Hrun. exact Hb.
Defined.

(** C4, as stated, fails: on a training column with mean 2 and scale 1 the
    validation value 3 is transformed to 1, and transforming that result
    once more gives -1. *)
Lemma fitted_transform_not_idempotent :
  exists self' a b c b',
    scale_features exact_sqrt sample_pipeline
      sample_X_train sample_X_val sample_X_val = (self', Ok (a, b, c))
    /\ transform (scaler self') sample_X_val = Ok b
    /\ transform (scaler self') b = Ok b'
    /\ b = [[1%Qc]] /\ b' = [[Q2Qc (-1)]] /\ b' <> b.
Proof.
  exists (mkPipeline "infantset.csv" (Some (mkStats [Q2Qc 2] [1%Qc] [1%Qc]))),
    [[Q2Qc (-1)]; [1%Qc]], [[1%Qc]], [[1%Qc]], [[Q2Qc (-1)]].
  split; [qc_eq|]. split; [qc_eq|]. split; [qc_eq|].
  split; [reflexivity|]. split; [reflexivity|].
  intros [= H].
Qed.

(** *** Splitting *)

Lemma map_seq_positions {B : Type} (f g : nat -> B) (ps : list nat) :
  (forall k p, ps !! k = Some p -> f k = g p) ->
  map f (seq 0 (length ps)) = map g ps.
Proof.
  intros H. apply list_eq. intros i.
  change (map f) with (fmap (M:=list) f). change (map g) with (fmap (M:=list) g).
  rewrite !list_lookup_fmap.
  destruct (ps !! i) as [p|] eqn:Hp.
  - rewrite lookup_seq_lt by (eapply lookup_lt_Some; eauto).
    cbn. f_equal. by apply H.
  - rewrite lookup_seq_ge by (by apply lookup_ge_None). done.
Qed.

Lemma nth_map_lookup {A B : Type} (f : A -> B) (l : list A) (k : nat)
    (a : A) (d : B) :
  l !! k = Some a -> nth k (map f l) d = f a.
Proof.
  intros H. apply nth_lookup_Some.
  change (map f) with (fmap (M:=list) f). by rewrite list_lookup_fmap, H.
Qed.

Lemma iloc_inv (df d : DataFrame) (ps : list nat) :
  iloc df ps = Ok d ->
  Forall (fun p => p < nrows df)%nat ps
  /\ d = mkDataFrame (map (fun p => nth p (df_index df) 0) ps)
           ((fun col => map (fun p => nth p col CNaN) ps) <$> df_columns df).
Proof.
  unfold iloc.
  destruct (forallb _ ps) eqn:Hall; [|discriminate].
  intros [= <-]. split; [|done].
  apply Forall_forall. intros p Hp.
  apply Is_true_eq_left, forallb_True in Hall. rewrite Forall_forall in Hall.
  specialize (Hall p Hp). by apply bool_decide_unpack in Hall.
Qed.

Lemma iloc_in_range (df : DataFrame) (ps : list nat) :
  Forall (fun p => p < nrows df)%nat ps -> exists d, iloc df ps = Ok d.
Proof.
  intros H. unfold iloc.
  assert (forallb (fun p => bool_decide (p < nrows df)%nat) ps = true) as ->.
  { apply Is_true_eq_true, forallb_True. eapply Forall_impl; [exact H|].
    intros p Hp. by apply bool_decide_pack. }
  eauto.
Qed.

Lemma iloc_nrows (df d : DataFrame) (ps : list nat) :
  iloc df ps = Ok d -> nrows d = length ps.
Proof.
  intros H. apply iloc_inv in H as [_ ->]. unfold nrows. cbn.
  by rewrite length_map.
Qed.

Lemma iloc_records (df d : DataFrame) (ps : list nat) :
  iloc df ps = Ok d -> records d = map (record_at df) ps.
Proof.
  intros H. unfold records. rewrite (iloc_nrows _ _ _ H).
  apply iloc_inv in H as [_ ->].
  apply map_seq_positions. intros k p Hk. unfold record_at. cbn. f_equal.
  - exact (nth_map_lookup (fun p => nth p (df_index df) 0) ps k p 0 Hk).
  - rewrite <- map_fmap_compose. apply map_fmap_ext. intros c col _. cbn.
    exact (nth_map_lookup (fun p => nth p col CNaN) ps k p CNaN Hk).
Qed.

Lemma iloc_iloc (df d d' : DataFrame) (ps qs : list nat) :
  iloc df ps = Ok d -> iloc d qs = Ok d' ->
  iloc df (map (fun q => nth q ps 0%nat) qs) = Ok d'.
Proof.
  intros H1 H2. pose proof (iloc_nrows _ _ _ H1) as Hn.
  apply iloc_inv in H1 as [Hps ->]. apply iloc_inv in H2 as [Hqs ->].
  rewrite Hn in Hqs. cbn [df_index df_columns].
  assert (forall q, q ∈ qs -> exists p, ps !! q = Some p) as Hlook.
  { intros q Hq. rewrite Forall_forall in Hqs.
    apply lookup_lt_is_Some_2. apply Hqs. exact Hq. }
  destruct (iloc_in_range df (map (fun q => nth q ps 0%nat) qs)) as [d0 Hd0].
  { apply Forall_forall. intros p Hp.
    change (map (fun q : nat => nth q ps 0%nat)) with
      (fmap (M:=list) (fun q : nat => nth q ps 0%nat)) in Hp.
    apply list_elem_of_fmap in Hp as (q & -> & Hq).
    destruct (Hlook q Hq) as [p Hp]. rewrite (nth_lookup_Some _ _ _ _ Hp).
    rewrite Forall_forall in Hps. apply Hps.
    eapply list_elem_of_lookup_2; eauto. }
  rewrite Hd0. f_equal. apply iloc_inv in Hd0 as [_ ->]. f_equal.
  - rewrite map_map. apply map_ext_in. intros q Hq.
    apply list_elem_of_In in Hq. destruct (Hlook q Hq) as [p Hp].
    rewrite (nth_lookup_Some _ _ _ _ Hp). symmetry.
    exact (nth_map_lookup (fun p => nth p (df_index df) 0) ps q p 0 Hp).
  - rewrite <- map_fmap_compose. apply map_fmap_ext. intros c col _. cbn.
    rewrite map_map. apply map_ext_in. intros q Hq.
    apply list_elem_of_In in Hq. destruct (Hlook q Hq) as [p Hp].
    rewrite (nth_lookup_Some _ _ _ _ Hp). symmetry.
    exact (nth_map_lookup (fun p => nth p col CNaN) ps q p CNaN Hp).
Qed.

Lemma positions_through (ps qs : list nat) :
  Permutation qs (seq 0 (length ps)) ->
  Permutation (map (fun q => nth q ps 0%nat) qs) ps.
Proof.
  intros H. rewrite (Permutation_map _ H).
  replace (map (fun q => nth q ps 0%nat) (seq 0 (length ps)))
    with (map (fun p : nat => p) ps).
  - by rewrite map_id.
  - symmetry. apply map_seq_positions. intros k p Hk.
    by apply nth_lookup_Some.
Qed.

Section SplitProperties.

Context {rng : Type}.
Context (shuffle_split :
  rng -> option Z -> nat -> Qc -> list cell ->
  rng * result (list nat * list nat)).

Local Abbreviation train_test_split := (train_test_split rng shuffle_split).
Local Abbreviation stratified_split := (stratified_split rng shuffle_split).

(** What is relied on of the library's index generator: the train and test
    positions it returns are the positions of the rows, each once. *)
Hypothesis shuffle_split_partition :
  forall g random_state n test_size y g' train test,
    shuffle_split g random_state n test_size y = (g', Ok (train, test)) ->
    Permutation (train ++ test) (seq 0 n).

(** What is relied on of the library's seeding: with an integer
    [random_state] the outcome does not depend on the global generator. *)
Hypothesis shuffle_split_seeded :
  forall g1 g2 seed n test_size y,
    snd (shuffle_split g1 (Some seed) n test_size y)
    = snd (shuffle_split g2 (Some seed) n test_size y).

Lemma train_test_split_inv g df test_size y random_state g' a b :
  train_test_split g df test_size y random_state = (g', Ok (a, b)) ->
  exists train test,
    Permutation (train ++ test) (seq 0 (nrows df))
    /\ iloc df train = Ok a /\ iloc df test = Ok b.
Proof.
  unfold Preprocessing.train_test_split.
  destruct (shuffle_split g random_state (nrows df) test_size y)
    as [g0 [[train test]|e]] eqn:Hs; [|intros [= _ ?]; discriminate].
  cbn [rbind].
  destruct (iloc df train) as [a'|e] eqn:Ha; [|intros [= _ ?]; discriminate].
  cbn [rbind].
  destruct (iloc df test) as [b'|e] eqn:Hb; [|intros [= _ ?]; discriminate].
  cbn [rbind]. intros [= _ <- <-].
  exists train, test. split; [|done].
  eapply shuffle_split_partition; eauto.
Qed.

Lemma stratified_split_inv g df test_size val_size seed g' train val test :
  stratified_split g df test_size val_size seed
  = (g', Ok (train, val, test)) ->
  exists y g1 train_val y_train_val relative_val_size,
    getitem df TARGET_COLUMN = Ok y
    /\ train_test_split g df test_size y (Some seed)
       = (g1, Ok (train_val, test))
    /\ getitem train_val TARGET_COLUMN = Ok y_train_val
    /\ py_div val_size (1 - test_size)%Qc = Ok relative_val_size
    /\ train_test_split g1 train_val relative_val_size y_train_val (Some seed)
       = (g', Ok (train, val)).
Proof.
  unfold Preprocessing.stratified_split.
  destruct (getitem df TARGET_COLUMN) as [y|e] eqn:Hy;
    [|intros [= _ ?]; discriminate].
  destruct (train_test_split g df test_size y (Some seed))
    as [g1 [[train_val test_df]|e]] eqn:H1; [|intros [= _ ?]; discriminate].
  destruct (getitem train_val TARGET_COLUMN) as [ytv|e] eqn:Hytv;
    [|intros [= _ ?]; discriminate].
  destruct (py_div val_size (1 - test_size)%Qc) as [rel|e] eqn:Hrel;
    [|intros [= _ ?]; discriminate].
  destruct (train_test_split g1 train_val rel ytv (Some seed))
    as [g2 [[train_df val_df]|e]] eqn:H2; [|intros [= _ ?]; discriminate].
  intros [= <- <- <- <-].
  exists y, g1, train_val, ytv, rel. done.
Qed.

(** C9.  When [stratified_split] returns, its three frames are the rows of
    the source frame at three lists of positions that together hold every
    position of the source exactly once: no row is in two partitions, every
    row is in one, and the records of the three partitions are, up to
    order, the records of the source. *)
Theorem stratified_split_disjoint_exhaustive
    g df test_size val_size seed g' train val test :
  stratified_split g df test_size val_size seed
  = (g', Ok (train, val, test)) ->
  exists ptrain pval ptest,
    iloc df ptrain = Ok train /\ iloc df pval = Ok val
    /\ iloc df ptest = Ok test
    /\ NoDup (ptrain ++ pval ++ ptest)
    /\ (forall p, p ∈ ptrain ++ pval ++ ptest <-> (p < nrows df)%nat)
    /\ Permutation (records train ++ records val ++ records test)
                   (records df).
Proof.
  intros Hrun.
  destruct (stratified_split_inv _ _ _ _ _ _ _ _ _ Hrun)
    as (y & g1 & tv & ytv & rel & _ & H1 & _ & _ & H2).
  destruct (train_test_split_inv _ _ _ _ _ _ _ _ H1)
    as (ptv & ptest & Hp1 & Htv & Htest).
  destruct (train_test_split_inv _ _ _ _ _ _ _ _ H2)
    as (q1 & q2 & Hp2 & Htrain & Hval).
  rewrite (iloc_nrows _ _ _ Htv) in Hp2.
  set (ptrain := map (fun q => nth q ptv 0%nat) q1).
  set (pval := map (fun q => nth q ptv 0%nat) q2).
  assert (Permutation (ptrain ++ pval ++ ptest) (seq 0 (nrows df))) as Hperm.
  { rewrite app_assoc. subst ptrain pval. rewrite <- map_app.
    rewrite (positions_through ptv (q1 ++ q2) Hp2). exact Hp1. }
  exists ptrain, pval, ptest.
  split; [exact (iloc_iloc _ _ _ _ _ Htv Htrain)|].
  split; [exact (iloc_iloc _ _ _ _ _ Htv Hval)|].
  split; [exact Htest|].
  split; [rewrite Hperm; apply NoDup_seq|].
  split.
  { intros p. rewrite Hperm, elem_of_seq. lia. }
  rewrite (iloc_records _ _ _ (iloc_iloc _ _ _ _ _ Htv Htrain)).
  rewrite (iloc_records _ _ _ (iloc_iloc _ _ _ _ _ Htv Hval)).
  rewrite (iloc_records _ _ _ Htest).
  rewrite <- !map_app. unfold records. by apply Permutation_map.
Qed.

(** C8.  Two calls of [stratified_split] on the same frame, with the same
    fractions and the same seed, give the same outcome (the same three
    partitions, or the same exception), whatever the state of the global
    random generator at each call. *)
Theorem stratified_split_deterministic g1 g2 df test_size val_size seed :
  snd (stratified_split g1 df test_size val_size seed)
  = snd (stratified_split g2 df test_size val_size seed).
Proof.
  unfold Preprocessing.stratified_split, Preprocessing.train_test_split.
  destruct (getitem df TARGET_COLUMN) as [y|e]; [|done].
  pose proof (shuffle_split_seeded g1 g2 seed (nrows df) test_size y) as Hs.
  destruct (shuffle_split g1 (Some seed) (nrows df) test_size y) as [h1 r1].
  destruct (shuffle_split g2 (Some seed) (nrows df) test_size y) as [h2 r2].
  cbn [snd] in Hs. subst r2.
  destruct r1 as [[ptv ptest]|e]; [|done]. cbn [rbind].
  destruct (iloc df ptv) as [tv|e]; [|done]. cbn [rbind].
  destruct (iloc df ptest) as [test|e]; [|done]. cbn [rbind].
  destruct (getitem tv TARGET_COLUMN) as [ytv|e]; [|done].
  destruct (py_div val_size (1 - test_size)%Qc) as [rel|e]; [|done].
  pose proof (shuffle_split_seeded h1 h2 seed (nrows tv) rel ytv) as Hs.
  destruct (shuffle_split h1 (Some seed) (nrows tv) rel ytv) as [k1 r1].
  destruct (shuffle_split h2 (Some seed) (nrows tv) rel ytv) as [k2 r2].
  cbn [snd] in Hs. subst r2.
  destruct r1 as [[q1 q2]|e]; [|done]. cbn [rbind].
  destruct (iloc tv q1) as [train|e]; [|done]. cbn [rbind].
  destruct (iloc tv q2) as [val|e]; done.
Qed.

End SplitProperties.

Lemma sample_shuffle_split_partition :
  forall g random_state n test_size y g' train test,
    sample_shuffle_split g random_state n test_size y = (g', Ok (train, test)) ->
    Permutation (train ++ test) (seq 0 n).
Proof.
  intros g rs n t y g' train test. unfold sample_shuffle_split.
  set (k := Z.to_nat _). case_bool_decide as Hk; [|intros [= _ ?]; discriminate].
  assert (seq 0 n = seq 0 k ++ seq k (n - k)) as Hfront.
  { transitivity (seq 0 (k + (n - k))); [f_equal; lia | apply seq_app]. }
  assert (seq 0 n = seq 0 (n - k) ++ seq (n - k) k) as Hback.
  { transitivity (seq 0 ((n - k) + k)); [f_equal; lia | apply seq_app]. }
  destruct rs as [seed|].
  - intros [= _ <- <-]. rewrite Hfront. apply Permutation_app_comm.
  - destruct (Nat.odd g); intros [= _ <- <-].
    + by rewrite Hback.
    + rewrite Hfront. apply Permutation_app_comm.
Qed.

Lemma sample_shuffle_split_seeded :
  forall g1 g2 seed n test_size y,
    snd (sample_shuffle_split g1 (Some seed) n test_size y)
    = snd (sample_shuffle_split g2 (Some seed) n test_size y).
Proof.
  intros. unfold sample_shuffle_split. by case_bool_decide.
Qed.

(** The sample split is a partition of the four sample records. *)
Lemma stratified_split_disjoint_exhaustive_witness :
  match sample_split 0 with
  | (_, Ok (train, val, test)) =>
      (nrows train = 2 /\ nrows val = 1 /\ nrows test = 1)%nat
      /\ Permutation (records train ++ records val ++ records test)
                     (records sample_encoded)
  | (_, Raise _) => False
  end.
Proof.
  destruct (sample_split 0) as [g [[[train val] test]|e]] eqn:Hrun.
  - split.
    + unfold sample_split in Hrun. vm_compute in Hrun.
      injection Hrun as _ <- <- <-. done.
    + destruct (stratified_split_disjoint_exhaustive sample_shuffle_split
                  sample_shuffle_split_partition _ _ _ _ _ _ _ _ _ Hrun)
        as (p1 & p2 & p3 & _ & _ & _ & _ & _ & Hperm).
      exact Hperm.
  - vm_compute in Hrun. discriminate Hrun.
Defined.

(** The sample split from two different states of the global generator. *)
Lemma stratified_split_deterministic_witness :
  snd (sample_split 0) = snd (sample_split 7).
Proof.
  exact (stratified_split_deterministic sample_shuffle_split
           sample_shuffle_split_seeded 0%nat 7%nat sample_encoded
           (Q2Qc 0.25) (Q2Qc 0.25) 42).
Defined.

End PreprocessingProofs.

(** * Properties of the ensemble aggregator *)

Module EnsembleProofs.

Import Config Architectures Ensemble Spec.

(** *** Sums of rationals *)

Lemma of_nat_S (n : nat) : of_nat (S n) = (1 + of_nat n)%Qc.
Proof.
  unfold of_nat. apply Qc_is_canon. cbn [this Qcplus Q2Qc].
  rewrite !Qred_correct. unfold Qeq, Qplus. cbn [Qnum Qden]. lia.
Qed.

Lemma of_nat_0 : of_nat 0 = 0%Qc.
Proof. apply Qc_is_canon. reflexivity. Qed.

Lemma of_nat_pos (n : nat) : (0 < n)%nat -> of_nat n <> 0%Qc.
Proof.
  intros Hn Heq. apply (f_equal this) in Heq. unfold of_nat in Heq.
  cbn [this Q2Qc] in Heq.
  assert (Qred (Z.of_nat n # 1) == 0)%Q as H0 by (rewrite Heq; reflexivity).
  rewrite Qred_correct in H0. unfold Qeq in H0. cbn in H0. lia.
Qed.

Lemma qsum_nil : qsum [] = 0%Qc.
Proof. reflexivity. Qed.

Lemma qsum_cons (x : Qc) (l : list Qc) : qsum (x :: l) = (x + qsum l)%Qc.
Proof. reflexivity. Qed.

Ltac qsum_step :=
  cbn [map zip_with app replicate length fmap list_fmap];
  rewrite ?qsum_cons, ?qsum_nil.

Lemma qsum_app (l k : list Qc) : qsum (l ++ k) = (qsum l + qsum k)%Qc.
Proof.
  induction l as [|x l IH]; qsum_step; [ring|]. rewrite IH. ring.
Qed.

Lemma qsum_scale (d : Qc) (l : list Qc) :
  qsum (map (fun x => (x * d)%Qc) l) = (qsum l * d)%Qc.
Proof.
  induction l as [|x l IH]; qsum_step; [ring|]. rewrite IH. ring.
Qed.

Lemma qsum_replicate (n : nat) (x : Qc) :
  qsum (replicate n x) = (of_nat n * x)%Qc.
Proof.
  induction n as [|n IH]; qsum_step.
  - rewrite of_nat_0. ring.
  - rewrite IH, of_nat_S. ring.
Qed.

Lemma qsum_const_one {A : Type} (l : list A) :
  qsum (map (fun _ => 1%Qc) l) = of_nat (length l).
Proof.
  induction l as [|a l IH]; qsum_step.
  - by rewrite of_nat_0.
  - by rewrite IH, of_nat_S.
Qed.

(** Weighting by [w_i / d] is weighting by [w_i], divided by [d]. *)
Lemma qsum_weighted_scaled (d : Qc) (xs ws : list Qc) :
  qsum (zip_with Qcmult xs (map (fun w => (w / d)%Qc) ws))
  = (qsum (zip_with Qcmult ws xs) / d)%Qc.
Proof.
  revert ws. induction xs as [|x xs IH]; intros [|w ws]; qsum_step;
    try (unfold Qcdiv; ring).
  rewrite IH. unfold Qcdiv. ring.
Qed.

Lemma qsum_weighted_const (d : Qc) (xs : list Qc) :
  qsum (zip_with Qcmult xs (replicate (length xs) d)) = (qsum xs * d)%Qc.
Proof.
  induction xs as [|x xs IH]; qsum_step; [ring|].
  rewrite IH. ring.
Qed.

Lemma qsum_const_weights (d : Qc) (xs : list Qc) (k : nat) :
  length xs = k ->
  qsum (zip_with Qcmult (replicate k d) xs) = (d * qsum xs)%Qc.
Proof.
  intros <-. induction xs as [|x xs IH]; qsum_step; [ring|].
  rewrite IH. ring.
Qed.

Lemma qsum_zero {A : Type} (l : list A) : qsum (map (fun _ => 0%Qc) l) = 0%Qc.
Proof.
  induction l as [|a l IH]; qsum_step; [done|]. rewrite IH. ring.
Qed.

Lemma qsum_plus {A : Type} (f g : A -> Qc) (l : list A) :
  qsum (map (fun a => (f a + g a)%Qc) l)
  = (qsum (map f l) + qsum (map g l))%Qc.
Proof.
  induction l as [|a l IH]; qsum_step; [ring|]. rewrite IH. ring.
Qed.

(** Summing a table by rows or by columns. *)
Lemma qsum_exchange {A : Type} (f : A -> nat -> Qc) (l : list A) (cs : list nat) :
  qsum (map (fun c => qsum (map (fun a => f a c) l)) cs)
  = qsum (map (fun a => qsum (map (fun c => f a c) cs)) l).
Proof.
  induction cs as [|c cs IH]; qsum_step.
  - by rewrite qsum_zero.
  - rewrite IH, <- qsum_plus. reflexivity.
Qed.

(** *** Reductions along axis 0 *)

Lemma imap_index_only {A B : Type} (h : nat -> B) (l : list A) :
  imap (fun i _ => h i) l = map h (seq 0 (length l)).
Proof.
  apply list_eq. intros i. rewrite list_lookup_imap.
  change (map h) with (fmap (M:=list) h). rewrite list_lookup_fmap.
  destruct (l !! i) as [a|] eqn:Hi; cbn.
  - by rewrite lookup_seq_lt by (eapply lookup_lt_Some; eauto).
  - by rewrite lookup_seq_ge by (by apply lookup_ge_None).
Qed.

Lemma map_seq_positions_entry {A B : Type} (f : nat -> B) (g : A -> B)
    (l : list A) :
  (forall k a, l !! k = Some a -> f k = g a) ->
  map f (seq 0 (length l)) = map g l.
Proof.
  intros H. apply list_eq. intros i.
  change (map f) with (fmap (M:=list) f). change (map g) with (fmap (M:=list) g).
  rewrite !list_lookup_fmap.
  destruct (l !! i) as [a|] eqn:Hi.
  - rewrite lookup_seq_lt by (eapply lookup_lt_Some; eauto).
    cbn. f_equal. by apply H.
  - rewrite lookup_seq_ge by (by apply lookup_ge_None). done.
Qed.

Lemma reduce_axis0_row (f : list Qc -> Qc) (p : Matrix) (ps : list Matrix)
    (r : nat) (row : list Qc) :
  p !! r = Some row ->
  reduce_axis0 f p ps !! r
  = Some (map (fun c => f (map (fun a => entry a r c) ps))
              (seq 0 (length row))).
Proof.
  intros Hr. unfold reduce_axis0. rewrite list_lookup_imap, Hr. cbn.
  by rewrite imap_index_only.
Qed.

Lemma reduce_axis0_profile (f : list Qc -> Qc) (p : Matrix) (ps : list Matrix) :
  profile (reduce_axis0 f p ps) = profile p.
Proof.
  unfold profile. apply list_eq. intros r.
  change (map length) with (fmap (M:=list) (length (A:=Qc))).
  rewrite !list_lookup_fmap.
  destruct (p !! r) as [row|] eqn:Hr; cbn.
  - rewrite (reduce_axis0_row _ _ _ _ _ Hr). cbn.
    by rewrite length_map, length_seq.
  - unfold reduce_axis0. by rewrite list_lookup_imap, Hr.
Qed.


Lemma reduce_axis0_ext (f g : list Qc -> Qc) (p : Matrix) (ps : list Matrix) :
  (forall xs, length xs = length ps -> f xs = g xs) ->
  reduce_axis0 f p ps = reduce_axis0 g p ps.
Proof.
  intros H. unfold reduce_axis0. apply imap_ext. intros r row _.
  apply imap_ext. intros c x _. apply H. by rewrite length_map.
Qed.

Lemma profile_row (a : Matrix) (N C r : nat) :
  profile a = replicate N C -> (r < N)%nat ->
  exists row, a !! r = Some row /\ length row = C.
Proof.
  intros Hp Hr. unfold profile in Hp.
  assert (length a = N) as Hlen.
  { by rewrite <- (length_map length a), Hp, length_replicate. }
  destruct (lookup_lt_is_Some_2 a r) as [row Hrow]; [lia|].
  exists row. split; [done|].
  assert (map length a !! r = Some (length row)) as H1.
  { change (map length a) with (length <$> a).
    by rewrite list_lookup_fmap, Hrow. }
  rewrite Hp in H1. apply lookup_replicate in H1 as [H1 _]. done.
Qed.

Lemma stackable_same_profile (ps : list Matrix) (prof : list nat) :
  (forall p, p ∈ ps -> profile p = prof) -> stackable ps = true.
Proof.
  destruct ps as [|p rest]; [done|]. intros H. cbn.
  apply Is_true_eq_true, forallb_True, Forall_forall. intros q Hq.
  unfold same_shape. apply bool_decide_pack.
  rewrite (H p) by (by left). rewrite (H q) by (by right). done.
Qed.

(** *** The prediction loop *)

Lemma skipped_tabular (name : string) (X_raw bert : option Matrix) :
  name <> "EmbeddingNet" -> name <> "BERTFusion" ->
  skipped name X_raw bert = false.
Proof. intros H1 H2. unfold skipped. by rewrite !decide_False. Qed.

Lemma add_log_add_log (w : World) (l k : list (level * string)) :
  add_log (add_log w l) k = add_log w (l ++ k).
Proof. unfold add_log. cbn. by rewrite app_assoc. Qed.

Lemma add_log_nil (w : World) : add_log w [] = w.
Proof. unfold add_log. rewrite app_nil_r. by destruct w. Qed.

Lemma filter_kept_cons (X_raw bert : option Matrix) (m : Model)
    (name : string) (rest : list (Model * string)) :
  List.filter (kept X_raw bert) ((m, name) :: rest)
  = if skipped name X_raw bert then List.filter (kept X_raw bert) rest
    else (m, name) :: List.filter (kept X_raw bert) rest.
Proof. cbn. unfold kept at 1. cbn. by destruct (skipped name X_raw bert). Qed.

Lemma filter_skipped_cons (X_raw bert : option Matrix) (m : Model)
    (name : string) (rest : list (Model * string)) :
  List.filter (fun m => skipped (snd m) X_raw bert) ((m, name) :: rest)
  = if skipped name X_raw bert
    then (m, name) :: List.filter (fun m => skipped (snd m) X_raw bert) rest
    else List.filter (fun m => skipped (snd m) X_raw bert) rest.
Proof. reflexivity. Qed.

(** What [_collect_predictions] does with a list of members: each member
    whose input is missing is skipped with a warning, and the probabilities
    of the others are appended in order. *)
Lemma collect_loop_run (X : Matrix) (X_raw bert : option Matrix) :
  forall (mems : list (Model * string)) (acc : list Matrix) (w : World),
    raw_columns_ok (mems.*2) X_raw ->
    collect_loop mems X X_raw bert acc w
    = (add_log w (map skip_warning
                      (List.filter (fun m => skipped (snd m) X_raw bert) mems)),
       Ok (acc ++ map (member_probs X X_raw bert)
                      (List.filter (kept X_raw bert) mems))).
Proof.
  induction mems as [|[m name] rest IH]; intros acc w Hok.
  - cbn. unfold ret. by rewrite add_log_nil, app_nil_r.
  - assert (raw_columns_ok (rest.*2) X_raw) as Hrest.
    { intros Hin. apply Hok. cbn. by right. }
    rewrite filter_kept_cons, filter_skipped_cons.
    cbn [collect_loop].
    destruct (decide (name = "EmbeddingNet")) as [->|Hemb].
    + destruct X_raw as [r|].
      * destruct (Hok ltac:(cbn; by left) r eq_refl) as [cols Hcols].
        assert (member_probs X (Some r) bert (m, "EmbeddingNet")
                = predict m (EmbeddingIn cols)) as Hp.
        { unfold member_probs, member_input, emb_columns. cbn [fst snd].
          rewrite decide_True by done. by rewrite Hcols. }
        unfold bind at 1, lift. rewrite Hcols, (IH _ _ Hrest).
        change (skipped "EmbeddingNet" (Some r) bert) with false.
        cbn [map]. by rewrite Hp, <- app_assoc.
      * change (skipped "EmbeddingNet" None bert) with true.
        unfold bind at 1, logger. rewrite (IH _ _ Hrest). f_equal.
        unfold add_log. cbn. by rewrite <- app_assoc.
    + destruct (decide (name = "BERTFusion")) as [->|Hbert].
      * destruct bert as [b|].
        -- change (skipped "BERTFusion" X_raw (Some b)) with false.
           rewrite (IH _ _ Hrest). cbn [map]. by rewrite <- app_assoc.
        -- change (skipped "BERTFusion" X_raw None) with true.
           unfold bind at 1, logger. rewrite (IH _ _ Hrest). f_equal.
           unfold add_log. cbn. by rewrite <- app_assoc.
      * rewrite (skipped_tabular _ _ _ Hemb Hbert), (IH _ _ Hrest).
        assert (member_probs X X_raw bert (m, name)
                = predict m (TabularIn X)) as Hp.
        { unfold member_probs, member_input. cbn [fst snd].
          by rewrite !decide_False. }
        cbn [map]. by rewrite Hp, <- app_assoc.
Qed.

Lemma zip_names (ms : list Model) (ns : list string) :
  length ms = length ns -> (zip ms ns).*2 = ns.
Proof. intros H. apply snd_zip. lia. Qed.

Lemma zip_names_subset (ms : list Model) (ns : list string) (n : string) :
  n ∈ (zip ms ns).*2 -> n ∈ ns.
Proof.
  revert ns. induction ms as [|m ms IH]; intros [|x ns]; cbn;
    try (intros H; inversion H; fail).
  intros H. apply elem_of_cons in H as [->|H]; [by left|right; by apply IH].
Qed.

Lemma collect_predictions_run (X : Matrix) (X_raw bert : option Matrix)
    (w : World) :
  raw_columns_ok (model_names (self w)) X_raw ->
  _collect_predictions X X_raw bert w
  = (add_log w (map skip_warning
                    (List.filter (fun m => skipped (snd m) X_raw bert)
                                 (members (self w)))),
     Ok (map (member_probs X X_raw bert)
             (List.filter (kept X_raw bert) (members (self w))))).
Proof.
  intros Hok. unfold _collect_predictions, bind, get_self.
  rewrite collect_loop_run; [done|].
  intros Hin. apply Hok. by apply zip_names_subset in Hin.
Qed.




(** *** Aggregation *)


Lemma row_entries (P : Matrix) (r : nat) (row : list Qc) :
  P !! r = Some row ->
  map (fun c => entry P r c) (seq 0 (length row)) = row.
Proof.
  intros Hr. rewrite <- (map_id row) at 2.
  apply map_seq_positions_entry. intros c x Hc. unfold entry.
  rewrite (nth_lookup_Some _ _ _ _ Hr). by apply nth_lookup_Some.
Qed.

Lemma normalize_nonzero (ws : list Qc) :
  qsum ws <> 0%Qc ->
  normalize ws = Finite (map (fun x => (x / qsum ws)%Qc) ws)
  /\ qsum (map (fun x => (x / qsum ws)%Qc) ws) = 1%Qc.
Proof.
  intros Hs. split.
  - unfold normalize. destruct ws as [|x ws]; [by destruct Hs|].
    by rewrite decide_False.
  - unfold Qcdiv. rewrite (qsum_scale (/ qsum ws) ws).
    by apply Qcmult_inv_r.
Qed.

Lemma one_nonzero : 1%Qc <> 0%Qc.
Proof. intros H. apply (f_equal this) in H. discriminate H. Qed.





(** The entries of the mean, summed along a row on which every stacked
    array holds a distribution over [C] classes. *)
Lemma mean_row_sum (ps : list Matrix) (r C : nat) :
  ps <> [] ->
  (forall a, a ∈ ps ->
     exists arow, a !! r = Some arow /\ length arow = C /\ qsum arow = 1%Qc) ->
  qsum (map (fun c =>
               (qsum (map (fun a => entry a r c) ps)
                / of_nat (length (map (fun a => entry a r c) ps)))%Qc)
            (seq 0 C))
  = 1%Qc.
Proof.
  intros Hne Hrows.
  erewrite map_ext; [|intros c; rewrite length_map; reflexivity].
  unfold Qcdiv.
  rewrite <- (map_map (fun c => qsum (map (fun a => entry a r c) ps))
                      (fun x => (x * / of_nat (length ps))%Qc)).
  rewrite qsum_scale.
  rewrite (qsum_exchange (fun a c => entry a r c) ps (seq 0 C)).
  erewrite (map_ext_in _ (fun _ => 1%Qc)).
  - rewrite qsum_const_one. apply Qcmult_inv_r. apply of_nat_pos.
    destruct ps; [done|cbn; lia].
  - intros a Ha. apply list_elem_of_In in Ha.
    destruct (Hrows a Ha) as (arow & Harow & HaC & Hone).
    by rewrite <- HaC, (row_entries a r arow Harow).
Qed.

(** The mean of a stack that is not empty, of arrays that hold one
    distribution over the classes in each of their [N] rows. *)
Lemma np_mean_axis0_distributions (ps : list Matrix) (N : nat) :
  ps <> [] ->
  (forall p, p ∈ ps ->
     profile p = replicate N NUM_CLASSES
     /\ forall row, row ∈ p -> qsum row = 1%Qc) ->
  exists out,
    np_mean_axis0 ps = Ok (Arr out)
    /\ profile out = replicate N NUM_CLASSES
    /\ forall row, row ∈ out -> qsum row = 1%Qc.
Proof.
  intros Hne Hps. unfold np_mean_axis0.
  rewrite (stackable_same_profile ps (replicate N NUM_CLASSES))
    by (intros p Hp; by apply Hps).
  cbn [negb].
  destruct ps as [|p rest]; [done|].
  eexists. split; [reflexivity|]. split.
  { rewrite reduce_axis0_profile. apply Hps. by left. }
  intros row Hrow. apply list_elem_of_lookup in Hrow as [r Hr].
  assert (r < N)%nat as HrN.
  { apply lookup_lt_Some in Hr.
    assert (length (reduce_axis0
                      (fun xs => (qsum xs / of_nat (length xs))%Qc)
                      p (p :: rest)) = N) as <-; [|exact Hr].
    rewrite <- (length_map length). fold (profile (reduce_axis0
      (fun xs => (qsum xs / of_nat (length xs))%Qc) p (p :: rest))).
    rewrite reduce_axis0_profile, (proj1 (Hps p ltac:(by left))).
    apply length_replicate. }
  destruct (profile_row p N NUM_CLASSES r (proj1 (Hps p ltac:(by left))) HrN)
    as (prow & Hprow & HC).
  rewrite (reduce_axis0_row _ _ _ _ _ Hprow) in Hr.
  apply (inj Some) in Hr. subst row. rewrite HC.
  apply mean_row_sum; [done|].
  intros a Ha. destruct (Hps a Ha) as [Hpa Hrows].
  destruct (profile_row a N NUM_CLASSES r Hpa HrN) as (arow & Harow & HaC).
  exists arow. split; [done|]. split; [done|].
  apply Hrows. eapply list_elem_of_lookup_2; eauto.
Qed.

(** What the prediction loop returns, whenever it returns: the
    probabilities of the members that were not skipped, in order. *)
Lemma collect_loop_returns (X : Matrix) (X_raw bert : option Matrix) :
  forall (mems : list (Model * string)) (acc ps : list Matrix) (w w' : World),
    collect_loop mems X X_raw bert acc w = (w', Ok ps) ->
    ps = acc ++ map (member_probs X X_raw bert)
                    (List.filter (kept X_raw bert) mems).
Proof.
  induction mems as [|[m name] rest IH]; intros acc ps w w'.
  - cbn. unfold ret. intros [= _ <-]. by rewrite app_nil_r.
  - rewrite filter_kept_cons. cbn [collect_loop].
    destruct (decide (name = "EmbeddingNet")) as [->|Hemb].
    + destruct X_raw as [r|].
      * change (skipped "EmbeddingNet" (Some r) bert) with false.
        unfold bind at 1, lift.
        destruct (_split_for_embedding r) as [cols|e] eqn:Hcols;
          [|intros [= _ ?]; discriminate].
        intros H. rewrite (IH _ _ _ _ H). cbn [map].
        assert (member_probs X (Some r) bert (m, "EmbeddingNet")
                = predict m (EmbeddingIn cols)) as ->.
        { unfold member_probs, member_input, emb_columns. cbn [fst snd].
          rewrite decide_True by done. by rewrite Hcols. }
        by rewrite <- app_assoc.
      * change (skipped "EmbeddingNet" None bert) with true.
        unfold bind at 1, logger. apply IH.
    + destruct (decide (name = "BERTFusion")) as [->|Hbert].
      * destruct bert as [b|].
        -- change (skipped "BERTFusion" X_raw (Some b)) with false.
           intros H. rewrite (IH _ _ _ _ H). cbn [map].
           by rewrite <- app_assoc.
        -- change (skipped "BERTFusion" X_raw None) with true.
           unfold bind at 1, logger. apply IH.
      * rewrite (skipped_tabular _ _ _ Hemb Hbert).
        intros H. rewrite (IH _ _ _ _ H). cbn [map].
        assert (member_probs X X_raw bert (m, name)
                = predict m (TabularIn X)) as ->.
        { unfold member_probs, member_input. cbn [fst snd].
          by rewrite !decide_False. }
        by rewrite <- app_assoc.
Qed.

(** C6, as amended.  When at least one member of the roster is given its
    input, and every member that is given its input predicts an N x 3 array
    whose rows sum to 1, whatever [predict_ensemble] returns is an N x 3
    array whose every row sums to 1, whether or not other members were
    skipped; and it does return when the raw matrix, if one is given to a
    roster with the embedding member, has its ten columns. *)
Theorem predict_ensemble_rows_sum_to_one
    (w : World) (X : Matrix) (X_raw bert : option Matrix) (N : nat) :
  (exists m, m ∈ members (self w) /\ kept X_raw bert m = true) ->
  (forall m, m ∈ members (self w) -> kept X_raw bert m = true ->
     profile (member_probs X X_raw bert m) = replicate N NUM_CLASSES
     /\ forall row, row ∈ member_probs X X_raw bert m -> qsum row = 1%Qc) ->
  (raw_columns_ok (model_names (self w)) X_raw ->
   exists out, snd (predict_ensemble X X_raw bert w) = Ok (Arr out))
  /\ forall res,
       snd (predict_ensemble X X_raw bert w) = Ok res ->
       exists out,
         res = Arr out
         /\ profile out = replicate N NUM_CLASSES
         /\ forall row, row ∈ out -> qsum row = 1%Qc.
Proof.
  intros (m0 & Hm0 & Hkept0) Hdist.
  set (ps := map (member_probs X X_raw bert)
                 (List.filter (kept X_raw bert) (members (self w)))).
  assert (exists out,
            np_mean_axis0 ps = Ok (Arr out)
            /\ profile out = replicate N NUM_CLASSES
            /\ forall row, row ∈ out -> qsum row = 1%Qc)
    as (out & Hmean & Hprofile & Hrows).
  { apply np_mean_axis0_distributions.
    - assert (m0 ∈ List.filter (kept X_raw bert) (members (self w))) as Hin.
      { apply list_elem_of_In, filter_In. split; [|exact Hkept0].
        by apply list_elem_of_In. }
      subst ps. destruct (List.filter _ _); [inversion Hin|discriminate].
    - intros p Hp. subst ps.
      change (map (member_probs X X_raw bert)) with
        (fmap (M:=list) (member_probs X X_raw bert)) in Hp.
      apply list_elem_of_fmap in Hp as (m & -> & Hm).
      apply list_elem_of_In, filter_In in Hm as [Hm Hkept].
      apply Hdist; [by apply list_elem_of_In|exact Hkept]. }
  split.
  - intros Hok. exists out. unfold predict_ensemble, bind.
    rewrite (collect_predictions_run _ _ _ _ Hok). exact Hmean.
  - intros res Hres. unfold predict_ensemble, bind in Hres.
    destruct (_collect_predictions X X_raw bert w) as [w' [ps'|e]] eqn:Hrun;
      [|discriminate Hres].
    unfold _collect_predictions, bind, get_self in Hrun.
    apply collect_loop_returns in Hrun. cbn [app] in Hrun.
    fold (members (self w)) in Hrun. fold ps in Hrun. subst ps'.
    unfold lift in Hres. cbn [snd] in Hres.
    rewrite Hmean in Hres. injection Hres as <-.
    exists out. done.
Qed.

(** The mixed roster asked with the record alone: the embedding member and
    the fusion member are skipped, and the mean, over the one member that
    remains, is a 1 x 3 array whose row sums to 1. *)
Lemma predict_ensemble_rows_sum_to_one_witness :
  exists out,
    snd (predict_ensemble one_record None None mixed_roster) = Ok (Arr out)
    /\ profile out = [3%nat]
    /\ forall row, row ∈ out -> qsum row = 1%Qc.
Proof.
  destruct (predict_ensemble_rows_sum_to_one mixed_roster one_record None None
              1%nat) as [Hreturns Hrows].
  - eexists. split; [left|reflexivity].
  - intros m Hm Hkept. cbn in Hm.
    apply elem_of_cons in Hm as [->|Hm].
    { split; [reflexivity|].
      intros row Hrow. cbn in Hrow.
      apply list_elem_of_singleton in Hrow as ->.
      apply Qc_is_canon; reflexivity. }
    repeat (apply elem_of_cons in Hm as [->|Hm]; [discriminate Hkept|]).
    inversion Hm.
  - destruct Hreturns as [out Hout]; [intros _ r Hr; discriminate Hr|].
    destruct (Hrows (Arr out) Hout) as (out' & [= <-] & Hprofile & Hsum).
    exists out. done.
Defined.

(** C6, as stated, fails.  On a roster of the embedding member and the
    fusion member alone, each of which predicts rows that sum to 1 whatever
    it is given, [predict_ensemble] called with the record alone skips both
    members and returns the scalar [nan] that the mean of an empty stack
    is: no N x 3 array, and no row that sums to 1.  This is also the roster
    that [save_all] and [load_all] leave of a full training run. *)
Lemma predict_ensemble_all_skipped_is_nan :
  model_names (self skipped_roster) = ["EmbeddingNet"; "BERTFusion"]
  /\ (forall m inp row,
        m ∈ trained_models (self skipped_roster) ->
        row ∈ predict m inp -> qsum row = 1%Qc)
  /\ snd (predict_ensemble one_record None None skipped_roster) = Ok NaNScalar
  /\ model_names (self after_loading) = ["EmbeddingNet"; "BERTFusion"]
  /\ snd (predict_ensemble one_record None None after_loading) = Ok NaNScalar.
Proof.
  split; [reflexivity|]. split.
  { intros m inp row Hm Hrow. cbn in Hm.
    assert (forall r X, row ∈ map (fun _ : list Qc => r) X -> row = r) as Hconst.
    { intros r X0 H. change (map ?f X0) with (f <$> X0) in H.
      by apply list_elem_of_fmap in H as (? & -> & _). }
    assert (forall r (X0 : list Z), row ∈ map (fun _ : Z => r) X0 -> row = r)
      as HconstZ.
    { intros r X0 H. change (map ?f X0) with (f <$> X0) in H.
      by apply list_elem_of_fmap in H as (? & -> & _). }
    repeat (apply elem_of_cons in Hm as [->|Hm];
            [destruct inp as [X0|cols|X0 b]; cbn in Hrow;
             first [apply Hconst in Hrow | apply HconstZ in Hrow];
             subst row; apply Qc_is_canon; reflexivity|]).
    inversion Hm. }
  split; [reflexivity|]. split; vm_compute; reflexivity.
Qed.

(** *** Equal weights *)

(** The prediction loop only logs: the predictor and the file system are
    as before, and when it returns, it returns one array per member that
    was not skipped. *)
Lemma collect_loop_shape (X : Matrix) (X_raw bert : option Matrix) :
  forall (mems : list (Model * string)) (acc : list Matrix) (w w' : World)
         (r : result (list Matrix)),
    collect_loop mems X X_raw bert acc w = (w', r) ->
    self w' = self w /\ disk w' = disk w
    /\ forall ps, r = Ok ps ->
         length ps = (length acc
                      + length (List.filter (kept X_raw bert) mems))%nat.
Proof.
  induction mems as [|[m name] rest IH]; intros acc w w' r.
  - cbn. unfold ret. intros [= <- <-]. repeat split.
    intros ps [= <-]. lia.
  - rewrite filter_kept_cons. cbn [collect_loop].
    destruct (decide (name = "EmbeddingNet")) as [->|Hemb].
    + destruct X_raw as [raw|].
      * change (skipped "EmbeddingNet" (Some raw) bert) with false.
        unfold bind at 1, lift.
        destruct (_split_for_embedding raw) as [cols|e].
        -- intros H. destruct (IH _ _ _ _ H) as (Hs & Hd & Hl).
           repeat split; try done. intros ps Hps. rewrite (Hl ps Hps).
           rewrite length_app. cbn. lia.
        -- intros [= <- <-]. repeat split. intros ps Hps. discriminate Hps.
      * change (skipped "EmbeddingNet" None bert) with true.
        unfold bind at 1, logger.
        intros H. destruct (IH _ _ _ _ H) as (Hs & Hd & Hl). done.
    + destruct (decide (name = "BERTFusion")) as [->|Hbert].
      * destruct bert as [b|].
        -- change (skipped "BERTFusion" X_raw (Some b)) with false.
           intros H. destruct (IH _ _ _ _ H) as (Hs & Hd & Hl).
           repeat split; try done. intros ps Hps. rewrite (Hl ps Hps).
           rewrite length_app. cbn. lia.
        -- change (skipped "BERTFusion" X_raw None) with true.
           unfold bind at 1, logger.
           intros H. destruct (IH _ _ _ _ H) as (Hs & Hd & Hl). done.
      * rewrite (skipped_tabular _ _ _ Hemb Hbert).
        intros H. destruct (IH _ _ _ _ H) as (Hs & Hd & Hl).
        repeat split; try done. intros ps Hps. rewrite (Hl ps Hps).
        rewrite length_app. cbn. lia.
Qed.

Lemma take_all_equal (c : Qc) (k : nat) (ws : list Qc) :
  (forall a, a ∈ ws -> a = c) -> (k <= length ws)%nat ->
  take k ws = replicate k c.
Proof.
  revert ws. induction k as [|k IH]; intros ws Hall Hk; [done|].
  destruct ws as [|a ws]; [cbn in Hk; lia|].
  cbn. rewrite (Hall a) by (by left). f_equal. apply IH.
  - intros b Hb. apply Hall. by right.
  - cbn in Hk. lia.
Qed.

Lemma length_filter_le {A : Type} (f : A -> bool) (l : list A) :
  (length (List.filter f l) <= length l)%nat.
Proof.
  induction l as [|a l IH]; cbn; [lia|]. destruct (f a); cbn; lia.
Qed.

Lemma filter_nonempty {A : Type} (f : A -> bool) (l : list A) (a : A) :
  a ∈ l -> f a = true -> (0 < length (List.filter f l))%nat.
Proof.
  induction l as [|b l IH]; intros Ha Hf; [inversion Ha|].
  cbn. apply elem_of_cons in Ha as [<-|Ha].
  - rewrite Hf. cbn. lia.
  - destruct (f b); cbn; [lia|]. by apply IH.
Qed.

(** C5, as amended.  When every stored weight is the same non-zero number,
    every member has a stored weight, and at least one member is given its
    input, [predict_weighted_ensemble] leaves the same state and gives the
    same outcome as [predict_ensemble]: the same array, or the same
    exception. *)
Theorem equal_weights_weighted_is_mean
    (w : World) (X : Matrix) (X_raw bert : option Matrix) (c : Qc) :
  c <> 0%Qc ->
  (forall a, a ∈ individual_aucs (self w) -> a = c) ->
  (length (members (self w)) <= length (individual_aucs (self w)))%nat ->
  (exists m, m ∈ members (self w) /\ kept X_raw bert m = true) ->
  predict_weighted_ensemble X X_raw bert w = predict_ensemble X X_raw bert w.
Proof.
  intros Hc Hall Hlen (m0 & Hm0 & Hkept).
  unfold predict_weighted_ensemble, predict_ensemble, bind at 1 3.
  destruct (_collect_predictions X X_raw bert w) as [w' [ps|e]] eqn:Hrun;
    [|done].
  unfold _collect_predictions, bind, get_self in Hrun.
  destruct (collect_loop_shape _ _ _ _ _ _ _ _ Hrun) as (Hself & _ & Hshape).
  specialize (Hshape ps eq_refl). cbn [length] in Hshape.
  fold (members (self w)) in Hshape.
  pose proof (filter_nonempty _ _ _ Hm0 Hkept) as Hpos.
  pose proof (length_filter_le (kept X_raw bert) (members (self w))) as Hle.
  unfold bind, get_self. rewrite Hself.
  rewrite (take_all_equal c) by (done || lia).
  set (k := length ps) in *.
  assert (of_nat k <> 0%Qc) as Hk by (apply of_nat_pos; lia).
  assert (qsum (replicate k c) <> 0%Qc) as Hsum.
  { rewrite qsum_replicate. intros H0.
    apply Qcmult_integral in H0 as [H0|H0]; done. }
  destruct (normalize_nonzero _ Hsum) as [-> Hone].
  unfold lift, np_average_axis0, np_mean_axis0. f_equal.
  destruct (stackable ps); [|done]. cbn [negb].
  destruct ps as [|p rest] eqn:Eps; [cbn in k; lia|].
  cbn [weights_length]. rewrite length_map, length_replicate.
  rewrite bool_decide_true by done. cbn [negb].
  rewrite decide_False by (rewrite Hone; exact one_nonzero).
  do 2 f_equal. apply reduce_axis0_ext. intros xs Hxs.
  rewrite Hone, qsum_weighted_scaled, qsum_replicate.
  rewrite (qsum_const_weights c xs k) by exact Hxs.
  rewrite Hxs. change (length (p :: rest)) with k. unfold Qcdiv. field.
  repeat split; first [exact Hk | exact Hc | exact one_nonzero].
Qed.

Lemma equally_scored_hypotheses :
  Q2Qc 0.8 <> 0%Qc
  /\ (forall a, a ∈ individual_aucs (self equally_scored) -> a = Q2Qc 0.8)
  /\ (length (members (self equally_scored))
      <= length (individual_aucs (self equally_scored)))%nat
  /\ exists m, m ∈ members (self equally_scored) /\ kept None None m = true.
Proof.
  split.
  { intros H. apply (f_equal this) in H. vm_compute in H. discriminate H. }
  split.
  { intros a Ha. cbn in Ha.
    repeat (apply elem_of_cons in Ha as [->|Ha]; [reflexivity|]).
    inversion Ha. }
  split; [cbn; lia|].
  eexists. split; [left|reflexivity].
Qed.

(** Two members with the same validation AUC 0.8. *)
Lemma equal_weights_weighted_is_mean_witness :
  predict_weighted_ensemble one_record None None equally_scored
  = predict_ensemble one_record None None equally_scored.
Proof.
  destruct equally_scored_hypotheses as (Hc & Hall & Hlen & Hkept).
  exact (equal_weights_weighted_is_mean equally_scored one_record None None
           (Q2Qc 0.8) Hc Hall Hlen Hkept).
Defined.

(** C5, as stated, fails.  With one member whose stored AUC is 0 (all
    weights equal), the mean is the member's probabilities and the weighted
    average is an array of [nan]; with an empty roster the mean is the
    scalar [nan] and the weighted average raises [ZeroDivisionError]. *)
Lemma equal_weights_zero_or_empty_differ :
  ((forall a, a ∈ individual_aucs (self zero_scored) -> a = 0%Qc)
   /\ snd (predict_ensemble one_record None None zero_scored)
      = Ok (Arr [[Q2Qc 0.6; Q2Qc 0.3; Q2Qc 0.1]])
   /\ snd (predict_weighted_ensemble one_record None None zero_scored)
      = Ok NaNArr
   /\ predict_weighted_ensemble one_record None None zero_scored
      <> predict_ensemble one_record None None zero_scored)
  /\ (individual_aucs (self fresh) = []
      /\ snd (predict_ensemble one_record None None fresh) = Ok NaNScalar
      /\ snd (predict_weighted_ensemble one_record None None fresh)
         = Raise ZeroDivisionError
      /\ predict_weighted_ensemble one_record None None fresh
         <> predict_ensemble one_record None None fresh).
Proof.
  assert (snd (predict_ensemble one_record None None zero_scored)
          = Ok (Arr [[Q2Qc 0.6; Q2Qc 0.3; Q2Qc 0.1]])) as Hmean by qc_eq.
  assert (snd (predict_weighted_ensemble one_record None None zero_scored)
          = Ok NaNArr) as Hweighted by (vm_compute; reflexivity).
  assert (snd (predict_ensemble one_record None None fresh) = Ok NaNScalar)
    as Hmean0 by (vm_compute; reflexivity).
  assert (snd (predict_weighted_ensemble one_record None None fresh)
          = Raise ZeroDivisionError) as Hweighted0 by (vm_compute; reflexivity).
  split.
  - split.
    { intros a Ha. cbn in Ha. apply list_elem_of_singleton in Ha. exact Ha. }
    split; [exact Hmean|]. split; [exact Hweighted|].
    intros Heq. rewrite Heq, Hmean in Hweighted. discriminate Hweighted.
  - split; [reflexivity|]. split; [exact Hmean0|]. split; [exact Hweighted0|].
    intros Heq. rewrite Heq, Hmean0 in Hweighted0. discriminate Hweighted0.
Qed.

(** *** Missing inputs *)

(** C3, as amended.  A prediction call that omits the input of the
    embedding member or of the fusion member does not raise on that
    account: [_collect_predictions], through which [predict_ensemble],
    [predict_weighted_ensemble] and [evaluate_auc] get their predictions,
    logs one warning for each such member, skips it, and returns the
    probabilities of the remaining members in roster order;
    [predict_ensemble] then gives the mean of these. *)
Theorem missing_input_skips_member
    (w : World) (X : Matrix) (X_raw bert : option Matrix) :
  raw_columns_ok (model_names (self w)) X_raw ->
  let skipped_members :=
    List.filter (fun m => skipped (snd m) X_raw bert) (members (self w)) in
  let probs :=
    map (member_probs X X_raw bert)
        (List.filter (kept X_raw bert) (members (self w))) in
  _collect_predictions X X_raw bert w
  = (add_log w (map skip_warning skipped_members), Ok probs)
  /\ predict_ensemble X X_raw bert w
     = (add_log w (map skip_warning skipped_members), np_mean_axis0 probs)
  /\ (forall m, m ∈ members (self w) ->
        (snd m = "EmbeddingNet" /\ X_raw = None)
        \/ (snd m = "BERTFusion" /\ bert = None) ->
        m ∈ skipped_members /\ ~ m ∈ List.filter (kept X_raw bert)
                                         (members (self w))).
Proof.
  intros Hok skipped_members probs.
  pose proof (collect_predictions_run X X_raw bert w Hok) as Hrun.
  split; [exact Hrun|]. split.
  - unfold predict_ensemble, bind. rewrite Hrun. reflexivity.
  - intros [m name] Hm Hcase. cbn [snd] in Hcase.
    assert (skipped name X_raw bert = true) as Hs.
    { destruct Hcase as [[-> ->]|[-> ->]]; [reflexivity|].
      unfold skipped. rewrite decide_False by done.
      by rewrite decide_True. }
    split.
    + apply list_elem_of_In, filter_In. split; [by apply list_elem_of_In|].
      exact Hs.
    + intros Hin. apply list_elem_of_In, filter_In in Hin as [_ Hk].
      unfold kept in Hk. cbn [snd] in Hk. rewrite Hs in Hk. discriminate Hk.
Qed.

(** A roster with the embedding and fusion members, called with the
    scaled matrix alone. *)
Lemma missing_input_skips_member_witness :
  _collect_predictions one_record None None mixed_roster
  = (add_log mixed_roster
       [ (WARNING, "Skipping EmbeddingNet -- no raw features");
         (WARNING, "Skipping BERTFusion -- no BERT embeddings") ],
     Ok [[[Q2Qc 0.6; Q2Qc 0.3; Q2Qc 0.1]]]).
Proof.
  assert (raw_columns_ok (model_names (self mixed_roster)) None) as Hok.
  { intros _ r Hr. discriminate Hr. }
  exact (proj1 (missing_input_skips_member mixed_roster one_record None None
                  Hok)).
Defined.

(** C3, as stated, fails.  On a roster that holds the embedding member
    and the fusion member, [predict_ensemble], [predict_weighted_ensemble]
    and [evaluate_auc] called without the raw-integer matrix and without
    the auxiliary embeddings return a result computed from the remaining
    member; the omission is logged as two warnings. *)
Lemma missing_input_does_not_raise :
  "EmbeddingNet" ∈ model_names (self mixed_roster)
  /\ "BERTFusion" ∈ model_names (self mixed_roster)
  /\ snd (predict_ensemble one_record None None mixed_roster)
     = Ok (Arr [[Q2Qc 0.6; Q2Qc 0.3; Q2Qc 0.1]])
  /\ snd (predict_weighted_ensemble one_record None None mixed_roster)
     = Ok (Arr [[Q2Qc 0.6; Q2Qc 0.3; Q2Qc 0.1]])
  /\ (exists results,
        snd (evaluate_auc sample_to_categorical sample_score
               one_record [0] None None true mixed_roster) = Ok results)
  /\ log (fst (predict_ensemble one_record None None mixed_roster))
     = [ (WARNING, "Skipping EmbeddingNet -- no raw features");
         (WARNING, "Skipping BERTFusion -- no BERT embeddings") ].
Proof.
  split; [cbn; set_solver|]. split; [cbn; set_solver|].
  split; [qc_eq|]. split; [qc_eq|].
  split; [|reflexivity].
  destruct (evaluate_auc sample_to_categorical sample_score
              one_record [0] None None true mixed_roster)
    as [w' [results|e]] eqn:Hrun.
  - eexists. reflexivity.
  - vm_compute in Hrun. discriminate Hrun.
Qed.

(** *** Persistence *)

Lemma load_loop_frame (directory : string) :
  forall (names : list string) (w w' : World) (r : result unit),
    load_loop names directory w = (w', r) ->
    individual_aucs (self w') = individual_aucs (self w)
    /\ disk w' = disk w.
Proof.
  induction names as [|name rest IH]; intros w w' r.
  - cbn. unfold ret. by intros [= <- <-].
  - cbn [load_loop]. unfold bind at 1, read_file.
    destruct (disk w !! path_join directory name) as [a|]; [|apply IH].
    unfold bind at 1, lift.
    destruct (load_model a) as [model|e]; [|by intros [= <- <-]].
    unfold bind at 1 2 3, get_self, put_self, logger. cbn.
    intros H. apply IH in H as [Ha Hd]. cbn in Ha, Hd. done.
Qed.

Lemma load_loop_run (directory : string) :
  forall (names : list string) (w : World),
    artifacts_load (disk w) directory names ->
    load_loop names directory w
    = (mkWorld
         (mkEnsemble
            (trained_models (self w)
               ++ (found_members (disk w) directory names).*1)
            (model_names (self w)
               ++ (found_members (disk w) directory names).*2)
            (individual_aucs (self w)))
         (disk w)
         (log w ++ map (fun _ => (INFO, "Loaded model: %s"))
                       (found_members (disk w) directory names)),
       Ok tt).
Proof.
  induction names as [|name rest IH]; intros w Hload.
  - cbn. unfold ret. rewrite !app_nil_r. by destruct w as [[? ? ?] ? ?].
  - assert (artifacts_load (disk w) directory rest) as Hrest.
    { intros n a Hn. apply Hload. by right. }
    cbn [load_loop found_members omap list_omap].
    unfold bind at 1, read_file.
    destruct (disk w !! path_join directory name) as [a|] eqn:Ha.
    + destruct (Hload name a ltac:(by left) Ha) as [m ->].
      unfold bind, lift, get_self, put_self, logger. cbn [load_model].
      rewrite IH by exact Hrest. cbn.
      fold (found_members (disk w) directory rest).
      by rewrite <- !app_assoc.
    + fold (found_members (disk w) directory rest). by apply IH.
Qed.

Lemma found_members_names (d : gmap string artifact) (directory : string)
    (names : list string) :
  artifacts_load d directory names ->
  (found_members d directory names).*2
  = List.filter (on_disk d directory) names.
Proof.
  induction names as [|name rest IH]; intros Hload; [done|].
  assert (artifacts_load d directory rest) as Hrest.
  { intros n a Hn. apply Hload. by right. }
  cbn [found_members omap list_omap List.filter]. unfold on_disk at 1.
  destruct (d !! path_join directory name) as [a|] eqn:Ha.
  - destruct (Hload name a ltac:(by left) Ha) as [m ->].
    rewrite bool_decide_true by eauto. cbn. f_equal. by apply IH.
  - rewrite bool_decide_false by (intros [? ?]; done). by apply IH.
Qed.

(** C10.  When the score file is absent from the directory, [load_all]
    leaves [individual_aucs] as it was before the call and does not write
    to the file system; when the paths it finds hold saved models, it
    returns normally with [trained_models] and [model_names] reset to
    exactly the models found, in the order of [ALL_MODEL_NAMES].  So the
    stored scores can be stale: a predictor holding two scores that loads a
    directory with one saved model and no score file ends with one member
    and two scores. *)
Theorem load_all_keeps_scores_without_score_file :
  (forall (PROJECT_ROOT : string) (w : World) (directory : option string),
      let dir := directory_or_default PROJECT_ROOT directory in
      let w' := fst (load_all PROJECT_ROOT directory w) in
      disk w !! path_join dir "individual_aucs.npy" = None ->
      individual_aucs (self w') = individual_aucs (self w)
      /\ disk w' = disk w
      /\ (artifacts_load (disk w) dir ALL_MODEL_NAMES ->
            snd (load_all PROJECT_ROOT directory w) = Ok tt
            /\ trained_models (self w')
               = (found_members (disk w) dir ALL_MODEL_NAMES).*1
            /\ model_names (self w')
               = (found_members (disk w) dir ALL_MODEL_NAMES).*2
            /\ model_names (self w')
               = List.filter (on_disk (disk w) dir) ALL_MODEL_NAMES))
  /\ (disk stale_world !! path_join "/models" "individual_aucs.npy" = None
      /\ model_names (self (fst (load_all "/app" (Some "/models") stale_world)))
         = ["EmbeddingNet"]
      /\ individual_aucs
           (self (fst (load_all "/app" (Some "/models") stale_world)))
         = individual_aucs (self stale_world)
      /\ length (individual_aucs
                   (self (fst (load_all "/app" (Some "/models") stale_world))))
         <> length (model_names
                      (self (fst (load_all "/app" (Some "/models")
                                    stale_world))))).
Proof.
  split.
  - intros ROOT w directory dir w' Habsent.
    assert (forall w0 r,
              load_loop ALL_MODEL_NAMES dir
                (mkWorld (mkEnsemble [] [] (individual_aucs (self w)))
                         (disk w) (log w)) = (w0, r) ->
              load_all ROOT directory w
              = (w0, match r with Ok _ => Ok tt | Raise e => Raise e end))
      as Hstep.
    { intros w0 r Hloop. unfold load_all. fold dir.
      unfold bind at 1, get_self. unfold bind at 1, put_self.
      unfold bind at 1. rewrite Hloop.
      destruct (load_loop_frame _ _ _ _ _ Hloop) as [_ Hd].
      cbn [disk] in Hd.
      destruct r as [[]|e]; [|done].
      unfold bind, read_file. rewrite Hd, Habsent. reflexivity. }
    set (w_reset := mkWorld (mkEnsemble [] [] (individual_aucs (self w)))
                            (disk w) (log w)) in *.
    assert (individual_aucs (self w') = individual_aucs (self w)
            /\ disk w' = disk w) as [Ha Hd].
    { destruct (load_loop ALL_MODEL_NAMES dir w_reset) as [w0 r] eqn:Hloop.
      subst w'. rewrite (Hstep w0 r eq_refl). cbn [fst].
      exact (load_loop_frame _ _ _ _ _ Hloop). }
    split; [exact Ha|]. split; [exact Hd|].
    intros Hload.
    pose proof (load_loop_run dir ALL_MODEL_NAMES w_reset Hload) as Hloop.
    subst w'. rewrite (Hstep _ _ Hloop).
    cbn [fst snd self trained_models model_names app].
    split; [reflexivity|]. split; [reflexivity|]. split; [reflexivity|].
    exact (found_members_names _ _ _ Hload).
  - split; [vm_compute; reflexivity|].
    split; [vm_compute; reflexivity|].
    split; [qc_eq|]. vm_compute. lia.
Qed.

Lemma stale_world_loads :
  artifacts_load (disk stale_world) "/models" ALL_MODEL_NAMES.
Proof.
  intros name a Hname. unfold ALL_MODEL_NAMES in Hname.
  repeat (apply elem_of_cons in Hname as [->|Hname];
          [vm_compute; intros [= <-]; eauto|]).
  inversion Hname.
Qed.

(** The stale predictor, through the general statement. *)
Lemma load_all_keeps_scores_without_score_file_witness :
  individual_aucs (self (fst (load_all "/app" (Some "/models") stale_world)))
  = [Q2Qc 0.9; Q2Qc 0.7]
  /\ model_names (self (fst (load_all "/app" (Some "/models") stale_world)))
     = List.filter (on_disk (disk stale_world) "/models") ALL_MODEL_NAMES.
Proof.
  destruct (proj1 load_all_keeps_scores_without_score_file
              "/app" stale_world (Some "/models") eq_refl)
    as (Hscores & _ & Hroster).
  split; [exact Hscores|].
  exact (proj2 (proj2 (proj2 (Hroster stale_world_loads)))).
Defined.

(** *** Saving and reloading a trained roster *)

Example tabular_member_name :
  str_replace "build_shallow_wide" "build_" "" = "shallow_wide".
Proof. reflexivity. Qed.

(** [train_all] keeps one name and one score per model. *)
Lemma sample_training_well_formed :
  snd (sample_train_all fresh) = Ok tt /\ well_formed (self after_training).
Proof. split; [vm_compute; reflexivity|]. split; vm_compute; reflexivity. Qed.

(** C2 fails on the code.  A full training run names its ten tabular
    members after their factory functions ("shallow_wide", ...); [save_all]
    writes every member under its name, together with the twelve scores;
    [load_all] looks for the names of [ALL_MODEL_NAMES] ("ShallowWide",
    ...) and so finds only "EmbeddingNet" and "BERTFusion", although no
    artifact is missing from the directory, and it reloads all twelve
    scores. *)
Theorem save_all_load_all_loses_tabular_members :
  snd (sample_train_all fresh) = Ok tt
  /\ snd (save_all "/app" None after_training) = Ok tt
  /\ snd (load_all "/app" None after_saving) = Ok tt
  /\ model_names (self after_training)
     = [ "shallow_wide"; "deep_narrow"; "pyramid_bn"; "diamond_selu";
         "residual_block"; "swish_layernorm"; "mixed_activation";
         "heavy_regularization"; "attention_net"; "very_deep";
         "EmbeddingNet"; "BERTFusion" ]
  /\ forallb (on_disk (disk after_saving) "/app/saved_models/ensemble")
             (model_names (self after_training)) = true
  /\ model_names (self after_loading) = ["EmbeddingNet"; "BERTFusion"]
  /\ length (trained_models (self after_loading)) = 2%nat
  /\ individual_aucs (self after_loading)
     = individual_aucs (self after_training)
  /\ length (individual_aucs (self after_loading)) = 12%nat.
Proof.
  split; [vm_compute; reflexivity|].
  split; [vm_compute; reflexivity|].
  split; [vm_compute; reflexivity|].
  split; [vm_compute; reflexivity|].
  split; [vm_compute; reflexivity|].
  split; [vm_compute; reflexivity|].
  split; [vm_compute; reflexivity|].
  split; [qc_eq|].
  vm_compute; reflexivity.
Qed.

End EnsembleProofs.

(** * Further properties of the ensemble aggregator *)

Module EnsembleExtras.

Import Config Architectures Ensemble Spec Roster EnsembleProofs.

(** *** Training *)

Section Training.

Context (build : string -> Model).
Context (keras_fit :
  string -> Model -> ModelInput -> list Z -> ModelInput -> list Z ->
  nat -> nat -> Model).
Context (to_categorical : list Z -> nat -> result Matrix).
Context (roc_auc_score : Matrix -> ndarray -> result Qc).

Local Abbreviation train_tabular := (train_tabular build keras_fit roc_auc_score).
Local Abbreviation train_embedding :=
  (train_embedding build keras_fit roc_auc_score).
Local Abbreviation train_fusion := (train_fusion build keras_fit roc_auc_score).
Local Abbreviation train_all :=
  (train_all build keras_fit to_categorical roc_auc_score).

Lemma extends_refl (w w' : World) :
  self w' = self w -> disk w' = disk w -> extends w w' [].
Proof.
  intros Hs Hd. exists [], []. rewrite !app_nil_r, Hs.
  by destruct (self w).
Qed.

Lemma extends_trans (w1 w2 w3 : World) (ns1 ns2 : list string) :
  extends w1 w2 ns1 -> extends w2 w3 ns2 -> extends w1 w3 (ns1 ++ ns2).
Proof.
  intros (ms1 & a1 & Hm1 & Ha1 & Hs1 & Hd1) (ms2 & a2 & Hm2 & Ha2 & Hs2 & Hd2).
  exists (ms1 ++ ms2), (a1 ++ a2).
  rewrite !length_app, Hm1, Hm2, Ha1, Ha2.
  split; [done|]. split; [done|]. split; [|congruence].
  rewrite Hs2, Hs1. cbn. by rewrite <- !app_assoc.
Qed.

Lemma append_member_extends (model : Model) (name : string) (auc : Qc)
    (w : World) :
  exists w', append_member model name auc w = (w', Ok tt)
             /\ extends w w' [name] /\ log w' = log w.
Proof.
  eexists. split; [reflexivity|]. split; [|reflexivity].
  exists [model], [auc]. done.
Qed.

Lemma train_tabular_extends X_train y_train X_val y_val y_onehot epochs batch :
  forall (builders : list string) (w w' : World),
    train_tabular builders X_train y_train X_val y_val y_onehot epochs batch w
    = (w', Ok tt) ->
    extends w w' (map (fun b => str_replace b "build_" "") builders).
Proof.
  induction builders as [|b rest IH]; intros w w'.
  - cbn. unfold ret. intros [= <-]. by apply extends_refl.
  - cbn [Ensemble.train_tabular map].
    unfold bind at 1, logger at 1. unfold bind at 1, lift.
    destruct (roc_auc_score y_onehot _) as [auc|e]; [|intros [= _ ?]; discriminate].
    unfold bind at 1, logger at 1. unfold bind at 1.
    match goal with
    | |- context [append_member ?m ?n ?a ?w0] =>
        destruct (append_member_extends m n a w0) as (w1 & -> & Hext & _)
    end.
    intros Hrest. apply IH in Hrest.
    change (?x :: ?l) with ([x] ++ l).
    eapply extends_trans; [|exact Hrest].
    destruct Hext as (ms & aucs & Hm & Ha & Hs & Hd).
    exists ms, aucs. done.
Qed.

Lemma train_embedding_extends y_train y_val X_train_raw X_val_raw y_onehot
    epochs batch (w w' : World) :
  train_embedding y_train y_val X_train_raw X_val_raw y_onehot epochs batch w
  = (w', Ok tt) ->
  extends w w' (if both X_train_raw X_val_raw then ["EmbeddingNet"] else []).
Proof.
  unfold Ensemble.train_embedding.
  destruct X_train_raw as [rt|], X_val_raw as [rv|]; cbn [both];
    try (unfold logger; intros [= <-]; by apply extends_refl).
  unfold bind at 1, logger at 1. unfold bind at 1, lift.
  destruct (_split_for_embedding rt) as [ct|e]; [|intros [= _ ?]; discriminate].
  unfold bind at 1.
  destruct (_split_for_embedding rv) as [cv|e]; [|intros [= _ ?]; discriminate].
  unfold bind at 1.
  destruct (roc_auc_score y_onehot _) as [auc|e]; [|intros [= _ ?]; discriminate].
  unfold bind at 1, logger at 1.
  match goal with
  | |- context [append_member ?m ?n ?a ?w0] =>
      destruct (append_member_extends m n a w0) as (w1 & -> & Hext & _)
  end.
  intros [= <-]. destruct Hext as (ms & aucs & Hm & Ha & Hs & Hd).
  exists ms, aucs. done.
Qed.

Lemma train_fusion_extends X_train y_train X_val y_val bert_train bert_val
    y_onehot epochs batch (w w' : World) :
  train_fusion X_train y_train X_val y_val bert_train bert_val y_onehot
               epochs batch w = (w', Ok tt) ->
  extends w w' (if both bert_train bert_val then ["BERTFusion"] else []).
Proof.
  unfold Ensemble.train_fusion.
  destruct bert_train as [bt|], bert_val as [bv|]; cbn [both];
    try (unfold logger; intros [= <-]; by apply extends_refl).
  unfold bind at 1, logger at 1. unfold bind at 1, lift.
  destruct (roc_auc_score y_onehot _) as [auc|e]; [|intros [= _ ?]; discriminate].
  unfold bind at 1, logger at 1.
  match goal with
  | |- context [append_member ?m ?n ?a ?w0] =>
      destruct (append_member_extends m n a w0) as (w1 & -> & Hext & _)
  end.
  intros [= <-]. destruct Hext as (ms & aucs & Hm & Ha & Hs & Hd).
  exists ms, aucs. done.
Qed.

Lemma tabular_names_listed :
  tabular_names
  = [ "shallow_wide"; "deep_narrow"; "pyramid_bn"; "diamond_selu";
      "residual_block"; "swish_layernorm"; "mixed_activation";
      "heavy_regularization"; "attention_net"; "very_deep" ].
Proof. reflexivity. Qed.

Lemma train_all_extends
    X_train y_train X_val y_val X_train_raw X_val_raw bert_train bert_val
    epochs batch_size (w w' : World) :
  train_all X_train y_train X_val y_val X_train_raw X_val_raw
            bert_train bert_val epochs batch_size w = (w', Ok tt) ->
  extends w w' (trained_names X_train_raw X_val_raw bert_train bert_val).
Proof.
  unfold Ensemble.train_all. unfold bind at 1, lift.
  destruct (to_categorical y_val NUM_CLASSES) as [y_onehot|e];
    [|intros [= _ ?]; discriminate].
  unfold bind at 1.
  destruct (train_tabular _ _ _ _ _ _ _ _ w) as [w1 [[]|e]] eqn:H1;
    [|intros [= _ ?]; discriminate].
  unfold bind at 1.
  destruct (train_embedding _ _ _ _ _ _ _ w1) as [w2 [[]|e]] eqn:H2;
    [|intros [= _ ?]; discriminate].
  unfold bind at 1.
  destruct (train_fusion _ _ _ _ _ _ _ _ _ w2) as [w3 [[]|e]] eqn:H3;
    [|intros [= _ ?]; discriminate].
  unfold logger. intros [= <-].
  apply train_tabular_extends in H1. apply train_embedding_extends in H2.
  apply train_fusion_extends in H3.
  pose proof (extends_trans _ _ _ _ _ H1 (extends_trans _ _ _ _ _ H2 H3))
    as (ms & aucs & Hm & Ha & Hs & Hd).
  exists ms, aucs. done.
Qed.


End Training.


(** The sample training call, by the embeddings it is given. *)
Local Abbreviation sample_call bert_train bert_val :=
  (train_all sample_build sample_fit sample_to_categorical sample_score
     [replicate 10 1%Qc; replicate 10 (Q2Qc (-1))] [0; 2]
     one_record [0]
     (Some [replicate 10 (Q2Qc 3); replicate 10 1%Qc])
     (Some [replicate 10 (Q2Qc 3)])
     bert_train bert_val 200%nat 64%nat).

Lemma sample_call_returns :
  exists w',
    sample_call (Some [[1%Qc; 0%Qc]; [0%Qc; 1%Qc]]) (Some [[1%Qc; 0%Qc]]) fresh
    = (w', Ok tt).
Proof.
  assert (snd (sample_call (Some [[1%Qc; 0%Qc]; [0%Qc; 1%Qc]])
                           (Some [[1%Qc; 0%Qc]]) fresh) = Ok tt) as Hs
    by (vm_compute; reflexivity).
  destruct (sample_call _ _ fresh) as [w' r]. cbn [snd] in Hs. subst r.
  by exists w'.
Qed.


(** *** The columns of the embedding member *)

Lemma mapM_result_ok {A B : Type} (f : A -> result B) (g : A -> B)
    (l : list A) :
  (forall a, a ∈ l -> f a = Ok (g a)) -> mapM_result f l = Ok (map g l).
Proof.
  induction l as [|a l IH]; intros H; [done|].
  cbn. rewrite (H a) by (by left). cbn.
  rewrite IH by (intros b Hb; apply H; by right). done.
Qed.

Lemma mapM_result_raise {A B : Type} (f : A -> result B) (e : exn)
    (l : list A) (a : A) :
  a ∈ l -> f a = Raise e ->
  (forall b e', f b = Raise e' -> e' = e) ->
  mapM_result f l = Raise e.
Proof.
  intros Ha Hfa Hall. induction l as [|b l IH]; [inversion Ha|].
  cbn. destruct (f b) as [y|e'] eqn:Hb.
  - cbn. apply elem_of_cons in Ha as [->|Ha]; [congruence|].
    by rewrite (IH Ha).
  - cbn. f_equal. by eapply Hall.
Qed.

Lemma column_at_ok (X : Matrix) (i : nat) :
  (forall row, row ∈ X -> (i < length row)%nat) ->
  column_at X i = Ok (map (fun row => nth i row 0%Qc) X).
Proof.
  induction X as [|row X IH]; intros H; [done|].
  cbn. destruct (lookup_lt_is_Some_2 row i (H row ltac:(by left))) as [x Hx].
  rewrite Hx, IH by (intros r Hr; apply H; by right). cbn.
  by rewrite (nth_lookup_Some _ _ _ _ Hx).
Qed.

Lemma column_at_raises (X : Matrix) (i : nat) (e : exn) :
  column_at X i = Raise e -> e = IndexError.
Proof.
  induction X as [|row X IH]; [discriminate|].
  cbn. destruct (row !! i); [|by intros [= <-]].
  destruct (column_at X i) as [xs|e']; [discriminate|].
  cbn. intros [= <-]. by apply IH.
Qed.

Lemma column_at_short (X : Matrix) (i : nat) (row : list Qc) :
  row ∈ X -> (length row <= i)%nat -> column_at X i = Raise IndexError.
Proof.
  intros Hrow Hlen. induction X as [|r X IH]; [inversion Hrow|].
  cbn. destruct (r !! i) as [x|] eqn:Hx; [|done].
  apply elem_of_cons in Hrow as [->|Hrow].
  - apply lookup_lt_Some in Hx. lia.
  - by rewrite (IH Hrow).
Qed.

Lemma to_int32_range (q : Qc) : - 2 ^ 31 <= to_int32 q < 2 ^ 31.
Proof. unfold to_int32. case_bool_decide; lia. Qed.

(** X3.  [_split_for_embedding] transposes.  For a matrix of finite numbers
    that has at least one row: when every row has at least [NUM_FEATURES]
    = 10 entries it returns exactly 10 columns, column [j] holding entry
    [j] of every row, in row order, cast to a 32-bit integer (truncated
    towards zero, and [-2^31] when the integer part does not fit); entries
    beyond the tenth are dropped.  When some row has fewer than 10 entries
    it raises [IndexError]. *)
Theorem split_for_embedding_transposes (X : Matrix) :
  (X <> [] ->
   (forall row, row ∈ X -> (NUM_FEATURES <= length row)%nat) ->
   exists cols,
     _split_for_embedding X = Ok cols
     /\ cols = map (fun j => map (fun row => to_int32 (nth j row 0%Qc)) X)
                   (seq 0 NUM_FEATURES)
     /\ Forall (Forall (fun z => - 2 ^ 31 <= z < 2 ^ 31)) cols)
  /\ (forall row, row ∈ X -> (length row < NUM_FEATURES)%nat ->
        _split_for_embedding X = Raise IndexError).
Proof.
  split.
  - intros _ Hrows. eexists. split; [|split; [reflexivity|]].
    + unfold _split_for_embedding. apply mapM_result_ok.
      intros j Hj. apply elem_of_seq in Hj.
      rewrite column_at_ok.
      * cbn. by rewrite map_map.
      * intros row Hrow. specialize (Hrows row Hrow). lia.
    + apply Forall_forall. intros col Hcol.
      change (map ?f (seq 0 NUM_FEATURES)) with (f <$> seq 0 NUM_FEATURES) in Hcol.
      apply list_elem_of_fmap in Hcol as (j & -> & _).
      apply Forall_forall. intros z Hz.
      change (map ?f X) with (f <$> X) in Hz.
      apply list_elem_of_fmap in Hz as (row & -> & _).
      apply to_int32_range.
  - intros row Hrow Hshort. unfold _split_for_embedding.
    apply (mapM_result_raise _ _ _ (length row)).
    + apply elem_of_seq. lia.
    + by rewrite (column_at_short X (length row) row Hrow).
    + intros j e' Hj. destruct (column_at X j) as [c|e] eqn:Hc; [discriminate|].
      cbn in Hj. injection Hj as <-. by eapply column_at_raises.
Qed.

(** One record of ten features, three of which are 2.7, -2.7 and
    3000000000, and one record of nine. *)
Lemma split_for_embedding_transposes_witness :
  _split_for_embedding
    [Q2Qc 2.7 :: Q2Qc (-2.7) :: Q2Qc 3000000000 :: replicate 7 1%Qc]
  = Ok ([2] :: [-2] :: [-2147483648] :: replicate 7 [1])
  /\ _split_for_embedding [replicate 9 1%Qc] = Raise IndexError.
Proof.
  destruct (split_for_embedding_transposes
              [Q2Qc 2.7 :: Q2Qc (-2.7) :: Q2Qc 3000000000 :: replicate 7 1%Qc])
    as [Hok _].
  destruct (split_for_embedding_transposes [replicate 9 1%Qc]) as [_ Hshort].
  split.
  - destruct Hok as (cols & Hrun & Hcols & _).
    + discriminate.
    + intros row Hrow. apply list_elem_of_singleton in Hrow as ->. cbn. lia.
    + rewrite Hrun, Hcols. vm_compute. reflexivity.
  - apply (Hshort (replicate 9 1%Qc)); [by left|cbn; lia].
Defined.

(** *** What a prediction call changes *)

Lemma only_warned_refl (w : World) : only_warned w w.
Proof.
  split; [done|]. split; [done|]. exists []. by rewrite app_nil_r.
Qed.

Lemma only_warned_step (w w' : World) (msg : string) :
  only_warned (mkWorld (self w) (disk w) (log w ++ [(WARNING, msg)])) w' ->
  only_warned w w'.
Proof.
  intros (Hs & Hd & msgs & Hl & Hall). cbn in Hs, Hd, Hl.
  split; [done|]. split; [done|].
  exists ((WARNING, msg) :: msgs). split.
  - rewrite Hl, <- app_assoc. done.
  - by constructor.
Qed.

Lemma collect_loop_only_warns (X : Matrix) (X_raw bert : option Matrix) :
  forall (mems : list (Model * string)) (acc : list Matrix) (w w' : World)
         (r : result (list Matrix)),
    collect_loop mems X X_raw bert acc w = (w', r) -> only_warned w w'.
Proof.
  induction mems as [|[m name] rest IH]; intros acc w w' r.
  - cbn. unfold ret. intros [= <- _]. apply only_warned_refl.
  - cbn [collect_loop].
    destruct (decide (name = "EmbeddingNet")) as [->|Hemb].
    + destruct X_raw as [raw|].
      * unfold bind at 1, lift.
        destruct (_split_for_embedding raw) as [cols|e]; [apply IH|].
        intros [= <- _]. apply only_warned_refl.
      * unfold bind at 1, logger. intros H. apply IH in H.
        by eapply only_warned_step.
    + destruct (decide (name = "BERTFusion")) as [->|Hbert]; [|apply IH].
      destruct bert as [b|]; [apply IH|].
      unfold bind at 1, logger. intros H. apply IH in H.
      by eapply only_warned_step.
Qed.

(** X4.  A prediction call never changes the predictor or the file
    system: after [_collect_predictions], [predict_ensemble] or
    [predict_weighted_ensemble], whether the call returned or raised, the
    models, names and scores and every file are as before, and the log is
    the log before followed by warnings only. *)
Theorem prediction_only_warns
    (w : World) (X : Matrix) (X_raw bert : option Matrix) :
  only_warned w (fst (_collect_predictions X X_raw bert w))
  /\ only_warned w (fst (predict_ensemble X X_raw bert w))
  /\ only_warned w (fst (predict_weighted_ensemble X X_raw bert w)).
Proof.
  assert (only_warned w (fst (_collect_predictions X X_raw bert w))) as Hc.
  { destruct (_collect_predictions X X_raw bert w) as [w' r] eqn:Hrun.
    unfold _collect_predictions, bind, get_self in Hrun.
    exact (collect_loop_only_warns _ _ _ _ _ _ _ _ Hrun). }
  split; [exact Hc|].
  unfold predict_ensemble, predict_weighted_ensemble, bind.
  destruct (_collect_predictions X X_raw bert w) as [w' [ps|e]]; done.
Qed.

(** *** Scores and members out of step *)

(** X5.  When the predictor holds fewer scores than there are members
    that predict for a request, [predict_weighted_ensemble] raises
    [ValueError]; [predict_ensemble], which does not read the scores, gives
    the same outcome whatever they are. *)
Theorem predict_weighted_ensemble_needs_scores
    (w : World) (X : Matrix) (X_raw bert : option Matrix) :
  raw_columns_ok (model_names (self w)) X_raw ->
  (length (individual_aucs (self w))
   < length (List.filter (kept X_raw bert) (members (self w))))%nat ->
  snd (predict_weighted_ensemble X X_raw bert w) = Raise ValueError
  /\ forall aucs,
       snd (predict_ensemble X X_raw bert
              (mkWorld (mkEnsemble (trained_models (self w))
                                   (model_names (self w)) aucs)
                       (disk w) (log w)))
       = snd (predict_ensemble X X_raw bert w).
Proof.
  intros Hok Hshort. split.
  - unfold predict_weighted_ensemble, bind.
    rewrite (collect_predictions_run _ _ _ _ Hok).
    unfold get_self. cbn [self add_log snd].
    set (ps := map _ (List.filter _ _)).
    assert (length ps = length (List.filter (kept X_raw bert) (members (self w))))
      as Hps by (subst ps; by rewrite length_map).
    rewrite take_ge by lia.
    unfold lift, np_average_axis0. cbn [snd].
    destruct (stackable ps); [|done]. cbn [negb].
    destruct ps as [|p rest] eqn:Eps; [cbn in Hps; lia|].
    assert (weights_length (normalize (individual_aucs (self w)))
            = length (individual_aucs (self w))) as Hw.
    { unfold normalize. destruct (individual_aucs (self w)) as [|a l]; [done|].
      case_decide; cbn; [done|]. by rewrite length_map. }
    rewrite bool_decide_false by (rewrite Hw; lia). done.
  - intros aucs. unfold predict_ensemble, bind.
    rewrite !collect_predictions_run by exact Hok. done.
Qed.

(** A predictor that lost its scores: two members, no score. *)
Lemma predict_weighted_ensemble_needs_scores_witness :
  snd (predict_weighted_ensemble one_record None None
         (mkWorld (mkEnsemble (trained_models (self scenario))
                              (model_names (self scenario)) [])
                  ∅ []))
  = Raise ValueError.
Proof.
  refine (proj1 (predict_weighted_ensemble_needs_scores
                   (mkWorld (mkEnsemble (trained_models (self scenario))
                                        (model_names (self scenario)) [])
                            ∅ [])
                   one_record None None _ _)).
  - intros _ r Hr. discriminate Hr.
  - vm_compute. lia.
Defined.





(** *** Saving, then loading *)

Lemma append_cancel_l (p a b : string) : p +:+ a = p +:+ b -> a = b.
Proof.
  induction p as [|c p IH]; cbn; [done|]. intros [= H]. by apply IH.
Qed.

(** Under one directory, two relative names give two paths. *)
Lemma path_join_inj (d a b : string) :
  starts_with "/" a = false -> starts_with "/" b = false ->
  path_join d a = path_join d b -> a = b.
Proof.
  intros Ha Hb. unfold path_join. rewrite Ha, Hb.
  destruct (bool_decide (d = "") || ends_with_slash d); intros H.
  - by apply append_cancel_l in H.
  - apply append_cancel_l in H. by injection H.
Qed.

Lemma save_loop_run (directory : string) :
  forall (mems : list (Model * string)) (w : World),
    save_loop mems directory w
    = (mkWorld (self w) (saved_disk (disk w) directory mems)
         (log w ++ map (fun _ => (INFO, "Saved model: %s")) mems),
       Ok tt).
Proof.
  induction mems as [|[m name] rest IH]; intros w.
  - cbn. unfold ret. rewrite app_nil_r. by destruct w.
  - cbn [save_loop]. unfold bind, write_file, logger. rewrite IH. cbn.
    by rewrite <- app_assoc.
Qed.

Lemma save_all_run (ROOT : string) (directory : option string) (w : World) :
  save_all ROOT directory w
  = (mkWorld (self w)
       (<[path_join (directory_or_default ROOT directory) "individual_aucs.npy"
          := NpyFile (individual_aucs (self w))]>
          (saved_disk (disk w) (directory_or_default ROOT directory)
                      (members (self w))))
       (log w ++ map (fun _ => (INFO, "Saved model: %s")) (members (self w))),
     Ok tt).
Proof.
  unfold save_all, bind, get_self. rewrite save_loop_run. reflexivity.
Qed.

Lemma saved_disk_snoc (d : gmap string artifact) (directory : string)
    (mems : list (Model * string)) (m : Model) (name : string) :
  saved_disk d directory (mems ++ [(m, name)])
  = <[path_join directory name := SavedModel m]> (saved_disk d directory mems).
Proof. unfold saved_disk. by rewrite foldl_app. Qed.

Lemma saved_as_snoc (mems : list (Model * string)) (m : Model)
    (name n : string) :
  saved_as (mems ++ [(m, name)]) n
  = if decide (name = n) then Some m else saved_as mems n.
Proof. unfold saved_as. by rewrite foldl_app. Qed.

(** What a path under the directory holds after the models were saved. *)
Lemma saved_disk_lookup (d : gmap string artifact) (directory n : string) :
  starts_with "/" n = false ->
  forall mems : list (Model * string),
    (forall m, m ∈ mems -> starts_with "/" (snd m) = false) ->
    saved_disk d directory mems !! path_join directory n
    = match saved_as mems n with
      | Some m => Some (SavedModel m)
      | None => d !! path_join directory n
      end.
Proof.
  intros Hn mems. induction mems as [|[m name] mems IH] using rev_ind;
    intros Hrel; [done|].
  rewrite saved_disk_snoc, saved_as_snoc.
  assert (starts_with "/" name = false) as Hname.
  { apply (Hrel (m, name)). apply elem_of_app. right. by left. }
  destruct (decide (name = n)) as [->|Hne].
  - by rewrite lookup_insert_eq.
  - rewrite lookup_insert_ne.
    + apply IH. intros x Hx. apply Hrel. apply elem_of_app. by left.
    + intros Heq. apply Hne. by eapply path_join_inj.
Qed.

Lemma saved_disk_artifact (d : gmap string artifact) (directory k : string)
    (a : artifact) :
  forall mems : list (Model * string),
    saved_disk d directory mems !! k = Some a ->
    (exists m, a = SavedModel m) \/ d !! k = Some a.
Proof.
  induction mems as [|[m name] mems IH] using rev_ind; [by right|].
  rewrite saved_disk_snoc. intros H.
  destruct (decide (path_join directory name = k)) as [<-|Hne].
  - rewrite lookup_insert_eq in H. injection H as <-. left. eauto.
  - rewrite lookup_insert_ne in H by done. by apply IH.
Qed.

Lemma saved_as_names (mems : list (Model * string)) (n : string) :
  (saved_as mems n = None <-> n ∉ mems.*2)
  /\ (forall m, saved_as mems n = Some m -> (m, n) ∈ mems).
Proof.
  induction mems as [|[m name] mems [IHn IHs]] using rev_ind.
  - split; [split; [intros _ H; inversion H|done]|discriminate].
  - rewrite fmap_app. cbn [fmap list_fmap snd]. split.
    + rewrite saved_as_snoc, not_elem_of_app.
      destruct (decide (name = n)) as [->|Hne].
      * split; [discriminate|]. intros [_ H]. destruct H. by left.
      * rewrite IHn. split; [|tauto]. intros H. split; [done|].
        intros Hin. apply list_elem_of_singleton in Hin. congruence.
    + intros m'. rewrite saved_as_snoc.
      destruct (decide (name = n)) as [->|Hne].
      * intros [= <-]. apply elem_of_app. right. by left.
      * intros H. apply elem_of_app. left. by apply IHs.
Qed.

(** What [load_all] does on a directory whose model paths hold saved
    models. *)
Lemma load_all_run (ROOT : string) (directory : option string) (w : World) :
  let dir := directory_or_default ROOT directory in
  let found := found_members (disk w) dir ALL_MODEL_NAMES in
  let loaded aucs :=
    mkWorld (mkEnsemble (found.*1) (found.*2) aucs) (disk w)
            (log w ++ map (fun _ => (INFO, "Loaded model: %s")) found) in
  artifacts_load (disk w) dir ALL_MODEL_NAMES ->
  load_all ROOT directory w
  = match disk w !! path_join dir "individual_aucs.npy" with
    | None => (loaded (individual_aucs (self w)), Ok tt)
    | Some (NpyFile aucs) => (loaded aucs, Ok tt)
    | Some (SavedModel _) => (loaded (individual_aucs (self w)), Raise OSError)
    end.
Proof.
  intros dir found loaded Hload.
  unfold load_all. fold dir.
  unfold bind at 1, get_self. unfold bind at 1, put_self. unfold bind at 1.
  rewrite load_loop_run by exact Hload.
  cbn [self disk log trained_models model_names individual_aucs app].
  fold found. unfold bind at 1, read_file. cbn [disk].
  destruct (disk w !! path_join dir "individual_aucs.npy") as [[m|aucs]|];
    reflexivity.
Qed.

Lemma model_names_relative :
  forall n, n ∈ ALL_MODEL_NAMES ->
            starts_with "/" n = false /\ n <> "individual_aucs.npy".
Proof.
  intros n Hn. unfold ALL_MODEL_NAMES in Hn.
  repeat (apply elem_of_cons in Hn as [->|Hn]; [by split|]).
  inversion Hn.
Qed.

Lemma score_path_apart (directory n : string) :
  n ∈ ALL_MODEL_NAMES ->
  path_join directory "individual_aucs.npy" <> path_join directory n.
Proof.
  intros Hn Heq. destruct (model_names_relative n Hn) as [Hrel Hne].
  apply Hne. symmetry. by eapply path_join_inj.
Qed.

Lemma artifacts_load_after_save (ROOT : string) (directory : option string)
    (w : World) :
  artifacts_load (disk w) (directory_or_default ROOT directory) ALL_MODEL_NAMES ->
  artifacts_load (disk (fst (save_all ROOT directory w)))
                 (directory_or_default ROOT directory) ALL_MODEL_NAMES.
Proof.
  intros Hload n a Hn. rewrite save_all_run. cbn [fst disk].
  rewrite lookup_insert_ne by (by apply score_path_apart).
  intros Ha. apply saved_disk_artifact in Ha as [Hm|Ha]; [done|].
  by eapply Hload.
Qed.

(** X7.  The scores survive a save and a load: when the model paths of
    the directory that were there before hold saved models, [load_all]
    after [save_all] on the same directory returns normally and
    [individual_aucs] is the list that was saved, whatever the names of
    the members. *)
Theorem save_all_load_all_restores_scores
    (ROOT : string) (directory : option string) (w : World) :
  artifacts_load (disk w) (directory_or_default ROOT directory) ALL_MODEL_NAMES ->
  snd (load_all ROOT directory (fst (save_all ROOT directory w))) = Ok tt
  /\ individual_aucs
       (self (fst (load_all ROOT directory (fst (save_all ROOT directory w)))))
     = individual_aucs (self w).
Proof.
  intros Hload.
  rewrite (load_all_run ROOT directory _
             (artifacts_load_after_save ROOT directory w Hload)).
  rewrite save_all_run. cbn [fst disk]. rewrite lookup_insert_eq. done.
Qed.

(** The scenario saved to and loaded from a directory of its own. *)
Lemma save_all_load_all_restores_scores_witness :
  individual_aucs
    (self (fst (load_all "/app" (Some "/models")
                  (fst (save_all "/app" (Some "/models") scenario)))))
  = [Q2Qc 0.9; Q2Qc 0.7].
Proof.
  refine (proj2 (save_all_load_all_restores_scores "/app" (Some "/models")
                   scenario _)).
  intros n a _ Ha. discriminate Ha.
Defined.

(** The saved models [load_all] finds after [save_all], when no other
    member was in the directory before. *)
Lemma found_after_save (ROOT : string) (directory : option string) (w : World) :
  let dir := directory_or_default ROOT directory in
  (forall m, m ∈ members (self w) -> starts_with "/" (snd m) = false) ->
  (forall n, n ∈ ALL_MODEL_NAMES -> n ∉ (members (self w)).*2 ->
             disk w !! path_join dir n = None) ->
  forall names, names ⊆ ALL_MODEL_NAMES ->
    found_members (disk (fst (save_all ROOT directory w))) dir names
    = omap (fun n => (fun m => (m, n)) <$> saved_as (members (self w)) n) names.
Proof.
  intros dir Hrel Hfresh names. rewrite save_all_run. cbn [fst disk]. fold dir.
  induction names as [|n names IH]; intros Hsub; [done|].
  assert (n ∈ ALL_MODEL_NAMES) as Hn by (apply Hsub; by left).
  cbn [found_members omap list_omap].
  rewrite lookup_insert_ne by (by apply score_path_apart).
  rewrite saved_disk_lookup by
    (first [exact (proj1 (model_names_relative n Hn)) | exact Hrel]).
  fold (found_members
          (<[path_join dir "individual_aucs.npy"
             := NpyFile (individual_aucs (self w))]>
             (saved_disk (disk w) dir (members (self w)))) dir names).
  rewrite IH by (intros x Hx; apply Hsub; by right).
  destruct (saved_as (members (self w)) n) as [m|] eqn:Hs; [done|].
  rewrite Hfresh; [done|exact Hn|]. by apply saved_as_names.
Qed.

Lemma omap_names (mems : list (Model * string)) (names : list string) :
  (omap (fun n => (fun m => (m, n)) <$> saved_as mems n) names).*2
  = List.filter (fun n => bool_decide (n ∈ mems.*2)) names.
Proof.
  induction names as [|n names IH]; [done|].
  cbn [omap list_omap List.filter].
  destruct (saved_as mems n) as [m|] eqn:Hs.
  - rewrite bool_decide_true.
    + cbn. f_equal. exact IH.
    + apply (saved_as_names mems n) in Hs.
      apply list_elem_of_fmap. exists (m, n). done.
  - rewrite bool_decide_false by (by apply saved_as_names). exact IH.
Qed.

Lemma artifacts_load_after_fresh_save (ROOT : string)
    (directory : option string) (w : World) :
  let dir := directory_or_default ROOT directory in
  (forall m, m ∈ members (self w) -> starts_with "/" (snd m) = false) ->
  (forall n, n ∈ ALL_MODEL_NAMES -> n ∉ (members (self w)).*2 ->
             disk w !! path_join dir n = None) ->
  artifacts_load (disk (fst (save_all ROOT directory w))) dir ALL_MODEL_NAMES.
Proof.
  intros dir Hrel Hfresh n a Hn. rewrite save_all_run. cbn [fst disk]. fold dir.
  rewrite lookup_insert_ne by (by apply score_path_apart).
  rewrite saved_disk_lookup by
    (first [exact (proj1 (model_names_relative n Hn)) | exact Hrel]).
  destruct (saved_as (members (self w)) n) as [m|] eqn:Hs.
  - intros [= <-]. eauto.
  - rewrite Hfresh; [discriminate|exact Hn|]. by apply saved_as_names.
Qed.

(** [load_all] after [save_all] on a directory that held no other member. *)
Lemma save_all_load_all_run (ROOT : string) (directory : option string)
    (w : World) :
  let dir := directory_or_default ROOT directory in
  let found :=
    omap (fun n => (fun m => (m, n)) <$> saved_as (members (self w)) n)
         ALL_MODEL_NAMES in
  (forall m, m ∈ members (self w) -> starts_with "/" (snd m) = false) ->
  (forall n, n ∈ ALL_MODEL_NAMES -> n ∉ (members (self w)).*2 ->
             disk w !! path_join dir n = None) ->
  snd (load_all ROOT directory (fst (save_all ROOT directory w))) = Ok tt
  /\ self (fst (load_all ROOT directory (fst (save_all ROOT directory w))))
     = mkEnsemble (found.*1) (found.*2) (individual_aucs (self w)).
Proof.
  intros dir found Hrel Hfresh.
  rewrite (load_all_run ROOT directory _
             (artifacts_load_after_fresh_save ROOT directory w Hrel Hfresh)).
  rewrite (found_after_save ROOT directory w Hrel Hfresh ALL_MODEL_NAMES)
    by done.
  fold found. rewrite save_all_run. cbn [fst disk]. fold dir.
  rewrite lookup_insert_eq. done.
Qed.

Lemma saved_as_cons_other (m : Model) (x y : string)
    (rest : list (Model * string)) :
  x <> y -> saved_as ((m, x) :: rest) y = saved_as rest y.
Proof. intros Hne. unfold saved_as. cbn. by rewrite decide_False. Qed.

Lemma saved_as_cons_last (m : Model) (x : string)
    (rest : list (Model * string)) :
  x ∉ rest.*2 -> saved_as ((m, x) :: rest) x = Some m.
Proof.
  intros Hout. unfold saved_as. cbn. rewrite decide_True by done.
  induction rest as [|[m' y] rest IH] using rev_ind; [done|].
  rewrite fmap_app in Hout. apply not_elem_of_app in Hout as [Hrest Hy].
  rewrite foldl_app. cbn. rewrite decide_False.
  - by apply IH.
  - intros ->. apply Hy. by left.
Qed.

Lemma list_omap_ext_in {A B : Type} (f g : A -> option B) (l : list A) :
  (forall a, a ∈ l -> f a = g a) -> omap f l = omap g l.
Proof.
  induction l as [|a l IH]; intros H; [done|].
  cbn. rewrite (H a) by (by left).
  rewrite IH by (intros b Hb; apply H; by right). done.
Qed.

(** A roster whose names are picked in order from a list without
    repetitions is found again, member by member, along that list. *)
Lemma found_along_sublist (names all : list string) :
  sublist names all -> NoDup all ->
  forall ms : list Model,
    length ms = length names ->
    omap (fun n => (fun m => (m, n)) <$> saved_as (zip ms names) n) all
    = zip ms names.
Proof.
  induction 1 as [|x names all Hsub IH|x names all Hsub IH];
    intros Hnd ms Hlen.
  - by destruct ms.
  - apply NoDup_cons in Hnd as [Hx Hnd].
    destruct ms as [|m ms]; [discriminate|]. injection Hlen as Hlen.
    assert (x ∉ (zip ms names).*2) as Hout.
    { intros Hin. apply zip_names_subset in Hin. apply Hx.
      eapply elem_of_sublist; eauto. }
    cbn [zip zip_with omap list_omap].
    change (zip_with pair ms names) with (zip ms names).
    rewrite (saved_as_cons_last m x _ Hout).
    cbn [fmap option_fmap option_map]. f_equal.
    etransitivity; [|exact (IH Hnd ms Hlen)].
    apply list_omap_ext_in. intros y Hy.
    rewrite saved_as_cons_other; [done|]. intros ->. done.
  - apply NoDup_cons in Hnd as [Hx Hnd].
    cbn [omap list_omap].
    assert (saved_as (zip ms names) x = None) as ->.
    { apply saved_as_names. intros Hin. apply zip_names_subset in Hin.
      apply Hx. eapply elem_of_sublist; eauto. }
    cbn. by apply IH.
Qed.

Lemma model_names_distinct : NoDup ALL_MODEL_NAMES.
Proof. refine (bool_decide_unpack _ _). vm_compute. exact I. Qed.

(** X8.  A roster whose names are some of [ALL_MODEL_NAMES], in that
    order (as every roster [load_all] builds), survives a save and a load:
    when the directory held no saved model of any other member,
    [load_all] after [save_all] returns normally and leaves the same
    models, names and scores. *)
Theorem save_all_load_all_restores_roster
    (ROOT : string) (directory : option string) (w : World) :
  length (trained_models (self w)) = length (model_names (self w)) ->
  sublist (model_names (self w)) ALL_MODEL_NAMES ->
  (forall n, n ∈ ALL_MODEL_NAMES -> n ∉ model_names (self w) ->
     disk w !! path_join (directory_or_default ROOT directory) n = None) ->
  snd (load_all ROOT directory (fst (save_all ROOT directory w))) = Ok tt
  /\ self (fst (load_all ROOT directory (fst (save_all ROOT directory w))))
     = self w.
Proof.
  intros Hlen Hsub Hfresh.
  assert ((members (self w)).*2 = model_names (self w)) as Hnames
    by (by apply zip_names).
  destruct (save_all_load_all_run ROOT directory w) as [Hok Hself].
  - intros [m n] Hm. cbn.
    apply (model_names_relative n). eapply elem_of_sublist; [|exact Hsub].
    rewrite <- Hnames. apply list_elem_of_fmap. exists (m, n). done.
  - intros n Hn Hout. apply Hfresh; [exact Hn|]. by rewrite <- Hnames.
  - split; [exact Hok|]. rewrite Hself. unfold members.
    rewrite (found_along_sublist _ _ Hsub model_names_distinct _ Hlen).
    rewrite fst_zip, snd_zip by lia. by destruct (self w).
Qed.

(** A roster of the embedding and fusion members, saved to and loaded
    from an empty file system. *)
Lemma save_all_load_all_restores_roster_witness :
  model_names
    (self (fst (load_all "/app" None
                  (fst (save_all "/app" None
                          (mkWorld
                             (mkEnsemble
                                [ const_model [Q2Qc 0.2; Q2Qc 0.5; Q2Qc 0.3];
                                  const_model [Q2Qc 0.1; Q2Qc 0.1; Q2Qc 0.8] ]
                                [ "EmbeddingNet"; "BERTFusion" ]
                                [ Q2Qc 0.7; Q2Qc 0.8 ])
                             ∅ []))))))
  = [ "EmbeddingNet"; "BERTFusion" ].
Proof.
  refine (f_equal model_names
            (proj2 (save_all_load_all_restores_roster "/app" None
                      (mkWorld
                         (mkEnsemble
                            [ const_model [Q2Qc 0.2; Q2Qc 0.5; Q2Qc 0.3];
                              const_model [Q2Qc 0.1; Q2Qc 0.1; Q2Qc 0.8] ]
                            [ "EmbeddingNet"; "BERTFusion" ]
                            [ Q2Qc 0.7; Q2Qc 0.8 ])
                         ∅ []) _ _ _))).
  - reflexivity.
  - cbn. unfold ALL_MODEL_NAMES.
    do 10 apply sublist_cons. apply sublist_skip. apply sublist_skip.
    apply sublist_nil.
  - intros n _ _. apply lookup_empty.
Defined.

Section TrainSaveLoad.

Context (build : string -> Model).
Context (keras_fit :
  string -> Model -> ModelInput -> list Z -> ModelInput -> list Z ->
  nat -> nat -> Model).
Context (to_categorical : list Z -> nat -> result Matrix).
Context (roc_auc_score : Matrix -> ndarray -> result Qc).

Lemma trained_names_relative (b1 b2 : bool) (n : string) :
  n ∈ tabular_names ++ (if b1 then ["EmbeddingNet"] else [])
        ++ (if b2 then ["BERTFusion"] else []) ->
  starts_with "/" n = false.
Proof.
  rewrite tabular_names_listed. intros Hn.
  destruct b1, b2; cbn [app] in Hn;
    repeat (apply elem_of_cons in Hn as [->|Hn]; [reflexivity|]);
    inversion Hn.
Qed.

Lemma trained_names_reloaded (b1 b2 : bool) :
  List.filter
    (fun n => bool_decide
                (n ∈ tabular_names ++ (if b1 then ["EmbeddingNet"] else [])
                       ++ (if b2 then ["BERTFusion"] else [])))
    ALL_MODEL_NAMES
  = (if b1 then ["EmbeddingNet"] else []) ++ (if b2 then ["BERTFusion"] else []).
Proof. destruct b1, b2; vm_compute; reflexivity. Qed.

(** X9.  After any training run of a fresh predictor, a save and a load
    on a directory that held no saved member bring back only the members
    whose training name is also a name of [ALL_MODEL_NAMES]: the reloaded
    roster is "EmbeddingNet" (when it was trained) and "BERTFusion" (when
    it was trained), the ten tabular members are not reloaded, and the
    score list is reloaded whole, ten entries longer than the roster. *)
Theorem train_save_load_keeps_only_listed_names
    X_train y_train X_val y_val X_train_raw X_val_raw bert_train bert_val
    epochs batch_size (ROOT : string) (directory : option string)
    (w0 w1 : World) :
  self w0 = init ->
  (forall n, n ∈ ALL_MODEL_NAMES ->
     disk w0 !! path_join (directory_or_default ROOT directory) n = None) ->
  train_all build keras_fit to_categorical roc_auc_score
            X_train y_train X_val y_val X_train_raw X_val_raw
            bert_train bert_val epochs batch_size w0 = (w1, Ok tt) ->
  let reloaded :=
    self (fst (load_all ROOT directory (fst (save_all ROOT directory w1)))) in
  snd (load_all ROOT directory (fst (save_all ROOT directory w1))) = Ok tt
  /\ model_names reloaded
     = (if both X_train_raw X_val_raw then ["EmbeddingNet"] else [])
       ++ (if both bert_train bert_val then ["BERTFusion"] else [])
  /\ length (trained_models reloaded) = length (model_names reloaded)
  /\ individual_aucs reloaded = individual_aucs (self w1)
  /\ length (individual_aucs reloaded)
     = (10 + length (model_names reloaded))%nat.
Proof.
  intros Hinit Hfresh Hrun reloaded.
  apply train_all_extends in Hrun as (ms & aucs & Hm & Ha & Hs & Hd).
  rewrite Hinit in Hs. cbn [init trained_models model_names individual_aucs app]
    in Hs.
  assert ((members (self w1)).*2
          = trained_names X_train_raw X_val_raw bert_train bert_val) as Hnames.
  { unfold members. rewrite Hs. cbn [trained_models model_names].
    by apply zip_names. }
  destruct (save_all_load_all_run ROOT directory w1) as [Hok Hself].
  - intros [m n] Hm'. cbn [snd].
    apply (trained_names_relative (both X_train_raw X_val_raw)
                                  (both bert_train bert_val)).
    fold (trained_names X_train_raw X_val_raw bert_train bert_val).
    rewrite <- Hnames. apply list_elem_of_fmap. exists (m, n). done.
  - intros n Hn _. rewrite Hd. by apply Hfresh.
  - subst reloaded. rewrite Hself.
    cbn [trained_models model_names individual_aucs].
    set (found := omap _ ALL_MODEL_NAMES).
    assert (length (found.*1) = length (found.*2)) as Hlen
      by (by rewrite !length_fmap).
    assert (found.*2
            = (if both X_train_raw X_val_raw then ["EmbeddingNet"] else [])
              ++ (if both bert_train bert_val then ["BERTFusion"] else []))
      as Hfound.
    { subst found. rewrite omap_names, Hnames. unfold trained_names.
      apply trained_names_reloaded. }
    rewrite Hlen, Hfound.
    split; [exact Hok|]. split; [reflexivity|]. split; [reflexivity|].
    split; [reflexivity|].
    rewrite Hs. cbn [individual_aucs]. rewrite Ha. unfold trained_names.
    rewrite !length_app, tabular_names_listed. cbn [length].
    destruct (both X_train_raw X_val_raw), (both bert_train bert_val);
      reflexivity.
Qed.

End TrainSaveLoad.

(** The sample training run, saved and reloaded. *)
Lemma train_save_load_keeps_only_listed_names_witness :
  exists w1,
    sample_call (Some [[1%Qc; 0%Qc]; [0%Qc; 1%Qc]]) (Some [[1%Qc; 0%Qc]]) fresh
    = (w1, Ok tt)
    /\ model_names
         (self (fst (load_all "/app" None (fst (save_all "/app" None w1)))))
       = ["EmbeddingNet"; "BERTFusion"].
Proof.
  destruct sample_call_returns as [w1 Hrun]. exists w1.
  split; [exact Hrun|].
  refine (proj1 (proj2 (train_save_load_keeps_only_listed_names
                          _ _ _ _ _ _ _ _ _ _ _ _ _ _ "/app" None fresh w1
                          eq_refl _ Hrun))).
  intros n _. apply lookup_empty.
Defined.
End EnsembleExtras.

(** * Further properties of the data partitioner *)

Module PreprocessingExtras.

Import Config Preprocessing Spec PreprocessingProofs EnsembleProofs.

(** *** Loading and encoding *)

Lemma encode_columns_present (maps : list (string * gmap string Z)) :
  forall (df df' : DataFrame),
    encode_columns maps df = Ok df' ->
    forall c, c ∈ maps.*1 -> is_Some (df_columns df !! c).
Proof.
  induction maps as [|[col mapping] rest IH]; intros df df' Hrun c Hc;
    [inversion Hc|].
  cbn [encode_columns] in Hrun. unfold getitem in Hrun.
  destruct (df_columns df !! col) as [v|] eqn:Hv; [|discriminate].
  cbn [rbind] in Hrun. cbn in Hc.
  apply elem_of_cons in Hc as [->|Hc]; [eauto|].
  destruct (decide (col = c)) as [->|Hne]; [eauto|].
  specialize (IH _ _ Hrun c Hc). cbn in IH.
  by rewrite lookup_insert_ne in IH.
Qed.

Lemma encode_columns_raises (maps : list (string * gmap string Z)) :
  forall (df : DataFrame) (e : exn),
    encode_columns maps df = Raise e -> e = KeyError.
Proof.
  induction maps as [|[col mapping] rest IH]; intros df e; [discriminate|].
  cbn [encode_columns]. unfold getitem.
  destruct (df_columns df !! col) as [v|]; cbn [rbind]; [apply IH|].
  by intros [= <-].
Qed.

(** What a normal return of [load_and_encode] says of the two frames. *)
Lemma load_and_encode_inv (read_csv : string -> result DataFrame)
    (self : DataPipeline) (df_raw df_encoded : DataFrame) :
  load_and_encode read_csv self = Ok (df_raw, df_encoded) ->
  read_csv (csv_path self) = Ok df_raw
  /\ df_index df_encoded = df_index df_raw
  /\ (forall col mapping, (col, mapping) ∈ encoding_table ->
        exists raw_col,
          df_columns df_raw !! col = Some raw_col
          /\ df_columns df_encoded !! col = Some (series_map mapping raw_col))
  /\ (forall col, col ∉ encoding_table.*1 ->
        df_columns df_encoded !! col = df_columns df_raw !! col).
Proof.
  unfold load_and_encode.
  destruct (read_csv (csv_path self)) as [raw|e]; [|discriminate].
  cbn [rbind].
  destruct (encode_columns CATEGORY_MAPS raw) as [df1|e] eqn:Henc;
    [|discriminate].
  cbn [rbind]. unfold getitem.
  destruct (df_columns df1 !! TARGET_COLUMN) as [t|] eqn:Ht; [|discriminate].
  cbn [rbind]. intros [= <- <-]. split; [done|].
  pose proof category_columns_distinct as Hnd.
  apply NoDup_cons in Hnd as [Htarget Hnd].
  destruct (encode_columns_spec CATEGORY_MAPS raw Hnd
              (encode_columns_present _ _ _ Henc))
    as (df1' & Hrun & Hidx & Hin & Hout).
  rewrite Henc in Hrun. injection Hrun as <-.
  rewrite (Hout _ Htarget) in Ht.
  split; [exact Hidx|]. split.
  - intros col mapping Hc. apply elem_of_cons in Hc as [Heq|Hc].
    + inversion Heq; subst col mapping. exists t. split; [done|].
      cbn. by rewrite lookup_insert_eq.
    + destruct (encode_columns_present _ _ _ Henc col) as [rc Hrc].
      { apply list_elem_of_fmap. exists (col, mapping). done. }
      exists rc. split; [done|]. cbn. rewrite lookup_insert_ne.
      * by rewrite (Hin col mapping Hc), Hrc.
      * intros <-. apply Htarget. apply list_elem_of_fmap.
        exists (TARGET_COLUMN, mapping). done.
  - intros col Hcol. cbn in Hcol. apply not_elem_of_cons in Hcol as [Hne Hcol].
    cbn. rewrite lookup_insert_ne by done. by apply Hout.
Qed.

Lemma dict3_lookup (k1 k2 k3 s : string) (v1 v2 v3 z : Z) :
  dict3 k1 v1 k2 v2 k3 v3 !! s = Some z ->
  (s = k3 /\ z = v3) \/ (s = k2 /\ z = v2) \/ (s = k1 /\ z = v1).
Proof.
  unfold dict3. rewrite !lookup_insert_Some, lookup_empty.
  intros [[<- <-]|[_ [[<- <-]|[_ [[<- <-]|[_ H]]]]]]; [tauto..|discriminate].
Qed.

(** Every map of the table sends its three keys to three different codes:
    1, 2, 3 for a feature, 0, 1, 2 for the target. *)
Lemma encoding_table_codes (col : string) (mapping : gmap string Z) :
  (col, mapping) ∈ encoding_table ->
  exists k1 k2 k3 v1 v2 v3,
    mapping = dict3 k1 v1 k2 v2 k3 v3
    /\ v1 <> v2 /\ v1 <> v3 /\ v2 <> v3
    /\ (if decide (col = TARGET_COLUMN) then 0 else 1) <= v1 <= (if decide (col = TARGET_COLUMN) then 2 else 3)
    /\ (if decide (col = TARGET_COLUMN) then 0 else 1) <= v2 <= (if decide (col = TARGET_COLUMN) then 2 else 3)
    /\ (if decide (col = TARGET_COLUMN) then 0 else 1) <= v3 <= (if decide (col = TARGET_COLUMN) then 2 else 3).
Proof.
  intros Hc. unfold encoding_table, CATEGORY_MAPS, TARGET_MAP in Hc.
  repeat (apply elem_of_cons in Hc as [Hc|Hc];
          [injection Hc as -> ->;
           do 6 eexists; split; [reflexivity|];
           repeat split; first [discriminate | (vm_compute; discriminate)]|]).
  inversion Hc.
Qed.

Lemma encoded_cell (df_raw df_encoded : DataFrame) (col : string)
    (mapping : gmap string Z) (raw_col : list cell) (i : nat) (c : cell) :
  df_columns df_raw !! col = Some raw_col ->
  df_columns df_encoded !! col = Some (series_map mapping raw_col) ->
  cell_at df_encoded col i = Some c ->
  exists v, cell_at df_raw col i = Some v /\ c = map_cell mapping v.
Proof.
  intros Hraw Henc. unfold cell_at. rewrite Hraw, Henc. cbn.
  unfold series_map.
  change (map (map_cell mapping) raw_col) with (map_cell mapping <$> raw_col).
  rewrite list_lookup_fmap.
  destruct (raw_col !! i) as [v|]; [|discriminate].
  cbn. intros [= <-]. eauto.
Qed.

(** X10.  In the frame [load_and_encode] returns, every cell of a feature
    column is [NaN] or one of the integers 1, 2, 3, and every cell of the
    target column is [NaN] or one of 0, 1, 2. *)
Theorem load_and_encode_code_range (read_csv : string -> result DataFrame)
    (self : DataPipeline) (df_raw df_encoded : DataFrame) :
  load_and_encode read_csv self = Ok (df_raw, df_encoded) ->
  (forall col i c, col ∈ FEATURE_COLUMNS ->
     cell_at df_encoded col i = Some c ->
     c = CNaN \/ exists z, c = CNum z /\ 1 <= z <= 3)
  /\ (forall i c,
        cell_at df_encoded TARGET_COLUMN i = Some c ->
        c = CNaN \/ exists z, c = CNum z /\ 0 <= z <= 2).
Proof.
  intros Hrun.
  destruct (load_and_encode_inv _ _ _ _ Hrun) as (_ & _ & Htab & _).
  assert (forall col mapping i c, (col, mapping) ∈ encoding_table ->
            cell_at df_encoded col i = Some c ->
            c = CNaN
            \/ exists z, c = CNum z
                 /\ (if decide (col = TARGET_COLUMN) then 0 else 1) <= z
                    <= (if decide (col = TARGET_COLUMN) then 2 else 3))
    as Hrange.
  { intros col mapping i c Hc Hcell.
    destruct (Htab col mapping Hc) as (rc & Hraw & Henc).
    destruct (encoded_cell _ _ _ _ _ _ _ Hraw Henc Hcell) as (v & _ & ->).
    destruct (encoding_table_codes col mapping Hc)
      as (k1 & k2 & k3 & v1 & v2 & v3 & -> & _ & _ & _ & H1 & H2 & H3).
    destruct v as [s| |]; cbn; [|by left..].
    destruct (dict3 k1 v1 k2 v2 k3 v3 !! s) as [z|] eqn:Hz; [|by left].
    right. exists z. split; [done|].
    apply dict3_lookup in Hz as [[_ ->]|[[_ ->]|[_ ->]]]; done. }
  split.
  - intros col i c Hcol Hcell.
    rewrite <- category_columns_are_features in Hcol.
    apply list_elem_of_fmap in Hcol as ([col' mapping] & -> & Hin).
    destruct (Hrange col' mapping i c ltac:(by right) Hcell) as [?|(z & -> & Hz)];
      [by left|]. right. exists z. split; [done|].
    assert (col' <> TARGET_COLUMN) as Hne.
    { intros ->. pose proof category_columns_distinct as Hnd.
      apply NoDup_cons in Hnd as [Ht _]. apply Ht.
      apply list_elem_of_fmap. exists (TARGET_COLUMN, mapping). done. }
    rewrite !decide_False in Hz by exact Hne. exact Hz.
  - intros i c Hcell.
    destruct (Hrange TARGET_COLUMN TARGET_MAP i c ltac:(by left) Hcell)
      as [?|(z & -> & Hz)]; [by left|]. right. exists z. done.
Qed.

Lemma sample_load : exists df_encoded,
  load_and_encode sample_read_csv sample_pipeline = Ok (sample_frame, df_encoded).
Proof.
  destruct (load_and_encode sample_read_csv sample_pipeline)
    as [[raw enc]|e] eqn:Hrun.
  - exists enc. f_equal. f_equal.
    apply load_and_encode_inv in Hrun as (Hread & _). by injection Hread.
  - vm_compute in Hrun. discriminate Hrun.
Qed.

(** The sample file: the codes of its target column. *)
Lemma load_and_encode_code_range_witness :
  exists df_encoded,
    load_and_encode sample_read_csv sample_pipeline
    = Ok (sample_frame, df_encoded)
    /\ forall i c, cell_at df_encoded TARGET_COLUMN i = Some c ->
                   c = CNaN \/ exists z, c = CNum z /\ 0 <= z <= 2.
Proof.
  destruct sample_load as [enc Hrun]. exists enc. split; [exact Hrun|].
  exact (proj2 (load_and_encode_code_range _ _ _ _ Hrun)).
Defined.

(** X11.  The encoding loses nothing of the recognized categories: two
    cells of one encoded column that hold the same integer come from raw
    cells that hold the same category string. *)
Theorem load_and_encode_codes_distinct (read_csv : string -> result DataFrame)
    (self : DataPipeline) (df_raw df_encoded : DataFrame) :
  load_and_encode read_csv self = Ok (df_raw, df_encoded) ->
  forall col i j z, col ∈ TARGET_COLUMN :: FEATURE_COLUMNS ->
    cell_at df_encoded col i = Some (CNum z) ->
    cell_at df_encoded col j = Some (CNum z) ->
    exists s, cell_at df_raw col i = Some (CStr s)
              /\ cell_at df_raw col j = Some (CStr s).
Proof.
  intros Hrun col i j z Hcol Hi Hj.
  destruct (load_and_encode_inv _ _ _ _ Hrun) as (_ & _ & Htab & _).
  assert (exists mapping, (col, mapping) ∈ encoding_table) as [mapping Hc].
  { apply elem_of_cons in Hcol as [->|Hcol].
    - exists TARGET_MAP. by left.
    - rewrite <- category_columns_are_features in Hcol.
      apply list_elem_of_fmap in Hcol as ([col' m] & -> & Hin).
      exists m. by right. }
  destruct (Htab col mapping Hc) as (rc & Hraw & Henc).
  destruct (encoded_cell _ _ _ _ _ _ _ Hraw Henc Hi) as (vi & Hvi & Hmi).
  destruct (encoded_cell _ _ _ _ _ _ _ Hraw Henc Hj) as (vj & Hvj & Hmj).
  destruct (encoding_table_codes col mapping Hc)
    as (k1 & k2 & k3 & v1 & v2 & v3 & -> & H12 & H13 & H23 & _).
  destruct vi as [si| |]; cbn in Hmi; try discriminate.
  destruct vj as [sj| |]; cbn in Hmj; try discriminate.
  destruct (dict3 k1 v1 k2 v2 k3 v3 !! si) as [zi|] eqn:Hzi; [|discriminate].
  destruct (dict3 k1 v1 k2 v2 k3 v3 !! sj) as [zj|] eqn:Hzj; [|discriminate].
  injection Hmi as <-. injection Hmj as <-.
  exists si. split; [done|]. rewrite Hvj. do 2 f_equal.
  apply dict3_lookup in Hzi as [[-> ->]|[[-> ->]|[-> ->]]];
    apply dict3_lookup in Hzj as [[-> Hz]|[[-> Hz]|[-> Hz]]];
    first [reflexivity | congruence].
Qed.

Lemma repeated_load : exists df_encoded,
  load_and_encode repeated_read_csv sample_pipeline
  = Ok (repeated_frame, df_encoded).
Proof.
  destruct (load_and_encode repeated_read_csv sample_pipeline)
    as [[raw enc]|e] eqn:Hrun.
  - exists enc. f_equal. f_equal.
    apply load_and_encode_inv in Hrun as (Hread & _). by injection Hread.
  - vm_compute in Hrun. discriminate Hrun.
Qed.

(** A file whose first and last row hold the same birth weight: the two
    cells are encoded to the same integer 2, and the two raw cells hold one
    string. *)
Lemma load_and_encode_codes_distinct_witness :
  exists df_encoded,
    load_and_encode repeated_read_csv sample_pipeline
    = Ok (repeated_frame, df_encoded)
    /\ cell_at df_encoded "BirthWeight" 0 = Some (CNum 2)
    /\ cell_at df_encoded "BirthWeight" 2 = Some (CNum 2)
    /\ exists s, cell_at repeated_frame "BirthWeight" 0 = Some (CStr s)
                 /\ cell_at repeated_frame "BirthWeight" 2 = Some (CStr s).
Proof.
  destruct repeated_load as [enc Hrun]. exists enc. split; [exact Hrun|].
  assert (cell_at enc "BirthWeight" 0 = Some (CNum 2)
          /\ cell_at enc "BirthWeight" 2 = Some (CNum 2)) as [Hfirst Hlast].
  { destruct (load_and_encode_inv _ _ _ _ Hrun) as (_ & _ & Htab & _).
    destruct (Htab "BirthWeight"
                (dict3 "WeightTooLow" 3 "LowWeight" 2 "NormalWeight" 1)
                ltac:(right; left))
      as (rc & Hraw & Henc).
    unfold cell_at. rewrite Henc.
    vm_compute in Hraw. injection Hraw as <-. split; reflexivity. }
  split; [exact Hfirst|]. split; [exact Hlast|].
  exact (load_and_encode_codes_distinct _ _ _ _ Hrun "BirthWeight"
           0%nat 2%nat 2 ltac:(right; left) Hfirst Hlast).
Defined.

(** X12.  [load_and_encode] fails on the first thing it cannot read and
    otherwise touches only the eleven columns of the table: an exception of
    [pd.read_csv] is passed on; a file that lacks one of the ten feature
    columns or the target column gives [KeyError]; and on a normal return
    the raw frame is the file as read, the encoded frame has the same row
    labels, and every column outside the table is the same in both. *)
Theorem load_and_encode_errors_and_frame
    (read_csv : string -> result DataFrame) (self : DataPipeline) :
  (forall e, read_csv (csv_path self) = Raise e ->
             load_and_encode read_csv self = Raise e)
  /\ (forall df col, read_csv (csv_path self) = Ok df ->
        col ∈ TARGET_COLUMN :: FEATURE_COLUMNS ->
        df_columns df !! col = None ->
        load_and_encode read_csv self = Raise KeyError)
  /\ (forall df_raw df_encoded,
        load_and_encode read_csv self = Ok (df_raw, df_encoded) ->
        read_csv (csv_path self) = Ok df_raw
        /\ df_index df_encoded = df_index df_raw
        /\ forall col, col ∉ TARGET_COLUMN :: FEATURE_COLUMNS ->
             df_columns df_encoded !! col = df_columns df_raw !! col).
Proof.
  split; [|split].
  - intros e He. unfold load_and_encode. by rewrite He.
  - intros df col Hread Hcol Hmiss.
    destruct (load_and_encode read_csv self) as [[raw enc]|e] eqn:Hrun.
    + exfalso.
      destruct (load_and_encode_inv _ _ _ _ Hrun) as (Hread' & _ & Htab & _).
      rewrite Hread in Hread'. injection Hread' as <-.
      assert (exists mapping, (col, mapping) ∈ encoding_table) as [mapping Hc].
      { apply elem_of_cons in Hcol as [->|Hcol].
        - exists TARGET_MAP. by left.
        - rewrite <- category_columns_are_features in Hcol.
          apply list_elem_of_fmap in Hcol as ([col' m] & -> & Hin).
          exists m. by right. }
      destruct (Htab col mapping Hc) as (rc & Hraw & _). congruence.
    + f_equal. unfold load_and_encode in Hrun. rewrite Hread in Hrun.
      cbn [rbind] in Hrun.
      destruct (encode_columns CATEGORY_MAPS df) as [df1|e1] eqn:Henc.
      * cbn [rbind] in Hrun. unfold getitem in Hrun.
        destruct (df_columns df1 !! TARGET_COLUMN); [discriminate|].
        by injection Hrun.
      * cbn [rbind] in Hrun. injection Hrun as <-.
        by eapply encode_columns_raises.
  - intros df_raw df_encoded Hrun.
    destruct (load_and_encode_inv _ _ _ _ Hrun) as (Hread & Hidx & _ & Hout).
    split; [done|]. split; [done|]. intros col Hcol. apply Hout.
    unfold encoding_table. cbn [fmap list_fmap fst].
    by rewrite category_columns_are_features.
Qed.

(** A file without the target column. *)
Lemma load_and_encode_errors_and_frame_witness :
  load_and_encode
    (fun _ => Ok (mkDataFrame (df_index sample_frame)
                    (delete TARGET_COLUMN (df_columns sample_frame))))
    sample_pipeline
  = Raise KeyError.
Proof.
  refine (proj1 (proj2 (load_and_encode_errors_and_frame _ sample_pipeline))
            _ TARGET_COLUMN eq_refl _ _).
  - by left.
  - cbn. apply lookup_delete_eq.
Defined.

(** *** Scaling *)

Lemma is_2d_rows (X : Matrix) (row : list Qc) :
  is_2d X = true -> row ∈ X -> length row = n_features X.
Proof.
  destruct X as [|r X]; [intros _ H; inversion H|].
  cbn [is_2d n_features]. intros H2d Hrow.
  apply Is_true_eq_left, forallb_True in H2d. rewrite Forall_forall in H2d.
  specialize (H2d row Hrow). by apply bool_decide_unpack in H2d.
Qed.

Lemma fit_inv (sqrt : Qc -> Qc) (X : Matrix) (st : ScalerStats) :
  fit sqrt X = Ok st ->
  is_2d X = true /\ X <> []
  /\ mean_ st = map (fun j => qmean (column X j)) (seq 0 (n_features X))
  /\ scale_ st
     = map (fun j => handle_zeros_in_scale (sqrt (qvar (column X j))))
           (seq 0 (n_features X)).
Proof.
  unfold fit. destruct (is_2d X); [|discriminate]. cbn [negb].
  destruct X as [|r X]; [discriminate|].
  case_bool_decide as Hcols; [discriminate|].
  intros [= <-]. cbn [mean_ scale_]. by rewrite !map_map.
Qed.

Lemma transform_inv (st : ScalerStats) (X out : Matrix) :
  transform (Some st) X = Ok out ->
  is_2d X = true /\ X <> [] /\ n_features X = length (mean_ st)
  /\ out = map (transform_row st) X.
Proof.
  unfold transform. destruct (is_2d X); [|discriminate]. cbn [negb].
  destruct X as [|r X]; [discriminate|].
  case_bool_decide as Hcols; [discriminate|].
  case_bool_decide as Hn; [|discriminate]. cbn [negb].
  by intros [= <-].
Qed.

(** One entry of a transformed row. *)
Lemma transform_row_nth (sqrt : Qc -> Qc) (X_train : Matrix)
    (st : ScalerStats) (row : list Qc) (j : nat) :
  fit sqrt X_train = Ok st ->
  length row = n_features X_train -> (j < n_features X_train)%nat ->
  transform_row st row !! j
  = Some ((nth j row 0 - qmean (column X_train j))
          / handle_zeros_in_scale (sqrt (qvar (column X_train j))))%Qc.
Proof.
  intros Hfit Hlen Hj.
  destruct (fit_inv _ _ _ Hfit) as (_ & _ & Hmean & Hscale).
  unfold transform_row. rewrite lookup_zip_with.
  destruct (lookup_lt_is_Some_2 row j ltac:(lia)) as [x Hx].
  rewrite Hx, (nth_lookup_Some _ _ _ _ Hx). cbn [mbind option_bind].
  rewrite lookup_zip_with, Hmean, Hscale.
  change (map ?f (seq 0 ?n)) with (f <$> seq 0 n).
  rewrite !list_lookup_fmap, lookup_seq_lt by exact Hj. reflexivity.
Qed.

(** What the fitted transform does to a matrix, entry by entry. *)
Lemma transform_fitted (sqrt : Qc -> Qc) (X_train X out : Matrix)
    (st : ScalerStats) :
  fit sqrt X_train = Ok st -> transform (Some st) X = Ok out ->
  profile out = profile X /\ n_features X = n_features X_train
  /\ (forall row, row ∈ X -> length row = n_features X_train)
  /\ out = map (transform_row st) X
  /\ forall i j, (i < length X)%nat -> (j < n_features X_train)%nat ->
       entry out i j
       = ((entry X i j - qmean (column X_train j))
          / handle_zeros_in_scale (sqrt (qvar (column X_train j))))%Qc.
Proof.
  intros Hfit Htr.
  destruct (transform_inv _ _ _ Htr) as (H2d & Hne & Hn & ->).
  destruct (fit_inv _ _ _ Hfit) as (_ & _ & Hmean & Hscale).
  assert (n_features X = n_features X_train) as HC
    by (by rewrite Hn, Hmean, length_map, length_seq).
  assert (forall row, row ∈ X -> length row = n_features X_train) as Hrows.
  { intros row Hrow. rewrite <- HC. by apply is_2d_rows. }
  assert (forall row, row ∈ X ->
            length (transform_row st row) = length row) as Hlen.
  { intros row Hrow. unfold transform_row.
    rewrite length_zip_with, length_zip, Hmean, Hscale.
    rewrite !length_map, !length_seq, (Hrows row Hrow). lia. }
  split.
  { unfold profile. rewrite map_map. apply map_ext_in.
    intros row Hrow. apply Hlen. by apply list_elem_of_In. }
  split; [exact HC|]. split; [exact Hrows|]. split; [reflexivity|].
  intros i j Hi Hj. unfold entry.
  destruct (lookup_lt_is_Some_2 X i Hi) as [row Hrow].
  assert (row ∈ X) as Hin by (eapply list_elem_of_lookup_2; eauto).
  rewrite (nth_lookup_Some _ _ _ _ Hrow).
  rewrite (nth_map_lookup (transform_row st) X i row [] Hrow).
  apply nth_lookup_Some.
  apply (transform_row_nth sqrt X_train); auto.
Qed.

(** X13.  The three matrices [scale_features] returns are standardized
    with the statistics of the training matrix alone: each has the shape
    of its input, and its entry in row [i] and column [j] is the input
    entry minus the mean of training column [j], divided by the scale of
    training column [j] (the square root of its population variance, or 1
    when that is 0).  Neither the validation nor the test matrix enters
    the statistics. *)
Theorem scale_features_uses_training_statistics (sqrt : Qc -> Qc)
    (self self' : DataPipeline) (X_train X_val X_test a b c : Matrix) :
  scale_features sqrt self X_train X_val X_test = (self', Ok (a, b, c)) ->
  forall X out,
    (X = X_train /\ out = a) \/ (X = X_val /\ out = b)
    \/ (X = X_test /\ out = c) ->
    profile out = profile X
    /\ forall i j, (i < length X)%nat -> (j < n_features X_train)%nat ->
         entry out i j
         = ((entry X i j - qmean (column X_train j))
            / handle_zeros_in_scale (sqrt (qvar (column X_train j))))%Qc.
Proof.
  intros Hrun X out Hcase.
  destruct (scale_features_inv _ _ _ _ _ _ _ _ _ Hrun)
    as (st & Hfit & _ & Ha & Hb & Hc).
  assert (transform (Some st) X = Ok out) as Htr.
  { destruct Hcase as [[-> ->]|[[-> ->]|[-> ->]]]; assumption. }
  destruct (transform_fitted sqrt X_train X out st Hfit Htr)
    as (Hp & _ & _ & _ & He).
  split; assumption.
Qed.

Lemma sample_scaling_run :
  scale_features exact_sqrt sample_pipeline
    sample_X_train sample_X_val sample_X_val
  = (mkPipeline "infantset.csv" (Some (mkStats [Q2Qc 2] [1%Qc] [1%Qc])),
     Ok ([[Q2Qc (-1)]; [1%Qc]], [[1%Qc]], [[1%Qc]])).
Proof. qc_eq. Qed.

(** The validation value 3 against the training column [1, 3]. *)
Lemma scale_features_uses_training_statistics_witness :
  entry [[1%Qc]] 0 0
  = ((entry sample_X_val 0 0 - qmean (column sample_X_train 0))
     / handle_zeros_in_scale (exact_sqrt (qvar (column sample_X_train 0))))%Qc.
Proof.
  refine (proj2 (scale_features_uses_training_statistics _ _ _ _ _ _ _ _ _
                   sample_scaling_run sample_X_val [[1%Qc]] _) 0%nat 0%nat _ _).
  - right. left. done.
  - cbn. lia.
  - cbn. lia.
Defined.

End PreprocessingExtras.

(** * Further properties of the evaluation of the ensemble *)

Module EvaluationExtras.

Import Config Architectures Ensemble Spec Roster EnsembleProofs EnsembleExtras.

Lemma length_append (a b : string) :
  String.length (a +:+ b) = (String.length a + String.length b)%nat.
Proof. induction a as [|c a IH]; simpl; [done|by f_equal]. Qed.

Lemma append_cancel_r (a b s : string) : a +:+ s = b +:+ s -> a = b.
Proof.
  revert b. induction a as [|c a IH]; intros [|d b] H.
  - done.
  - apply (f_equal String.length) in H.
    rewrite !length_append in H. cbn in H. lia.
  - apply (f_equal String.length) in H.
    rewrite !length_append in H. cbn in H. lia.
  - cbn in H. injection H as -> H. f_equal. by apply IH.
Qed.

Lemma only_warned_trans (w1 w2 w3 : World) :
  only_warned w1 w2 -> only_warned w2 w3 -> only_warned w1 w3.
Proof.
  intros (Hs1 & Hd1 & m1 & Hl1 & Ha1) (Hs2 & Hd2 & m2 & Hl2 & Ha2).
  split; [congruence|]. split; [congruence|].
  exists (m1 ++ m2). split.
  - by rewrite Hl2, Hl1, app_assoc.
  - by apply Forall_app.
Qed.

Lemma collect_predictions_only_warns
    (w : World) (X : Matrix) (X_raw bert : option Matrix) :
  only_warned w (fst (_collect_predictions X X_raw bert w)).
Proof.
  destruct (_collect_predictions X X_raw bert w) as [w' r] eqn:Hrun.
  unfold _collect_predictions, bind, get_self in Hrun.
  exact (collect_loop_only_warns _ _ _ _ _ _ _ _ Hrun).
Qed.

Lemma predict_ensemble_only_warns
    (w : World) (X : Matrix) (X_raw bert : option Matrix) :
  only_warned w (fst (predict_ensemble X X_raw bert w)).
Proof.
  pose proof (collect_predictions_only_warns w X X_raw bert) as Hc.
  unfold predict_ensemble, bind.
  destruct (_collect_predictions X X_raw bert w) as [w' [ps|e]]; done.
Qed.

Lemma predict_weighted_ensemble_only_warns
    (w : World) (X : Matrix) (X_raw bert : option Matrix) :
  only_warned w (fst (predict_weighted_ensemble X X_raw bert w)).
Proof.
  pose proof (collect_predictions_only_warns w X X_raw bert) as Hc.
  unfold predict_weighted_ensemble, bind.
  destruct (_collect_predictions X X_raw bert w) as [w' [ps|e]]; done.
Qed.

(** The names [zip(self.model_names, all_probs)] pairs with a prediction
    are distinct when the names of the roster are. *)
Lemma zip_fst_NoDup {A B : Type} (l : list A) (k : list B) :
  NoDup l -> NoDup (zip l k).*1.
Proof.
  revert k. induction l as [|a l IH]; intros [|b k] Hnd; cbn;
    try apply NoDup_nil_2.
  apply NoDup_cons in Hnd as [Hnotin Hnd]. apply NoDup_cons. split.
  - intros Hin. apply Hnotin.
    apply list_elem_of_fmap in Hin as ([a' b'] & -> & Hin).
    cbn. by apply elem_of_zip_l in Hin.
  - by apply IH.
Qed.

Section Evaluation.

Context (to_categorical : list Z -> nat -> result Matrix).
Context (roc_auc_score : Matrix -> ndarray -> result Qc).

Local Abbreviation per_model_aucs := (per_model_aucs roc_auc_score).
Local Abbreviation evaluate_auc := (evaluate_auc to_categorical roc_auc_score).

Lemma per_model_aucs_state (y_true_onehot : Matrix) :
  forall (named : list (string * Matrix)) (results : gmap string Qc) (w : World),
    fst (per_model_aucs named y_true_onehot results w) = w.
Proof.
  induction named as [|[name probs] rest IH]; intros results w; [done|].
  cbn [Ensemble.per_model_aucs]. unfold bind at 1, lift.
  destruct (roc_auc_score y_true_onehot (Arr probs)) as [auc|e]; [apply IH|done].
Qed.

(** What the loop of [evaluate_auc] leaves in the dictionary: the entry of
    the name at a position is the score of the prediction at that position,
    and every other key is as before. *)
Lemma per_model_aucs_run (y_true_onehot : Matrix) :
  forall (named : list (string * Matrix)) (results out : gmap string Qc)
         (w w' : World),
    NoDup (named.*1) ->
    per_model_aucs named y_true_onehot results w = (w', Ok out) ->
    (forall i name probs,
       named !! i = Some (name, probs) ->
       exists auc, roc_auc_score y_true_onehot (Arr probs) = Ok auc
                   /\ out !! (name +:+ "_auc") = Some auc)
    /\ (forall key,
          (forall name, name ∈ named.*1 -> key <> name +:+ "_auc") ->
          out !! key = results !! key).
Proof.
  induction named as [|[name probs] rest IH]; intros results out w w' Hnd Hrun.
  - cbn in Hrun. unfold ret in Hrun. injection Hrun as _ <-.
    split; [intros i name probs Hi; by rewrite lookup_nil in Hi|done].
  - cbn [Ensemble.per_model_aucs] in Hrun. unfold bind at 1, lift in Hrun.
    cbn [fmap list_fmap fst] in Hnd. apply NoDup_cons in Hnd as [Hnotin Hnd].
    destruct (roc_auc_score y_true_onehot (Arr probs)) as [auc|e] eqn:Hauc;
      [|discriminate Hrun].
    destruct (IH _ _ _ _ Hnd Hrun) as [Hat Hother]. split.
    + intros [|i] name' probs' Hi.
      * injection Hi as <- <-. exists auc. split; [exact Hauc|].
        rewrite Hother.
        -- apply lookup_insert_eq.
        -- intros name' Hin Heq. apply append_cancel_r in Heq as ->. done.
      * exact (Hat i name' probs' Hi).
    + intros key Hkey. rewrite Hother.
      * apply lookup_insert_ne. intros Heq. apply (Hkey name); [by left|done].
      * intros name' Hin. apply Hkey. by right.
Qed.

(** The steps of a call of [evaluate_auc] that returns. *)
Lemma evaluate_auc_inv (w w' : World) (X : Matrix) (y_true : list Z)
    (X_raw bert : option Matrix) (weighted : bool) (results : gmap string Qc) :
  raw_columns_ok (model_names (self w)) X_raw ->
  evaluate_auc X y_true X_raw bert weighted w = (w', Ok results) ->
  let all_probs := map (member_probs X X_raw bert)
                       (List.filter (kept X_raw bert) (members (self w))) in
  exists (y_true_onehot : Matrix) (avg_probs : ndarray) (ensemble_auc : Qc)
         (base : gmap string Qc) (w3 : World),
    to_categorical y_true NUM_CLASSES = Ok y_true_onehot
    /\ snd (predict_ensemble X X_raw bert w) = Ok avg_probs
    /\ roc_auc_score y_true_onehot avg_probs = Ok ensemble_auc
    /\ (if weighted && negb (bool_decide (individual_aucs (self w) = []))
        then exists w_probs w_auc,
               snd (predict_weighted_ensemble X X_raw bert w) = Ok w_probs
               /\ roc_auc_score y_true_onehot w_probs = Ok w_auc
               /\ base = <["weighted_ensemble_auc" := w_auc]>
                           {[ "ensemble_auc" := ensemble_auc ]}
        else base = {[ "ensemble_auc" := ensemble_auc ]})
    /\ per_model_aucs (zip (model_names (self w)) all_probs)
                      y_true_onehot base w3
       = (w', Ok results).
Proof.
  intros Hok Hrun all_probs.
  unfold Ensemble.evaluate_auc in Hrun. unfold bind at 1, lift in Hrun.
  destruct (to_categorical y_true NUM_CLASSES) as [y_true_onehot|e];
    [|discriminate Hrun].
  exists y_true_onehot.
  unfold bind at 1 in Hrun.
  assert (forall v : World,
            self v = self w ->
            _collect_predictions X X_raw bert v
            = (add_log v (map skip_warning
                            (List.filter (fun m => skipped (snd m) X_raw bert)
                                         (members (self w)))),
               Ok all_probs)) as Hcollect.
  { intros v Hv. rewrite collect_predictions_run by (by rewrite Hv).
    by rewrite Hv. }
  set (warn := map skip_warning _) in Hcollect.
  assert (forall v : World,
            self v = self w ->
            predict_ensemble X X_raw bert v
            = (add_log v warn, np_mean_axis0 all_probs)) as Hmean.
  { intros v Hv. unfold predict_ensemble, bind. by rewrite (Hcollect v Hv). }
  assert (forall v : World,
            self v = self w ->
            predict_weighted_ensemble X X_raw bert v
            = (add_log v warn,
               np_average_axis0 all_probs
                 (normalize (take (length all_probs)
                                  (individual_aucs (self w)))))) as Hweighted.
  { intros v Hv. unfold predict_weighted_ensemble, bind.
    rewrite (Hcollect v Hv). unfold get_self, lift. cbn [self add_log].
    by rewrite Hv. }
  rewrite (Hmean w eq_refl) in Hrun |- *. cbn [snd].
  destruct (np_mean_axis0 all_probs) as [avg_probs|e]; [|discriminate Hrun].
  exists avg_probs.
  unfold bind at 1, lift in Hrun.
  destruct (roc_auc_score y_true_onehot avg_probs) as [ensemble_auc|e];
    [|discriminate Hrun].
  exists ensemble_auc.
  unfold bind at 1, get_self in Hrun. cbn [self add_log] in Hrun.
  rewrite (Hweighted w eq_refl). cbn [snd].
  unfold bind at 1 in Hrun.
  destruct (weighted && negb (bool_decide (individual_aucs (self w) = []))).
  - unfold bind at 1 in Hrun. rewrite Hweighted in Hrun by reflexivity.
    destruct (np_average_axis0 all_probs _) as [w_probs|e];
      [|discriminate Hrun].
    unfold bind at 1, lift in Hrun.
    destruct (roc_auc_score y_true_onehot w_probs) as [w_auc|e] eqn:Hws;
      [|discriminate Hrun].
    unfold ret in Hrun.
    unfold bind at 1 in Hrun. rewrite Hcollect in Hrun by reflexivity.
    unfold bind at 1, get_self in Hrun. cbn [self add_log] in Hrun.
    eexists _, _. split; [done|]. split; [done|]. split; [done|].
    split; [by exists w_probs, w_auc|]. exact Hrun.
  - unfold ret in Hrun.
    unfold bind at 1 in Hrun. rewrite Hcollect in Hrun by reflexivity.
    unfold bind at 1, get_self in Hrun. cbn [self add_log] in Hrun.
    eexists _, _. split; [done|]. split; [done|]. split; [done|].
    split; [done|]. exact Hrun.
Qed.

(** X14.  [evaluate_auc] never changes the predictor or the file system:
    whether it returns or raises, the models, names and scores and every
    file are as before, and the log is the log before followed by warnings
    only. *)
Theorem evaluate_auc_only_warns
    (w : World) (X : Matrix) (y_true : list Z) (X_raw bert : option Matrix)
    (weighted : bool) :
  only_warned w (fst (evaluate_auc X y_true X_raw bert weighted w)).
Proof.
  unfold Ensemble.evaluate_auc. unfold bind at 1, lift.
  destruct (to_categorical y_true NUM_CLASSES) as [y_true_onehot|e];
    [|apply only_warned_refl].
  unfold bind at 1.
  pose proof (predict_ensemble_only_warns w X X_raw bert) as H1.
  destruct (predict_ensemble X X_raw bert w) as [w1 [avg_probs|e]];
    [|exact H1].
  cbn [fst] in H1. apply (only_warned_trans _ _ _ H1).
  unfold bind at 1, lift.
  destruct (roc_auc_score y_true_onehot avg_probs) as [ensemble_auc|e];
    [|apply only_warned_refl].
  unfold bind at 1, get_self. unfold bind at 1.
  assert (forall (results : gmap string Qc) (v : World),
            only_warned v
              (fst ((do all_probs <- _collect_predictions X X_raw bert;
                     do s <- get_self;
                     per_model_aucs (zip (model_names s) all_probs)
                                    y_true_onehot results) v))) as Hrest.
  { intros results v. unfold bind at 1.
    pose proof (collect_predictions_only_warns v X X_raw bert) as H3.
    destruct (_collect_predictions X X_raw bert v) as [w3 [all_probs|e]];
      [|exact H3].
    unfold bind, get_self. by rewrite per_model_aucs_state. }
  destruct (weighted && negb (bool_decide (individual_aucs (self w1) = []))).
  - unfold bind at 1.
    pose proof (predict_weighted_ensemble_only_warns w1 X X_raw bert) as H2.
    destruct (predict_weighted_ensemble X X_raw bert w1) as [w2 [w_probs|e]];
      [|exact H2].
    cbn [fst] in H2. apply (only_warned_trans _ _ _ H2).
    unfold bind at 1, lift.
    destruct (roc_auc_score y_true_onehot w_probs) as [w_auc|e];
      [|apply only_warned_refl].
    unfold ret. apply Hrest.
  - unfold ret. apply Hrest.
Qed.

(** X15.  [evaluate_auc] keys the per-model scores by position, not by
    member.  When the call returns, the entry [<name>_auc] of the name at
    position [i] of the roster is the score of the prediction of the
    [i]-th member that was not skipped; a name at a position beyond the
    number of members that predicted has no entry of its own. *)
Theorem evaluate_auc_scores_by_position
    (w w' : World) (X : Matrix) (y_true : list Z) (X_raw bert : option Matrix)
    (weighted : bool) (results : gmap string Qc) :
  raw_columns_ok (model_names (self w)) X_raw ->
  NoDup (model_names (self w)) ->
  evaluate_auc X y_true X_raw bert weighted w = (w', Ok results) ->
  exists y_true_onehot,
    to_categorical y_true NUM_CLASSES = Ok y_true_onehot
    /\ (forall i name member,
          model_names (self w) !! i = Some name ->
          List.filter (kept X_raw bert) (members (self w)) !! i = Some member ->
          exists auc,
            roc_auc_score y_true_onehot
              (Arr (member_probs X X_raw bert member)) = Ok auc
            /\ results !! (name +:+ "_auc") = Some auc)
    /\ (forall i name,
          model_names (self w) !! i = Some name ->
          (length (List.filter (kept X_raw bert) (members (self w))) <= i)%nat ->
          name <> "ensemble" -> name <> "weighted_ensemble" ->
          results !! (name +:+ "_auc") = None).
Proof.
  intros Hok Hnd Hrun.
  destruct (evaluate_auc_inv _ _ _ _ _ _ _ _ Hok Hrun)
    as (y_true_onehot & avg_probs & ensemble_auc & base & w3
        & Honehot & _ & _ & Hbase & Hloop).
  exists y_true_onehot. split; [exact Honehot|].
  set (kept_members := List.filter (kept X_raw bert) (members (self w))) in *.
  destruct (per_model_aucs_run _ _ _ _ _ _ (zip_fst_NoDup _ _ Hnd) Hloop)
    as [Hat Hother].
  split.
  - intros i name member Hname Hmember.
    apply (Hat i name (member_probs X X_raw bert member)).
    apply lookup_zip_with_Some. exists name, (member_probs X X_raw bert member).
    split; [done|]. split; [exact Hname|].
    by rewrite list_lookup_fmap, Hmember.
  - intros i name Hname Hbeyond Hens Hwens.
    rewrite Hother.
    + assert (name +:+ "_auc" <> "ensemble_auc") as H1.
      { intros Heq. by apply (append_cancel_r name "ensemble") in Heq. }
      assert (name +:+ "_auc" <> "weighted_ensemble_auc") as H2.
      { intros Heq. by apply (append_cancel_r name "weighted_ensemble") in Heq. }
      destruct (weighted && negb (bool_decide (individual_aucs (self w) = []))).
      * destruct Hbase as (w_probs & w_auc & _ & _ & ->).
        rewrite lookup_insert_ne by done. by apply lookup_singleton_ne.
      * subst base. by apply lookup_singleton_ne.
    + intros name' Hin Heq. apply append_cancel_r in Heq as <-.
      apply list_elem_of_fmap in Hin as ([n ps] & -> & Hin).
      apply list_elem_of_lookup in Hin as [j Hj].
      apply lookup_zip_with_Some in Hj as (n' & ps' & [= <- <-] & Hn & Hps).
      cbn [fst] in Hname.
      assert (j = i) as -> by (eapply NoDup_lookup; eauto).
      apply lookup_lt_Some in Hps. rewrite length_map in Hps. lia.
Qed.

(** X16.  The two ensemble entries of [evaluate_auc].  On a roster with no
    member named [ensemble] or [weighted_ensemble], a call that returns
    holds under [ensemble_auc] the score of the outcome of
    [predict_ensemble]; it holds under [weighted_ensemble_auc] the score of
    the outcome of [predict_weighted_ensemble] when [weighted] is set and
    the predictor has at least one stored score, and no such entry
    otherwise. *)
Theorem evaluate_auc_ensemble_entries
    (w w' : World) (X : Matrix) (y_true : list Z) (X_raw bert : option Matrix)
    (weighted : bool) (results : gmap string Qc) :
  raw_columns_ok (model_names (self w)) X_raw ->
  NoDup (model_names (self w)) ->
  "ensemble" ∉ model_names (self w) ->
  "weighted_ensemble" ∉ model_names (self w) ->
  evaluate_auc X y_true X_raw bert weighted w = (w', Ok results) ->
  exists y_true_onehot avg_probs ensemble_auc,
    to_categorical y_true NUM_CLASSES = Ok y_true_onehot
    /\ snd (predict_ensemble X X_raw bert w) = Ok avg_probs
    /\ roc_auc_score y_true_onehot avg_probs = Ok ensemble_auc
    /\ results !! "ensemble_auc" = Some ensemble_auc
    /\ if weighted && negb (bool_decide (individual_aucs (self w) = []))
       then exists w_probs w_auc,
              snd (predict_weighted_ensemble X X_raw bert w) = Ok w_probs
              /\ roc_auc_score y_true_onehot w_probs = Ok w_auc
              /\ results !! "weighted_ensemble_auc" = Some w_auc
       else results !! "weighted_ensemble_auc" = None.
Proof.
  intros Hok Hnd Hens Hwens Hrun.
  destruct (evaluate_auc_inv _ _ _ _ _ _ _ _ Hok Hrun)
    as (y_true_onehot & avg_probs & ensemble_auc & base & w3
        & Honehot & Hmean & Hscore & Hbase & Hloop).
  exists y_true_onehot, avg_probs, ensemble_auc.
  split; [exact Honehot|]. split; [exact Hmean|]. split; [exact Hscore|].
  destruct (per_model_aucs_run _ _ _ _ _ _ (zip_fst_NoDup _ _ Hnd) Hloop)
    as [_ Hother].
  assert (forall name, name ∈ (zip (model_names (self w))
                                   (map (member_probs X X_raw bert)
                                        (List.filter (kept X_raw bert)
                                                     (members (self w))))).*1 ->
                       name ∈ model_names (self w)) as Hsub.
  { intros name Hin. apply list_elem_of_fmap in Hin as ([n ps] & -> & Hin).
    by apply elem_of_zip_l in Hin. }
  assert (results !! "ensemble_auc" = base !! "ensemble_auc") as He.
  { apply Hother. intros name Hin Heq.
    apply (append_cancel_r "ensemble" name) in Heq as <-. by apply Hens, Hsub. }
  assert (results !! "weighted_ensemble_auc" = base !! "weighted_ensemble_auc")
    as Hw.
  { apply Hother. intros name Hin Heq.
    apply (append_cancel_r "weighted_ensemble" name) in Heq as <-.
    by apply Hwens, Hsub. }
  rewrite He, Hw.
  destruct (weighted && negb (bool_decide (individual_aucs (self w) = []))).
  - destruct Hbase as (w_probs & w_auc & Hwp & Hws & ->). split.
    + rewrite lookup_insert_ne by done. apply lookup_singleton_eq.
    + exists w_probs, w_auc. split; [exact Hwp|]. split; [exact Hws|].
      apply lookup_insert_eq.
  - subst base. split; [apply lookup_singleton_eq|].
    by apply lookup_singleton_ne.
Qed.

End Evaluation.

(** One record of class 0, scored on a roster. *)
Local Abbreviation sample_evaluation X_raw bert w :=
  (evaluate_auc sample_to_categorical sample_score one_record [0]
                X_raw bert true w).

(** The two members of the scenario, their scores lost. *)
Local Abbreviation unscored :=
  (mkWorld (mkEnsemble (trained_models (self scenario))
                       (model_names (self scenario)) [])
           ∅ []).

Lemma sample_evaluation_returns :
  (exists w' results,
     sample_evaluation None (Some [[1%Qc]]) mixed_roster = (w', Ok results))
  /\ (exists w' results,
        sample_evaluation None None unscored = (w', Ok results)).
Proof.
  split.
  - assert (match snd (sample_evaluation None (Some [[1%Qc]]) mixed_roster) with
            | Ok _ => True
            | Raise _ => False
            end) as Hreturns by (vm_compute; exact I).
    revert Hreturns.
    destruct (sample_evaluation None (Some [[1%Qc]]) mixed_roster)
      as [w' [results|e]]; cbn [snd]; intros Hreturns; [|destruct Hreturns].
    by exists w', results.
  - assert (match snd (sample_evaluation None None unscored) with
            | Ok _ => True
            | Raise _ => False
            end) as Hreturns by (vm_compute; exact I).
    revert Hreturns.
    destruct (sample_evaluation None None unscored)
      as [w' [results|e]]; cbn [snd]; intros Hreturns; [|destruct Hreturns].
    by exists w', results.
Qed.

(** The mixed roster asked without the raw matrix: the entry
    [EmbeddingNet_auc] holds 0.1, the score of the fusion member, and there
    is no entry [BERTFusion_auc]. *)
Lemma evaluate_auc_scores_by_position_witness :
  exists w' results,
    sample_evaluation None (Some [[1%Qc]]) mixed_roster = (w', Ok results)
    /\ sample_score [[1%Qc; 0%Qc; 0%Qc]]
         (Arr (predict (const_model [Q2Qc 0.1; Q2Qc 0.1; Q2Qc 0.8])
                       (FusionIn one_record [[1%Qc]])))
       = Ok (Q2Qc 0.1)
    /\ results !! "EmbeddingNet_auc" = Some (Q2Qc 0.1)
    /\ results !! "BERTFusion_auc" = None.
Proof.
  destruct (proj1 sample_evaluation_returns) as (w' & results & Hrun).
  exists w', results. split; [exact Hrun|].
  assert (sample_score [[1%Qc; 0%Qc; 0%Qc]]
            (Arr (predict (const_model [Q2Qc 0.1; Q2Qc 0.1; Q2Qc 0.8])
                          (FusionIn one_record [[1%Qc]])))
          = Ok (Q2Qc 0.1)) as Hscore by qc_eq.
  split; [exact Hscore|].
  destruct (evaluate_auc_scores_by_position
              sample_to_categorical sample_score mixed_roster w'
              one_record [0] None (Some [[1%Qc]]) true results)
    as (y_true_onehot & Honehot & Hat & Hbeyond).
  - intros _ r Hr. discriminate Hr.
  - refine (bool_decide_unpack _ _). vm_compute. exact I.
  - exact Hrun.
  - split.
    + destruct (Hat 1%nat "EmbeddingNet"
                  (const_model [Q2Qc 0.1; Q2Qc 0.1; Q2Qc 0.8], "BERTFusion")
                  eq_refl eq_refl) as (auc & Hauc & Hentry).
      injection Honehot as <-.
      assert (Ok auc = Ok (Q2Qc 0.1)) as Heq by (rewrite <- Hauc; exact Hscore).
      injection Heq as <-. exact Hentry.
    + apply (Hbeyond 2%nat "BERTFusion" eq_refl); [vm_compute; lia|done|done].
Defined.

(** A predictor without scores asked for the weighted score: the result
    has the entry [ensemble_auc] and no entry [weighted_ensemble_auc]. *)
Lemma evaluate_auc_ensemble_entries_witness :
  exists w' results,
    sample_evaluation None None unscored = (w', Ok results)
    /\ is_Some (results !! "ensemble_auc")
    /\ results !! "weighted_ensemble_auc" = None.
Proof.
  destruct (proj2 sample_evaluation_returns) as (w' & results & Hrun).
  exists w', results. split; [exact Hrun|].
  destruct (evaluate_auc_ensemble_entries
              sample_to_categorical sample_score unscored w'
              one_record [0] None None true results)
    as (y_true_onehot & avg_probs & ensemble_auc & _ & _ & _ & He & Hw).
  - intros _ r Hr. discriminate Hr.
  - refine (bool_decide_unpack _ _). vm_compute. exact I.
  - refine (bool_decide_unpack _ _). vm_compute. exact I.
  - refine (bool_decide_unpack _ _). vm_compute. exact I.
  - exact Hrun.
  - split; [by exists ensemble_auc|exact Hw].
Defined.

End EvaluationExtras.

(** * Further properties of the stratified split *)

Module SplitExtras.

Import Config Preprocessing Spec PreprocessingProofs.

Section Splits.

Context {rng : Type}.
Context (shuffle_split :
  rng -> option Z -> nat -> Qc -> list cell ->
  rng * result (list nat * list nat)).

Local Abbreviation train_test_split := (train_test_split rng shuffle_split).
Local Abbreviation stratified_split := (stratified_split rng shuffle_split).

(** What is relied on of the library's index generator: the train and test
    positions it returns are the positions of the rows, each once. *)
Hypothesis shuffle_split_partition :
  forall g random_state n test_size y g' train test,
    shuffle_split g random_state n test_size y = (g', Ok (train, test)) ->
    Permutation (train ++ test) (seq 0 n).

Lemma train_test_split_records g df test_size y random_state g' a b :
  train_test_split g df test_size y random_state = (g', Ok (a, b)) ->
  Permutation (records a ++ records b) (records df).
Proof.
  intros H.
  destruct (train_test_split_inv shuffle_split shuffle_split_partition
              _ _ _ _ _ _ _ _ H) as (train & test & Hp & Ha & Hb).
  rewrite (iloc_records _ _ _ Ha), (iloc_records _ _ _ Hb), <- map_app.
  unfold records. by apply Permutation_map.
Qed.

(** X17.  The test partition of [stratified_split] does not depend on
    [val_size]: two calls that return, from the same generator state, on
    the same frame with the same [test_size] and seed, give the same test
    frame, and the records of their training and validation frames taken
    together are the same up to order. *)
Theorem stratified_split_test_set_ignores_val_size
    g df test_size val_size val_size' seed g1 g2
    train val test train' val' test' :
  stratified_split g df test_size val_size seed
  = (g1, Ok (train, val, test)) ->
  stratified_split g df test_size val_size' seed
  = (g2, Ok (train', val', test')) ->
  test' = test
  /\ Permutation (records train' ++ records val')
                 (records train ++ records val).
Proof.
  intros Hrun Hrun'.
  destruct (stratified_split_inv _ _ _ _ _ _ _ _ _ _ Hrun)
    as (y & h & tv & ytv & rel & Hy & H1 & _ & _ & H2).
  destruct (stratified_split_inv _ _ _ _ _ _ _ _ _ _ Hrun')
    as (y' & h' & tv' & ytv' & rel' & Hy' & H1' & _ & _ & H2').
  rewrite Hy in Hy'. injection Hy' as <-.
  rewrite H1 in H1'. injection H1' as <- <- <-.
  split; [done|].
  rewrite (train_test_split_records _ _ _ _ _ _ _ _ H2).
  by rewrite (train_test_split_records _ _ _ _ _ _ _ _ H2').
Qed.

(** X18.  Two calls of [stratified_split] that cannot return.  On a frame
    without the target column the call raises [KeyError] before any split,
    the global generator left as it was; with [test_size] equal to 1 the
    call raises whatever the frame, since the share of the validation rows
    is [val_size / (1.0 - test_size)]. *)
Theorem stratified_split_raises g df val_size seed :
  (df_columns df !! TARGET_COLUMN = None ->
   forall test_size,
     stratified_split g df test_size val_size seed = (g, Raise KeyError))
  /\ exists e, snd (stratified_split g df 1%Qc val_size seed) = Raise e.
Proof.
  split.
  - intros Hmissing test_size.
    unfold Preprocessing.stratified_split, getitem. by rewrite Hmissing.
  - unfold Preprocessing.stratified_split.
    destruct (getitem df TARGET_COLUMN) as [y|e]; [|by exists e].
    destruct (train_test_split g df 1%Qc y (Some seed))
      as [h [[tv test]|e]]; [|by exists e].
    destruct (getitem tv TARGET_COLUMN) as [ytv|e]; [|by exists e].
    unfold py_div. rewrite decide_True; [by exists ZeroDivisionError|].
    apply Qc_is_canon. reflexivity.
Qed.

End Splits.

(** The sample frame split with a quarter and with a half of the rows for
    validation: the same test row, one and two validation rows. *)
Lemma stratified_split_test_set_ignores_val_size_witness :
  match sample_split 0,
        stratified_split nat sample_shuffle_split 0%nat sample_encoded
                         (Q2Qc 0.25) (Q2Qc 0.5) 42 with
  | (_, Ok (train, val, test)), (_, Ok (train', val', test')) =>
      test' = test
      /\ (nrows val = 1 /\ nrows val' = 2)%nat
      /\ Permutation (records train' ++ records val')
                     (records train ++ records val)
  | _, _ => False
  end.
Proof.
  destruct (sample_split 0) as [g1 [[[train val] test]|e]] eqn:Hrun;
    [|vm_compute in Hrun; discriminate Hrun].
  destruct (stratified_split nat sample_shuffle_split 0%nat sample_encoded
              (Q2Qc 0.25) (Q2Qc 0.5) 42)
    as [g2 [[[train' val'] test']|e]] eqn:Hrun';
    [|vm_compute in Hrun'; discriminate Hrun'].
  destruct (stratified_split_test_set_ignores_val_size
              sample_shuffle_split sample_shuffle_split_partition
              _ _ _ _ _ _ _ _ _ _ _ _ _ _ Hrun Hrun') as [Htest Hperm].
  split; [exact Htest|]. split; [|exact Hperm].
  unfold sample_split in Hrun. vm_compute in Hrun, Hrun'.
  injection Hrun as _ <- <- <-. injection Hrun' as _ <- <- <-. done.
Defined.

(** A frame that has a feature column and no target column. *)
Lemma stratified_split_raises_witness :
  stratified_split nat sample_shuffle_split 5%nat
    (mkDataFrame [10; 11] (list_to_map [("BirthWeight", [CNum 3; CNum 1])]))
    (Q2Qc 0.25) (Q2Qc 0.25) 42
  = (5%nat, Raise KeyError).
Proof.
  refine (proj1 (stratified_split_raises sample_shuffle_split 5%nat
                   (mkDataFrame [10; 11]
                      (list_to_map [("BirthWeight", [CNum 3; CNum 1])]))
                   (Q2Qc 0.25) 42) _ (Q2Qc 0.25)).
  vm_compute. reflexivity.
Defined.

End SplitExtras.
